(** * Amerta Coffee API: cart, checkout and invoice helpers

    A shallow embedding of the cart service ([src/services/cart.ts]:
    [getCart], [addOrUpdateCartItem], [deleteCartItem], [checkout]) and of
    the cart helpers it imports from [@/helpers/cart]
    ([generateInvoiceNumber], [validateProductStock],
    [calculateTotalPrice]), together with the properties of the cart and
    checkout workflow that the specification states about them.  It goes
    on with the handlers of the cart routes ([src/routes/cart.ts]) and
    the responses they build, and with the slugs of the products
    ([slugify], [generateSlug]).

    Conventions of the embedding:
    - Prisma [Int] columns and the JavaScript numbers that hold them
      (quantities, stock) are [Z]; a property that needs the range of
      the column asks for it ([int4]);
    - monetary amounts computed in JavaScript are IEEE-754 binary64 numbers,
      modelled by [number] below;
    - the database is an explicit record of tables, threaded through a
      state-and-exception monad; [$transaction] restores the tables when its
      callback throws;
    - what the runtime decides (the date, the random bytes of nanoid, the
      identifiers generated by Prisma) is an argument [env] of the
      services;
    - [nanoid] and the [format] of date-fns are library functions, written
      here as the libraries define them. *)

From Stdlib Require Import ZArith QArith Qreduction Lia Ascii.
From stdpp Require Import gmap strings list fin_maps pretty sorting.

(** ** JavaScript numbers *)

Module JsNumber.

Local Open Scope Z_scope.

(** The value set of a JavaScript number as far as the cart code can
    reach it: [NaN], or a finite binary64 value kept as a reduced
    fraction.  Amounts handled here are far inside the normal range of
    binary64, so the exponent is not bounded; the sign of zero is not
    tracked. *)
Inductive number : Type :=
| NaN
| Fin (q : Q).

(** [scaled_num a d e / scaled_den a d e] is the fraction [a / (d * 2^e)]. *)
Definition scaled_num (a : Z) (e : Z) : Z :=
  if 0 <=? e then a else a * 2 ^ (- e).
Definition scaled_den (d : Z) (e : Z) : Z :=
  if 0 <=? e then d * 2 ^ e else d.

(** Round to nearest, ties to even, on an integer quotient. *)
Definition round_half_even (n d : Z) : Z :=
  let q := n / d in
  let r := n mod d in
  if 2 * r <? d then q
  else if d <? 2 * r then q + 1
  else if Z.even q then q else q + 1.

(** The binary exponent [e] for which [a / d / 2^e] lies in
    [[2^52, 2^53)], for [a, d > 0]. *)
Definition exponent53 (a d : Z) : Z :=
  let e0 := Z.log2 a - Z.log2 d - 52 in
  if scaled_num a e0 <? 2 ^ 52 * scaled_den d e0 then e0 - 1 else e0.

(** [m * 2^e] as a fraction. *)
Definition ldexpQ (m e : Z) : Q :=
  if 0 <=? e then inject_Z (m * 2 ^ e)
  else Qmake m (Z.to_pos (2 ^ (- e))).

(** Rounding of a rational to the nearest binary64 value (53 significant
    bits, ties to even). *)
Definition round53 (x : Q) : Q :=
  let n := Qnum x in
  let d := Zpos (Qden x) in
  if n =? 0 then 0%Q
  else
    let a := Z.abs n in
    let e := exponent53 a d in
    let m := round_half_even (scaled_num a e) (scaled_den d e) in
    Qred (ldexpQ (Z.sgn n * m) e).

(** [a + b] and [a * b] of JavaScript. *)
Definition add (a b : number) : number :=
  match a, b with
  | Fin x, Fin y => Fin (round53 (x + y))
  | _, _ => NaN
  end.

Definition mul (a b : number) : number :=
  match a, b with
  | Fin x, Fin y => Fin (round53 (x * y))
  | _, _ => NaN
  end.

(** The global [isNaN]. *)
Definition isNaN (a : number) : bool :=
  match a with NaN => true | Fin _ => false end.

(** A JavaScript number holding a database [Int]. *)
Definition ofInt (z : Z) : number := Fin (inject_Z z).

End JsNumber.

Import JsNumber.

Local Open Scope string_scope.
Local Open Scope Z_scope.

(** ** Values read from the database *)

(** A [Prisma.Decimal] (decimal.js): [coeff / 10^places], or its NaN. *)
Inductive Decimal : Type :=
| DecNaN
| Dec (coeff : Z) (places : nat).

(** The JavaScript values that reach the pricing code through a field
    typed [any]. *)
Inductive JsValue : Type :=
| JsUndefined
| JsNull
| JsNum (n : number)
| JsDecimal (d : Decimal).

(** [Number(d)] for a decimal: the nearest binary64 value. *)
Definition Decimal_toNumber (d : Decimal) : number :=
  match d with
  | DecNaN => NaN
  | Dec c p => Fin (round53 (Qmake c (Z.to_pos (10 ^ Z.of_nat p))))
  end.

(** [Number(v)]. *)
Definition Number (v : JsValue) : number :=
  match v with
  | JsUndefined => NaN
  | JsNull => ofInt 0
  | JsNum n => n
  | JsDecimal d => Decimal_toNumber d
  end.

(** Truthiness, as used by [||]: objects are truthy, [0] and [NaN] are not. *)
Definition truthy (v : JsValue) : bool :=
  match v with
  | JsUndefined | JsNull => false
  | JsNum NaN => false
  | JsNum (Fin q) => negb (Qeq_bool q 0)
  | JsDecimal _ => true
  end.

(** [a || b]. *)
Definition js_or (a b : JsValue) : JsValue := if truthy a then a else b.

(** A nullable column [Decimal?] as a JavaScript value. *)
Definition ofNullable (p : option Decimal) : JsValue :=
  match p with
  | None => JsNull
  | Some d => JsDecimal d
  end.

(** ** Tables *)

Record Product : Type := mkProduct {
  product_name : string;
  product_price : option Decimal;     (* MONEY, nullable *)
  product_stockQty : option Z         (* INTEGER, nullable *)
}.

Record CartItem : Type := mkCartItem {
  ci_cartId : string;
  ci_productId : string;
  ci_quantity : Z
}.

Record UserAddress : Type := mkUserAddress {
  address_userId : string
}.

Record OrderItem : Type := mkOrderItem {
  oi_orderId : string;
  oi_productId : string;
  oi_quantity : Z;
  oi_price : option Decimal
}.

Record Order : Type := mkOrder {
  order_id : string;
  order_userId : string;
  order_totalPrice : number;
  order_status : string;
  order_shippingAddressId : string
}.

Record Transaction : Type := mkTransaction {
  tx_noInvoice : string;
  tx_amount : number;
  tx_status : string;
  tx_orderId : string
}.

(** The database.  [products] and [userAddresses] are keyed by their
    primary key [id], [carts] by the unique column [userId] (its value is
    the cart's [id]); the other tables are lists of rows, in the order
    in which a query without [orderBy] finds them.  Rows keep the columns
    the services read or write; the primary keys of cart items, order
    items and transactions, which the code never reads, are left out. *)
Record Db : Type := mkDb {
  products : gmap string Product;
  carts : gmap string string;
  cartItems : list CartItem;
  userAddresses : gmap string UserAddress;
  orders : list Order;
  orderItems : list OrderItem;
  transactions : list Transaction
}.

(** ** Exceptions and the transaction monad *)

Inductive Thrown : Type :=
| ThrowObject (code : Z) (error : string) (message : string)
    (* throw { code, error, message } *)
| ThrowError (message : string)
    (* throw new Error(message) *)
| PrismaError (code : string).
    (* PrismaClientKnownRequestError with that code *)

Inductive Result (A : Type) : Type :=
| Ok (a : A)
| Throw (e : Thrown).
Arguments Ok {A} a.
Arguments Throw {A} e.

(** A computation inside a Prisma transaction: reads and writes the
    tables, may throw. *)
Definition Tx (A : Type) : Type := Db → Result A * Db.

#[global] Instance Tx_ret : MRet Tx := λ A a db, (Ok a, db).
#[global] Instance Tx_bind : MBind Tx := λ A B f m db,
  match m db with
  | (Ok a, db') => f a db'
  | (Throw e, db') => (Throw e, db')
  end.

Definition throw {A} (e : Thrown) : Tx A := λ db, (Throw e, db).
Definition gets {A} (f : Db → A) : Tx A := λ db, (Ok (f db), db).
Definition modify (f : Db → Db) : Tx unit := λ db, (Ok tt, f db).
Definition lift {A} (r : Result A) : Tx A := λ db, (r, db).

(** Sequential execution of a list of queries. *)
Fixpoint forM_ {A} (f : A → Tx unit) (l : list A) : Tx unit :=
  match l with
  | [] => mret tt
  | x :: l' => _ ← f x; forM_ f l'
  end.

(** [db.$transaction(callback)]: the writes of a callback that throws are
    rolled back. *)
Definition transaction {A} (body : Tx A) : Tx A := λ db,
  match body db with
  | (Ok a, db') => (Ok a, db')
  | (Throw e, _) => (Throw e, db)
  end.

(** A JavaScript [Date], by the local calendar fields that
    [format(today, "yyyyMMdd")] reads. *)
Record Date : Type := mkDate {
  getFullYear : Z;
  getMonth : Z;      (* 0 .. 11 *)
  getDate : Z        (* 1 .. 31 *)
}.

(** What the runtime supplies to one service call: the clock, the random
    pool read by [nanoid], and the identifier Prisma generates ([cuid()])
    for the row the call creates. *)
Record Env : Type := mkEnv {
  env_today : Date;
  env_pool : nat → Z;        (* random bytes, 0 .. 255 *)
  env_cuid : string
}.

(** ** Library functions used by the helpers *)

(** date-fns [addLeadingZeros]: sign, then the digits padded on the left
    with zeros to [targetLength]. *)
Definition addLeadingZeros (number : Z) (targetLength : nat) : string :=
  let digits := pretty (Z.abs number) in
  let output :=
    String.concat "" (replicate (targetLength - String.length digits) "0")
      +:+ digits in
  (if number <? 0 then "-" else "") +:+ output.

(** date-fns [format(date, "yyyyMMdd")]: the tokens [yyyy], [MM], [dd]. *)
Definition format_yyyyMMdd (date : Date) : string :=
  let signedYear := getFullYear date in
  let year := if 0 <? signedYear then signedYear else 1 - signedYear in
  addLeadingZeros year 4
    +:+ addLeadingZeros (getMonth date + 1) 2
    +:+ addLeadingZeros (getDate date) 2.

(** The alphabet of nanoid. *)
Definition urlAlphabet : string :=
  "useandom-26T198340PX75pxJACKVERYMINDBUSHWOLF_GQZbfghjklqvwyzrict".

(** [nanoid(size)]: one character [urlAlphabet[byte & 63]] for each of
    [size] bytes of the random pool. *)
Definition nanoid (pool : nat → Z) (size : nat) : string :=
  String.string_of_list_ascii
    (map (λ i, default Ascii.zero
                 (String.get (Z.to_nat (Z.land (pool i) 63)) urlAlphabet))
         (seq 0 size)).

(** ** The cart helpers *)

(** [generateInvoiceNumber()]. *)
Definition generateInvoiceNumber (env : Env) : string :=
  let today := env_today env in
  let formattedDate := format_yyyyMMdd today in
  let uniqueId := nanoid (env_pool env) 6 in
  "INV-" +:+ formattedDate +:+ "-" +:+ uniqueId.

(** [productStock[id] < quantity]: [undefined] compares false with
    everything, [null] counts as [0]. *)
Definition stock_lt (stock : option (option Z)) (quantity : Z) : bool :=
  match stock with
  | None => false
  | Some None => 0 <? quantity
  | Some (Some s) => s <? quantity
  end.

(** [validateProductStock(cartItems, productStock)]; the items are given
    by their [productId] and [quantity], the object [productStock] by its
    own keys. *)
Definition validateProductStock
    (cartItems : list (string * Z))
    (productStock : gmap string (option Z)) : Result unit :=
  let insufficientStockProducts :=
    List.filter (λ item, stock_lt (productStock !! item.1) item.2) cartItems in
  if 0 <? Z.of_nat (length insufficientStockProducts) then
    let productNames :=
      String.concat ", " (map fst insufficientStockProducts) in
    Throw (ThrowError ("Insufficient stock for product(s): " +:+ productNames))
  else Ok tt.

(** The callback of the [reduce] in [calculateTotalPrice]. *)
Definition calculateTotalPrice_step (products : list (string * JsValue))
    (acc : number) (item : string * Z) : number :=
  let product := List.find (λ p, bool_decide (p.1 = item.1)) products in
  let price :=
    match product with
    | None => JsUndefined      (* product?.price *)
    | Some p => p.2
    end in
  add acc (mul (ofInt item.2) (Number (js_or price (JsNum (ofInt 0))))).

(** [calculateTotalPrice(cartItems, products)]; the products are given by
    their [id] and [price]. *)
Definition calculateTotalPrice
    (cartItems : list (string * Z))
    (products : list (string * JsValue)) : number :=
  foldl (calculateTotalPrice_step products) (ofInt 0) cartItems.

(** ** Prisma queries *)

Definition set_products (f : gmap string Product → gmap string Product)
    (db : Db) : Db :=
  mkDb (f (products db)) (carts db) (cartItems db) (userAddresses db)
       (orders db) (orderItems db) (transactions db).

Definition set_carts (f : gmap string string → gmap string string)
    (db : Db) : Db :=
  mkDb (products db) (f (carts db)) (cartItems db) (userAddresses db)
       (orders db) (orderItems db) (transactions db).

Definition set_cartItems (f : list CartItem → list CartItem) (db : Db) : Db :=
  mkDb (products db) (carts db) (f (cartItems db)) (userAddresses db)
       (orders db) (orderItems db) (transactions db).

Definition set_userAddresses
    (f : gmap string UserAddress → gmap string UserAddress) (db : Db) : Db :=
  mkDb (products db) (carts db) (cartItems db) (f (userAddresses db))
       (orders db) (orderItems db) (transactions db).

Definition set_orders (f : list Order → list Order) (db : Db) : Db :=
  mkDb (products db) (carts db) (cartItems db) (userAddresses db)
       (f (orders db)) (orderItems db) (transactions db).

Definition set_orderItems (f : list OrderItem → list OrderItem) (db : Db) : Db :=
  mkDb (products db) (carts db) (cartItems db) (userAddresses db)
       (orders db) (f (orderItems db)) (transactions db).

Definition set_transactions (f : list Transaction → list Transaction)
    (db : Db) : Db :=
  mkDb (products db) (carts db) (cartItems db) (userAddresses db)
       (orders db) (orderItems db) (f (transactions db)).

(** The row filter [{ cartId }]. *)
Definition in_cart (cartId : string) (ci : CartItem) : bool :=
  bool_decide (ci_cartId ci = cartId).

(** The unique key [productId_cartId]. *)
Definition has_key (cartId productId : string) (ci : CartItem) : bool :=
  bool_decide (ci_cartId ci = cartId) && bool_decide (ci_productId ci = productId).

(** The ids of the carts. *)
Definition cart_ids (db : Db) : list string := (map_to_list (carts db)).*2.

(** [cart.upsert({ where: { userId }, create: { userId }, update: {},
    select: { id: true } })]: the cart of the user, created with a
    generated id when there is none; an id that is already the primary key
    of a cart fails with P2002. *)
Definition cart_upsert (env : Env) (userId : string) : Tx string := λ db,
  match carts db !! userId with
  | Some id => (Ok id, db)
  | None =>
      if bool_decide (env_cuid env ∈ cart_ids db)
      then (Throw (PrismaError "P2002"), db)
      else (Ok (env_cuid env), set_carts (insert userId (env_cuid env)) db)
  end.

(** [product.findUnique({ where: { id } })]. *)
Definition product_findUnique (id : string) : Tx (option Product) :=
  gets (λ db, products db !! id).

(** [cartItem.findFirst({ where: { cart: { userId }, productId } })]. *)
Definition cartItem_findFirst (userId productId : string)
    : Tx (option CartItem) :=
  gets (λ db,
    List.find (λ ci, bool_decide (carts db !! userId = Some (ci_cartId ci))
                     && bool_decide (ci_productId ci = productId))
              (cartItems db)).

(** [cartItem.delete({ where: { productId_cartId } })]: fails with P2025
    when no row has the key. *)
Definition cartItem_delete (cartId productId : string) : Tx unit := λ db,
  if existsb (has_key cartId productId) (cartItems db) then
    (Ok tt,
     set_cartItems (List.filter (λ ci, negb (has_key cartId productId ci))) db)
  else (Throw (PrismaError "P2025"), db).

(** The [update] argument of an upsert: [{ increment: n }] or [{ set: n }]. *)
Inductive QuantityUpdate : Type :=
| Increment (n : Z)
| SetTo (n : Z).

Definition apply_update (u : QuantityUpdate) (old : Z) : Z :=
  match u with
  | Increment n => old + n
  | SetTo n => n
  end.

(** [cartItem.upsert({ where: { productId_cartId }, update: { quantity },
    create: { cartId, productId, quantity }, select: { quantity, product } })].
    The column [quantity] is an INTEGER: this is the query for quantities
    that the column holds ([int4] below).  The failure of the database on
    a value out of that range is not part of the model; the properties
    that follow a quantity into the table ask for [int4]. *)
Definition cartItem_upsert (cartId productId : string)
    (update : QuantityUpdate) (create : Z) : Tx (Z * option Product) := λ db,
  let db' :=
    if existsb (has_key cartId productId) (cartItems db) then
      set_cartItems
        (map (λ ci, if has_key cartId productId ci
                    then mkCartItem cartId productId
                           (apply_update update (ci_quantity ci))
                    else ci)) db
    else set_cartItems (λ l, (l ++ [mkCartItem cartId productId create])%list) db in
  match List.find (has_key cartId productId) (cartItems db') with
  | Some ci => (Ok (ci_quantity ci, products db' !! productId), db')
  | None => (Throw (PrismaError "P2025"), db')
  end.

(** [include: { product: true }] on a cart item. *)
Definition attach (db : Db) (ci : CartItem) : option (CartItem * Product) :=
  (λ p, (ci, p)) <$> products db !! ci_productId ci.

(** [cart.findUnique({ where: { userId },
    include: { cartItems: { include: { product: true } } } })].  The
    relation [product] is required: a row without its product is an
    inconsistent query result. *)
Definition cart_findUnique_withItems (userId : string)
    : Tx (option (string * list (CartItem * Product))) := λ db,
  match carts db !! userId with
  | None => (Ok None, db)
  | Some id =>
      match mapM (attach db) (List.filter (in_cart id) (cartItems db)) with
      | Some items => (Ok (Some (id, items)), db)
      | None => (Throw (PrismaError "InconsistentQueryResult"), db)
      end
  end.

(** [userAddress.count({ where: { id } })]. *)
Definition userAddress_count (id : string) : Tx Z :=
  gets (λ db, match userAddresses db !! id with Some _ => 1 | None => 0 end).

(** The products whose id is in [productIds], each once. *)
Definition found (db : Db) (productIds : list string)
    : list (string * Product) :=
  List.filter (λ p, bool_decide (p.1 ∈ productIds))
              (map_to_list (products db)).

(** [product.findMany({ where: { id: { in: productIds } } })]. *)
Definition product_findMany (productIds : list string)
    : Tx (list (string * Product)) :=
  gets (λ db, found db productIds).

(** The fields [productId] and [quantity] of a cart item. *)
Definition row (ci : CartItem) : string * Z :=
  (ci_productId ci, ci_quantity ci).

(** [cartItem.findMany({ where: { cartId },
    select: { productId: true, quantity: true } })]. *)
Definition cartItem_findMany (cartId : string) : Tx (list (string * Z)) :=
  gets (λ db, map row (List.filter (in_cart cartId) (cartItems db))).

(** [order.create({ data: { ..., orderItems: { create: [...] } } })]: the
    order and its items are stored as given; an id that is already the
    primary key of an order fails with P2002.  The row keeps the number
    given as [totalPrice].  The column is a decimal of the database: it
    holds a whole number as it is, and what it makes of another number is
    the affair of its type, which the model does not follow; the
    properties that read a stored total are stated for whole amounts. *)
Definition order_create (order : Order) (items : list OrderItem) : Tx Order :=
  λ db,
  if existsb (λ o, bool_decide (order_id o = order_id order)) (orders db)
  then (Throw (PrismaError "P2002"), db)
  else (Ok order,
        set_orderItems (λ l, (l ++ items)%list)
          (set_orders (λ l, (l ++ [order])%list) db)).

(** [transaction.create({ data })]: [noInvoice] is unique, a second row
    with the same number fails with P2002.  As for the total of an order,
    the row keeps the number given as [amount], which is what the column
    holds when the amount is whole. *)
Definition transaction_create (t : Transaction) : Tx Transaction := λ db,
  if existsb (λ t', bool_decide (tx_noInvoice t' = tx_noInvoice t))
             (transactions db)
  then (Throw (PrismaError "P2002"), db)
  else (Ok t, set_transactions (λ l, (l ++ [t])%list) db).

(** [stockQty: { decrement: quantity }] on a row; a null stock stays
    null. *)
Definition decrement (quantity : Z) (p : Product) : Product :=
  mkProduct (product_name p) (product_price p)
            ((λ s, s - quantity) <$> product_stockQty p).

(** [product.update({ where: { id }, data: { stockQty: { decrement } } })]:
    fails with P2025 when the product does not exist. *)
Definition product_update_decrement (id : string) (quantity : Z) : Tx unit :=
  λ db,
  match products db !! id with
  | None => (Throw (PrismaError "P2025"), db)
  | Some p => (Ok tt, set_products (insert id (decrement quantity p)) db)
  end.

(** [cartItem.deleteMany({ where: { cartId } })]. *)
Definition cartItem_deleteMany (cartId : string) : Tx unit :=
  modify (set_cartItems (List.filter (λ ci, negb (in_cart cartId ci)))).

(** ** The cart service *)

(** The [orderBy: { product: { name: "asc" } }] of [getCart].  The
    database compares the names under its collation; the model compares
    them byte-wise, the order of the collation C.  The properties below
    do not rely on the byte order. *)
Definition by_product_name : relation (Z * Product) :=
  λ a b, String.le (product_name a.2) (product_name b.2).

#[global] Instance by_product_name_dec : RelDecision by_product_name :=
  λ a b, String.le_dec (product_name a.2) (product_name b.2).

(** The [select] of the upsert query of [getCart]: the items of the
    cart, each with its product, by product name. *)
Definition cart_selectItems (id : string) : Tx (list (Z * Product)) := λ db,
  match mapM (λ ci, (λ p, (ci_quantity ci, p)) <$> products db !! ci_productId ci)
             (List.filter (in_cart id) (cartItems db)) with
  | Some items => (Ok (merge_sort by_product_name items), db)
  | None => (Throw (PrismaError "InconsistentQueryResult"), db)
  end.

(** The upsert query of [getCart]: the user's cart is created when it does
    not exist. *)
Definition cart_upsert_selectItems (env : Env) (userId : string)
    : Tx (list (Z * Product)) :=
  id ← cart_upsert env userId;
  cart_selectItems id.

(** The callback of the [reduce] in [getCart]; a callback that has thrown
    ends the reduction. *)
Definition getCart_total_step (acc : Result number) (item : Z * Product)
    : Result number :=
  match acc with
  | Throw e => Throw e
  | Ok acc =>
      let price := Number (ofNullable (product_price item.2)) in
      if isNaN price then Throw (ThrowError "Invalid product price")
      else Ok (add acc (mul (ofInt item.1) price))
  end.

(** The total of [getCart]: [result?.cartItems.reduce(...)]. *)
Definition getCart_total (cartItems : list (Z * Product)) : Result number :=
  foldl getCart_total_step (Ok (ofInt 0)) cartItems.

(** [getCart(userId)]. *)
Definition getCart (env : Env) (userId : string)
    : Tx (list (Z * Product) * number) :=
  result ← transaction (cart_upsert_selectItems env userId);
  total ← lift (getCart_total result);
  mret (result, total).

(** The value [addOrUpdateCartItem] resolves to: [{ message, data? }]. *)
Record CartItemResponse : Type := mkCartItemResponse {
  message : string;
  data : option (Z * option Product)
}.

(** [newQuantity > availableStock], where a null stock counts as [0]. *)
Definition exceeds (newQuantity : Z) (availableStock : option Z) : bool :=
  match availableStock with
  | None => 0 <? newQuantity
  | Some s => s <? newQuantity
  end.

(** [`${availableStock}`]. *)
Definition show_stock (availableStock : option Z) : string :=
  match availableStock with
  | None => "null"
  | Some s => pretty s
  end.

(** The callback of [addOrUpdateCartItem]. *)
Definition addOrUpdateCartItem_body (env : Env) (userId productId : string)
    (quantity : Z) (isIncrement : bool) : Tx CartItemResponse :=
  cart ← cart_upsert env userId;
  product ← product_findUnique productId;
  cartItem ← cartItem_findFirst userId productId;
  match product with
  | None => throw (ThrowObject 404 "PRODUCT_NOT_FOUND" "Product not found")
  | Some product =>
      let availableStock := product_stockQty product in
      let newQuantity :=
        if isIncrement
        then default 0 (ci_quantity <$> cartItem) + quantity
        else quantity in
      if exceeds newQuantity availableStock then
        throw (ThrowObject 400 "INVALID_QUANTITY"
                 ("Product " +:+ product_name product +:+ " has only "
                    +:+ show_stock availableStock +:+ " available stock!"))
      else if negb isIncrement && (newQuantity =? 0) then
        match cartItem with
        | None =>
            throw (ThrowObject 404 "CART_ITEM_NOT_FOUND" "Cart item not found!")
        | Some _ =>
            _ ← cartItem_delete cart productId;
            mret (mkCartItemResponse
                    ("Successfully removed product " +:+ product_name product
                       +:+ " from cart!")
                    None)
        end
      else
        updatedCartItem ←
          cartItem_upsert cart productId
            (if isIncrement then Increment quantity else SetTo newQuantity)
            quantity;
        mret (mkCartItemResponse
                (match cartItem with
                 | Some _ => "Successfully updated cart item!"
                 | None => "Successfully added product to cart!"
                 end)
                (Some updatedCartItem))
  end.

(** [addOrUpdateCartItem(userId, productId, quantity, isIncrement)]. *)
Definition addOrUpdateCartItem (env : Env) (userId productId : string)
    (quantity : Z) (isIncrement : bool) : Tx CartItemResponse :=
  transaction (addOrUpdateCartItem_body env userId productId quantity isIncrement).

(** The stock mapping built by [products.reduce].  The plain object of
    the code is a finite map as long as no key is a property name of
    [Object.prototype] ([Object_prototype_keys] below), which holds of
    the ids generated for the products. *)
Definition productStock_of (products : list (string * Product))
    : gmap string (option Z) :=
  foldl (λ acc product, <[product.1 := product_stockQty product.2]> acc)
        ∅ products.

(** The quantities per product built by [cart.cartItems.reduce]; the
    plain object is a finite map under the same condition on the keys,
    and [acc[id] || 0] is then the entry or 0. *)
Definition decrementStock_of (cartItems : list (CartItem * Product))
    : gmap string Z :=
  foldl (λ acc item,
           <[ci_productId item.1 :=
               default 0 (acc !! ci_productId item.1) + ci_quantity item.1]> acc)
        ∅ cartItems.

(** The callback of [checkout].  [Promise.all] starts the creation of the
    transaction row first and the stock updates after it; the updates
    touch one product each, in the order of [Object.entries], which is
    here the order of the keys of the map.  The amount of the transaction
    is [Number(order.totalPrice)], the total as the order holds it. *)
Definition checkout_body (env : Env) (userId shippingAddressId : string)
    : Tx (Order * list OrderItem * Transaction) :=
  cart ← cart_findUnique_withItems userId;
  match cart with
  | None => throw (ThrowError "Cart is empty")
  | Some (cart_id, cart_cartItems) =>
      if Z.of_nat (length cart_cartItems) =? 0 then
        throw (ThrowError "Cart is empty")
      else
        shippingAddress ← userAddress_count shippingAddressId;
        if shippingAddress =? 0 then
          throw (ThrowError "Shipping address not found")
        else
          let productIds := map (λ item, ci_productId item.1) cart_cartItems in
          products ← product_findMany productIds;
          cartItems ← cartItem_findMany cart_id;
          let productStock := productStock_of products in
          _ ← lift (validateProductStock cartItems productStock);
          let totalPrice :=
            calculateTotalPrice
              (map (λ item, row item.1) cart_cartItems)
              (map (λ p, (p.1, ofNullable (product_price p.2))) products) in
          let orderItems :=
            map (λ item, mkOrderItem (env_cuid env) (ci_productId item.1)
                           (ci_quantity item.1) (product_price item.2))
                cart_cartItems in
          order ←
            order_create
              (mkOrder (env_cuid env) userId totalPrice "pending"
                       shippingAddressId)
              orderItems;
          let decrementStock := decrementStock_of cart_cartItems in
          let invoiceNumber := generateInvoiceNumber env in
          transaction ←
            transaction_create
              (mkTransaction invoiceNumber (order_totalPrice order) "Pending"
                             (order_id order));
          _ ← forM_ (λ entry, product_update_decrement entry.1 entry.2)
                    (map_to_list decrementStock);
          _ ← cartItem_deleteMany cart_id;
          mret (order, orderItems, transaction)
  end.

(** [checkout(userId, shippingAddressId)]. *)
Definition checkout (env : Env) (userId shippingAddressId : string)
    : Tx (Order * list OrderItem * Transaction) :=
  transaction (checkout_body env userId shippingAddressId).

(** ** Notions used to state the properties *)

(** [Number.MAX_SAFE_INTEGER]. *)
Definition MAX_SAFE_INTEGER : Z := 2 ^ 53 - 1.

(** The exact total of lines given as (price, quantity), and the sum of
    the magnitudes of the line amounts. *)
Definition exact_total (lines : list (Z * Z)) : Z :=
  foldr (λ line s, line.1 * line.2 + s) 0 lines.

Definition magnitude (lines : list (Z * Z)) : Z :=
  foldr (λ line s, Z.abs (line.1 * line.2) + s) 0 lines.

(** Prices and amounts that binary64 holds exactly. *)
Definition safe (lines : list (Z * Z)) : Prop :=
  Forall (λ line, Z.abs line.1 ≤ MAX_SAFE_INTEGER) lines
  ∧ magnitude lines ≤ MAX_SAFE_INTEGER.

(** The cart items handed to [calculateTotalPrice] have the quantities of
    [lines], and their products are found with the integer prices of
    [lines]. *)
Definition priced_by (products : list (string * JsValue))
    (cartItems : list (string * Z)) (lines : list (Z * Z)) : Prop :=
  Forall2 (λ item line,
             item.2 = line.2
             ∧ ∃ p, List.find (λ p, bool_decide (p.1 = item.1)) products = Some p
                    ∧ p.2 = JsDecimal (Dec line.1 0))
          cartItems lines.

(** The same for the rows of [getCart]. *)
Definition cart_priced_by (cartItems : list (Z * Product))
    (lines : list (Z * Z)) : Prop :=
  Forall2 (λ item line,
             item.1 = line.2 ∧ product_price item.2 = Some (Dec line.1 0))
          cartItems lines.

(** The product of [item] is missing from [products], or its price is
    [null] or [undefined]. *)
Definition absent_price (products : list (string * JsValue))
    (item : string * Z) : Prop :=
  match List.find (λ p, bool_decide (p.1 = item.1)) products with
  | None => True
  | Some p => p.2 = JsNull ∨ p.2 = JsUndefined
  end.

(** The rows of the cart [cartId]. *)
Definition itemsOf (db : Db) (cartId : string) : list CartItem :=
  List.filter (in_cart cartId) (cartItems db).

(** Referential integrity of [cart_items.productId]: the product of every
    cart item exists. *)
Definition products_exist (db : Db) : Prop :=
  ∀ ci, ci ∈ cartItems db → is_Some (products db !! ci_productId ci).

(** The stock available of a product, a null stock counting as 0. *)
Definition available (p : Product) : Z := default 0 (product_stockQty p).

(** The cart item asks for more than the available stock of its product. *)
Definition insufficient (db : Db) (ci : CartItem) : bool :=
  match products db !! ci_productId ci with
  | Some p => available p <? ci_quantity ci
  | None => false
  end.

(** The price of a product as stored, if the product exists and has one. *)
Definition price_of (db : Db) (productId : string) : option Decimal :=
  products db !! productId ≫= product_price.

(** Quantity times price of a cart item, in JavaScript numbers; a product
    without a price counts 0. *)
Definition lineAmount (db : Db) (ci : CartItem) : number :=
  mul (ofInt (ci_quantity ci))
      (match price_of db (ci_productId ci) with
       | Some d => Decimal_toNumber d
       | None => ofInt 0
       end).

(** The sum of the line amounts, from 0, in the order of the rows. *)
Definition order_total (db : Db) (items : list CartItem) : number :=
  foldl (λ acc ci, add acc (lineAmount db ci)) (ofInt 0) items.

(** The order item of a cart item: same product and quantity, the price
    of the product now. *)
Definition orderItem_of (env : Env) (db : Db) (ci : CartItem) : OrderItem :=
  mkOrderItem (env_cuid env) (ci_productId ci) (ci_quantity ci)
              (price_of db (ci_productId ci)).

(** The quantity of a product ordered by a list of cart items. *)
Definition quantity_in (productId : string) (items : list CartItem) : Z :=
  foldr (λ ci s,
           if bool_decide (ci_productId ci = productId)
           then ci_quantity ci + s else s)
        0 items.

(** The values of an INTEGER column (a Prisma [Int]). *)
Definition int4 (z : Z) : Prop := - 2 ^ 31 ≤ z ≤ 2 ^ 31 - 1.

(** The property names of [Object.prototype].  On a plain object used as
    a map they are not ordinary keys: an assignment to ["__proto__"]
    stores no entry, and reading one of them from an object without such
    an entry gives what is inherited, not [undefined]. *)
Definition Object_prototype_keys : list string :=
  ["constructor"; "hasOwnProperty"; "isPrototypeOf"; "propertyIsEnumerable";
   "toLocaleString"; "toString"; "valueOf"; "__proto__";
   "__defineGetter__"; "__defineSetter__"; "__lookupGetter__";
   "__lookupSetter__"].

(** The products of the cart items have ids as the database generates
    them (cuids, as [productIdSchema] has it: 25 characters): none is a
    property name of [Object.prototype]. *)
Definition generated_ids (items : list CartItem) : Prop :=
  ∀ ci, ci ∈ items → ci_productId ci ∉ Object_prototype_keys.

(** The products of the cart items have a price. *)
Definition priced (db : Db) (items : list CartItem) : Prop :=
  ∀ ci, ci ∈ items → is_Some (price_of db (ci_productId ci)).

(** The invoice number generated in [env] is not taken. *)
Definition invoice_unused (env : Env) (db : Db) : Prop :=
  ∀ t, t ∈ transactions db → tx_noInvoice t ≠ generateInvoiceNumber env.

(** The identifier generated in [env] is new: no cart and no order has
    it, no cart item refers to it. *)
Definition cuid_fresh (env : Env) (db : Db) : Prop :=
  (env_cuid env ∉ cart_ids db)
  ∧ (∀ ci, ci ∈ cartItems db → ci_cartId ci ≠ env_cuid env)
  ∧ (∀ o, o ∈ orders db → order_id o ≠ env_cuid env).

(** The cart items of [cartId] that ask for more than is available. *)
Definition offending (db : Db) (cartId : string) : list CartItem :=
  List.filter (insufficient db) (itemsOf db cartId).

(** The database after a successful checkout. *)
Definition checked_out (env : Env) (userId shippingAddressId cartId : string)
    (m' : gmap string Product) (db : Db) : Db :=
  let items := itemsOf db cartId in
  let total := order_total db items in
  mkDb m' (carts db)
       (List.filter (λ ci, negb (in_cart cartId ci)) (cartItems db))
       (userAddresses db)
       (orders db
          ++ [mkOrder (env_cuid env) userId total "pending" shippingAddressId])
       (orderItems db ++ map (orderItem_of env db) items)
       (transactions db
          ++ [mkTransaction (generateInvoiceNumber env) total "Pending"
                (env_cuid env)]).

(** Every exception [m] can throw satisfies [P]. *)
Definition throws_only {A} (P : Thrown → Prop) (m : Tx A) : Prop :=
  ∀ db e db', m db = (Throw e, db') → P e.

(** [m] neither reads nor writes the table of addresses. *)
Definition ignores_addresses {A} (m : Tx A) : Prop :=
  ∀ (g : gmap string UserAddress → gmap string UserAddress) (db : Db),
    m (set_userAddresses g db) = ((m db).1, set_userAddresses g (m db).2).

(** The row of the user's cart for a product, if there is one. *)
Definition cartItemOf (db : Db) (userId productId : string)
    : option CartItem :=
  carts db !! userId
    ≫= λ cartId, List.find (has_key cartId productId) (cartItems db).

(** The quantity of that row, 0 without a row. *)
Definition existingQuantity (db : Db) (userId productId : string) : Z :=
  default 0 (ci_quantity <$> cartItemOf db userId productId).

(** The quantity asked for in total: added to the existing one when
    incrementing, as given when setting. *)
Definition newQuantity_of (db : Db) (userId productId : string)
    (quantity : Z) (isIncrement : bool) : Z :=
  if isIncrement then existingQuantity db userId productId + quantity
  else quantity.

(** Character classes of the invoice number. *)
Definition is_digit (c : Ascii.ascii) : bool :=
  let n := Z.of_N (Ascii.N_of_ascii c) in (48 <=? n) && (n <=? 57).

Definition is_letter (c : Ascii.ascii) : bool :=
  let n := Z.of_N (Ascii.N_of_ascii c) in
  ((65 <=? n) && (n <=? 90)) || ((97 <=? n) && (n <=? 122)).

Definition is_alphanumeric (c : Ascii.ascii) : bool :=
  is_digit c || is_letter c.

(** The characters of nanoid: letters, digits, underscore and hyphen. *)
Definition is_url_safe (c : Ascii.ascii) : bool :=
  is_alphanumeric c
  || bool_decide (c = "_"%char) || bool_decide (c = "-"%char).

(** The last decimal digit of [n], as a character. *)
Definition digit_char (n : Z) : Ascii.ascii :=
  Ascii.ascii_of_N (Z.to_N (48 + n mod 10)).

(** The eight digits of a calendar date: year, month (1 .. 12), day. *)
Definition YYYYMMDD (year month day : Z) : string :=
  String.string_of_list_ascii
    [digit_char (year / 1000); digit_char (year / 100);
     digit_char (year / 10); digit_char year;
     digit_char (month / 10); digit_char month;
     digit_char (day / 10); digit_char day].

(** ** A small shop, for the examples *)

Module Example.

Definition arabica : Product :=
  mkProduct "Arabica" (Some (Dec 45000 0)) (Some 5).
Definition robusta : Product :=
  mkProduct "Robusta" (Some (Dec 30000 0)) (Some 1).
(** A product whose price was never set. *)
Definition gayo : Product := mkProduct "Gayo" None (Some 4).

(** Two users: [u1] holds two Arabica and one Robusta, [u2] holds two
    Gayo; each has one address. *)
Definition db : Db :=
  mkDb (<["p1" := arabica]> (<["p2" := robusta]> (<["p3" := gayo]> ∅)))
       (<["u1" := "c1"]> (<["u2" := "c2"]> ∅))
       [mkCartItem "c1" "p1" 2; mkCartItem "c1" "p2" 1;
        mkCartItem "c2" "p3" 2]
       (<["a1" := mkUserAddress "u1"]> (<["a2" := mkUserAddress "u2"]> ∅))
       [] [] [].

(** 13 December 2024; every random byte is 8; the next generated id. *)
Definition env : Env := mkEnv (mkDate 2024 11 13) (λ _, 8) "id1".

(** The same shop after an earlier order whose invoice number is the one
    [env] generates. *)
Definition taken : Db :=
  set_transactions
    (λ _, [mkTransaction "INV-20241213-------" (ofInt 45000) "Pending" "id0"])
    (set_orders (λ _, [mkOrder "id0" "u2" (ofInt 45000) "pending" "a2"]) db).

(** The same shop where [u1] asks for seven Arabica (stock 5), one Gayo
    (stock 4) and three Robusta (stock 1). *)
Definition greedy : Db :=
  set_cartItems
    (λ _, [mkCartItem "c1" "p1" 7; mkCartItem "c1" "p3" 1;
           mkCartItem "c1" "p2" 3])
    db.

(** A shop of large amounts: three Luwak at 30000000000000.31 each in the
    cart of [u4], three Geisha at 3002399751580331 each in the cart of
    [u5]; there are five of each, and each user has an address. *)
Definition luwak : Product :=
  mkProduct "Luwak" (Some (Dec 3000000000000031 2)) (Some 5).
Definition geisha : Product :=
  mkProduct "Geisha" (Some (Dec 3002399751580331 0)) (Some 5).

Definition wholesale : Db :=
  mkDb (<["p4" := luwak]> (<["p5" := geisha]> ∅))
       (<["u4" := "c4"]> (<["u5" := "c5"]> ∅))
       [mkCartItem "c4" "p4" 3; mkCartItem "c5" "p5" 3]
       (<["a4" := mkUserAddress "u4"]> (<["a5" := mkUserAddress "u5"]> ∅))
       [] [] [].

(** The first shop with one more product, a draft whose stock was never
    set. *)
Definition sumatra : Product :=
  mkProduct "Sumatra" (Some (Dec 52000 0)) None.

Definition drafts : Db := set_products (insert "p6" sumatra) db.

End Example.

(** ** Removing a cart item by its product *)

(** [cartItem.findFirst({ where: { productId, cart: { userId } },
    select: { id: true, cartId: true } })].  The primary key [id] of a
    cart item is not a column of [CartItem]; a row is identified by its
    position in the table, which is what the query returns here. *)
Definition cartItem_findFirst_id (userId productId : string)
    : Tx (option nat) :=
  gets (λ db,
    fst <$> list_find (λ ci, ci_productId ci = productId
                             ∧ carts db !! userId = Some (ci_cartId ci))
                      (cartItems db)).

(** [cartItem.delete({ where: { id } })]: the row is deleted and
    returned; fails with P2025 when there is no such row. *)
Definition cartItem_delete_id (id : nat) : Tx CartItem := λ db,
  match cartItems db !! id with
  | Some ci => (Ok ci, set_cartItems (delete id) db)
  | None => (Throw (PrismaError "P2025"), db)
  end.

(** [deleteCartItem(userId, productId)]; the two queries run outside of
    a transaction. *)
Definition deleteCartItem (userId productId : string) : Tx CartItem :=
  cartItem ← cartItem_findFirst_id userId productId;
  match cartItem with
  | None => throw (ThrowError "Cart item not found.")
  | Some id => cartItem_delete_id id
  end.

(** ** Responses and the handlers of the cart routes *)

(** The [status] that a handler gives to [c.json].  On the error path it
    is the [code] of what was caught: a number when a service threw the
    object, a string when the Prisma client threw. *)
Inductive Status : Type :=
| StatusCode (code : Z)
| StatusText (code : string).

(** The JSON bodies [{ success: true, message, data? }] and
    [{ success: false, error, message }]. *)
Inductive Body (A : Type) : Type :=
| Success (message : string) (data : option A)
| Failure (error : string) (message : string).
Arguments Success {A} message data.
Arguments Failure {A} error message.

(** The arguments of [c.json]. *)
Record Response (A : Type) : Type := mkResponse {
  response_body : Body A;
  response_status : Status
}.
Arguments mkResponse {A} response_body response_status.
Arguments response_body {A} r.
Arguments response_status {A} r.

(** [a || b] where [a] is a string or undefined: the empty string is
    falsy. *)
Definition string_or (a : option string) (b : string) : string :=
  match a with
  | None | Some "" => b
  | Some s => s
  end.

(** [code || b] where [code] is a number, a string or undefined. *)
Definition status_or (code : option Status) (b : Z) : Status :=
  match code with
  | None | Some (StatusCode 0) | Some (StatusText "") => StatusCode b
  | Some s => s
  end.

(** [responseSuccess(c, message, data?, code = 200)]. *)
Definition responseSuccess {A} (message : string) (data : option A)
    (code : option Z) : Response A :=
  mkResponse (Success message data) (StatusCode (default 200 code)).

(** [respondError(c, error, message?, code?)]. *)
Definition respondError {A} (error message : option string)
    (code : option Status) : Response A :=
  mkResponse
    (Failure (string_or error "UNKNOWN_ERROR")
             (string_or message "An unknown error occurred!"))
    (status_or code 500).

(** The properties [error], [message] and [code] of a caught value, as
    far as they are defined. *)
Record Caught : Type := mkCaught {
  caught_error : option string;
  caught_message : option string;
  caught_code : option Status
}.

Section routes.

(** The text of the [message] of the error that the Prisma client throws
    for a code is the client's affair. *)
Context (prismaMessage : string → string).

Definition caught (e : Thrown) : Caught :=
  match e with
  | ThrowObject code error message =>
      mkCaught (Some error) (Some message) (Some (StatusCode code))
  | ThrowError message => mkCaught None (Some message) None
  | PrismaError code =>
      mkCaught None (Some (prismaMessage code)) (Some (StatusText code))
  end.

(** The catch clause of the handlers:
    [respondError(c, error?.error, error?.message || fallback, error?.code)]. *)
Definition catch {A} (e : Thrown) (fallback : string) : Response A :=
  let error := caught e in
  respondError (caught_error error)
               (Some (string_or (caught_message error) fallback))
               (caught_code error).

(** A handler, once the middleware has put the [userId] in the context
    and the request has passed its schema. *)
Definition Handler (A : Type) : Type := Db → Response A * Db.

(** [GET /cart]. *)
Definition cartRoute_get (env : Env) (userId : string)
    : Handler (list (Z * Product) * number) := λ db,
  match getCart env userId db with
  | (Ok cart, db') =>
      (responseSuccess "Success to get cart!" (Some cart) (Some 200), db')
  | (Throw error, db') => (catch error "Failed to get cart!", db')
  end.

(** [POST /cart/item]: the quantity is added. *)
Definition cartRoute_post_item (env : Env) (userId productId : string)
    (quantity : Z) : Handler (Z * option Product) := λ db,
  match addOrUpdateCartItem env userId productId quantity true db with
  | (Ok cartItem, db') =>
      (responseSuccess
         (string_or (Some (message cartItem)) "Success to add item to cart!")
         (data cartItem) (Some 201),
       db')
  | (Throw error, db') => (catch error "Failed to add item to cart!", db')
  end.

(** [PATCH /cart/item/{productId}]: the quantity is set. *)
Definition cartRoute_patch_item (env : Env) (userId productId : string)
    (quantity : Z) : Handler (Z * option Product) := λ db,
  match addOrUpdateCartItem env userId productId quantity false db with
  | (Ok cartItem, db') =>
      (responseSuccess
         (string_or (Some (message cartItem)) "Success to add item to cart!")
         (data cartItem) (Some 200),
       db')
  | (Throw error, db') => (catch error "Failed to update cart item!", db')
  end.

(** [DELETE /cart/item/{productId}]. *)
Definition cartRoute_delete_item (userId productId : string)
    : Handler unit := λ db,
  match deleteCartItem userId productId db with
  | (Ok _, db') =>
      (responseSuccess "Success to delete cart item!" None None, db')
  | (Throw error, db') => (catch error "Failed to delete cart item!", db')
  end.

(** [POST /cart/checkout]. *)
Definition cartRoute_post_checkout (env : Env)
    (userId shippingAddressId : string)
    : Handler (Order * list OrderItem * Transaction) := λ db,
  match checkout env userId shippingAddressId db with
  | (Ok order, db') =>
      (responseSuccess "Success to checkout cart!" (Some order) (Some 200), db')
  | (Throw error, db') => (catch error "Failed to checkout cart!", db')
  end.

End routes.

(** The response is an error response. *)
Definition is_failure {A} (r : Response A) : bool :=
  match response_body r with
  | Failure _ _ => true
  | Success _ _ => false
  end.

(** ** Slugs (the product helper and [slugify]) *)

(** A JavaScript string, by its UTF-16 code units; [js] is the string of
    an ASCII text. *)
Definition JsString : Type := list N.

Definition js (s : string) : JsString :=
  map Ascii.N_of_ascii (String.list_ascii_of_string s).

Module Slug.

Local Open Scope N_scope.

(** White space and line terminators: what [trim] strips and what [\s]
    matches. *)
Definition isWhiteSpace (c : N) : bool :=
  bool_decide (c ∈ [9; 10; 11; 12; 13; 32; 160; 5760; 8232; 8233; 8239;
                    8287; 12288; 65279])
  || ((8192 <=? c) && (c <=? 8202)).

(** The class [[\u0300-\u036f]] of combining marks. *)
Definition isCombiningMark (c : N) : bool := (768 <=? c) && (c <=? 879).

(** The class [[a-z0-9-]]. *)
Definition isSlugChar (c : N) : bool :=
  ((97 <=? c) && (c <=? 122)) || ((48 <=? c) && (c <=? 57)) || (c =? 45).

Definition isDash (c : N) : bool := c =? 45.

(** The longest suffix that does not start with a character of the
    class, and the longest prefix that does not end with one. *)
Fixpoint dropWhile (f : N → bool) (s : JsString) : JsString :=
  match s with
  | [] => []
  | c :: s' => if f c then dropWhile f s' else s
  end.

Fixpoint dropWhileEnd (f : N → bool) (s : JsString) : JsString :=
  match s with
  | [] => []
  | c :: s' =>
      match dropWhileEnd f s' with
      | [] => if f c then [] else [c]
      | rest => c :: rest
      end
  end.

(** [String.prototype.trim]. *)
Definition trim (s : JsString) : JsString :=
  dropWhileEnd isWhiteSpace (dropWhile isWhiteSpace s).

(** [replace(/x/g, text)] for a single character [x]. *)
Definition replaceChar (x : N) (text : JsString) (s : JsString) : JsString :=
  flat_map (λ c, if c =? x then text else [c]) s.

(** [replace(/-+/g, "-")]: of a run of dashes the last one stays. *)
Fixpoint squeezeDashes (s : JsString) : JsString :=
  match s with
  | [] => []
  | c :: s' =>
      if isDash c && match s' with c' :: _ => isDash c' | [] => false end
      then squeezeDashes s'
      else c :: squeezeDashes s'
  end.

Section slugify.

(** [toLowerCase] and [normalize("NFD")] are the case mapping and the
    canonical decomposition of Unicode, which the engine brings along. *)
Context (toLowerCase normalizeNFD : JsString → JsString).

(** [slugify(name)]. *)
Definition slugify (name : JsString) : JsString :=
  let s := trim name in
  let s := toLowerCase s in
  let s := normalizeNFD s in
  let s := List.filter (λ c, negb (isCombiningMark c)) s in
  let s := replaceChar 38 (js "and") s in
  let s := replaceChar 35 (js "number") s in
  let s := map (λ c, if isWhiteSpace c || (c =? 37) || (c =? 43)
                     then 45 else c) s in
  let s := List.filter isSlugChar s in
  let s := squeezeDashes s in
  dropWhileEnd isDash (dropWhile isDash s).

(** [`${baseSlug}-${count}`]. *)
Definition numbered (baseSlug : JsString) (count : nat) : JsString :=
  (baseSlug ++ js "-" ++ js (pretty count))%list.

(** The [while] loop of [generateSlug], for at most [fuel] tests of its
    condition. *)
Fixpoint generateSlug_while (fuel : nat) (existingSlugs : list JsString)
    (baseSlug uniqueSlug : JsString) (count : nat) : option JsString :=
  match fuel with
  | O => None
  | S fuel =>
      if bool_decide (uniqueSlug ∈ existingSlugs)
      then generateSlug_while fuel existingSlugs baseSlug
             (numbered baseSlug count) (count + 1)%nat
      else Some uniqueSlug
  end.

(** [generateSlug(name, slug)], given the slugs of the products in the
    database: [findMany] selects those that start with the base slug. *)
Definition generateSlug (fuel : nat) (slugs : list JsString)
    (name : JsString) (slug : option JsString) : option JsString :=
  let baseSlug :=
    match slug with
    | Some (c :: s) => slugify (c :: s)
    | _ => slugify name
    end in
  let similarSlugs :=
    List.filter (λ s, bool_decide (baseSlug `prefix_of` s)) slugs in
  let existingSlugs := similarSlugs in
  if negb (bool_decide (baseSlug ∈ existingSlugs)) then Some baseSlug
  else generateSlug_while fuel existingSlugs baseSlug baseSlug 1.

End slugify.

(** No two dashes in a row. *)
Fixpoint noDoubleDash (s : JsString) : bool :=
  match s with
  | c :: s' =>
      negb (isDash c && match s' with c' :: _ => isDash c' | [] => false end)
      && noDoubleDash s'
  | [] => true
  end.

(** The shape of a slug: characters of [[a-z0-9-]], no dash at either
    end, no two dashes in a row. *)
Definition isSlug (s : JsString) : bool :=
  forallb isSlugChar s
  && negb (bool_decide (head s = Some 45))
  && negb (bool_decide (last s = Some 45))
  && noDoubleDash s.

(** [toLowerCase] on ASCII text. *)
Definition asciiLowerCase (s : JsString) : JsString :=
  map (λ c, if (65 <=? c) && (c <=? 90) then c + 32 else c) s.

End Slug.

(** ** Notions used to state further properties *)

(** The unique index [productId_cartId] of the cart items. *)
Definition key (ci : CartItem) : string * string :=
  (ci_cartId ci, ci_productId ci).

Definition unique_keys (db : Db) : Prop := NoDup (map key (cartItems db)).

(** No product has a negative stock. *)
Definition stock_nonneg (db : Db) : Prop :=
  ∀ id p s, products db !! id = Some p → product_stockQty p = Some s → 0 ≤ s.

(** Every cart item has a positive quantity. *)
Definition quantities_positive (db : Db) : Prop :=
  Forall (λ ci, 0 < ci_quantity ci) (cartItems db).

(** A property of the table of cart items, as a property of the
    database. *)
Definition on_cartItems (J : list CartItem → Prop) : Db → Prop :=
  λ db, J (cartItems db).

(** [m] keeps the invariant [I] however it ends. *)
Definition keeps {A} (I : Db → Prop) (m : Tx A) : Prop :=
  ∀ db r db', I db → m db = (r, db') → I db'.

(** The tables a cart edit has no business with. *)
Definition same_shop (db0 db : Db) : Prop :=
  products db = products db0
  ∧ userAddresses db = userAddresses db0
  ∧ orders db = orders db0
  ∧ orderItems db = orderItems db0
  ∧ transactions db = transactions db0.

(** The message of a successful [addOrUpdateCartItem] that keeps a row. *)
Definition upsert_message (existing : option CartItem) : string :=
  match existing with
  | Some _ => "Successfully updated cart item!"
  | None => "Successfully added product to cart!"
  end.

(** The cart of the user once [cart.upsert] has run: the one there is, or
    a new one with the generated id. *)
Definition cartOf (env : Env) (db : Db) (userId : string) : string :=
  default (env_cuid env) (carts db !! userId).

Definition with_cart (env : Env) (userId : string) (db : Db) : Db :=
  match carts db !! userId with
  | Some _ => db
  | None => set_carts (insert userId (env_cuid env)) db
  end.

(** The generated id may be used for a cart of the user. *)
Definition cart_available (env : Env) (db : Db) (userId : string) : Prop :=
  carts db !! userId = None → cuid_fresh env db.

(** The database after [addOrUpdateCartItem] has stored a quantity. *)
Definition upserted (env : Env) (userId productId : string)
    (update : QuantityUpdate) (create : Z) (db : Db) : Db :=
  let cartId := cartOf env db userId in
  match cartItemOf db userId productId with
  | Some _ =>
      set_cartItems
        (map (λ ci, if has_key cartId productId ci
                    then mkCartItem cartId productId
                           (apply_update update (ci_quantity ci))
                    else ci)) db
  | None =>
      set_cartItems (λ l, (l ++ [mkCartItem cartId productId create])%list)
                    (with_cart env userId db)
  end.

(** The rows of a cart as [getCart] selects them, before they are sorted:
    the quantity of each cart item with its product. *)
Definition selected (db : Db) (cartId : string) : option (list (Z * Product)) :=
  mapM (λ ci, (λ p, (ci_quantity ci, p)) <$> products db !! ci_productId ci)
       (itemsOf db cartId).

(** What a checkout needs to go through: a generated id and an invoice
    number that are not taken, a cart with items whose products exist and
    have the stock asked for, and an address. *)
Definition can_checkout (env : Env) (userId shippingAddressId cartId : string)
    (db : Db) : Prop :=
  cuid_fresh env db
  ∧ carts db !! userId = Some cartId
  ∧ itemsOf db cartId ≠ []
  ∧ products_exist db
  ∧ is_Some (userAddresses db !! shippingAddressId)
  ∧ (∀ ci p, ci ∈ itemsOf db cartId →
             products db !! ci_productId ci = Some p →
             ci_quantity ci ≤ available p)
  ∧ invoice_unused env db.

(** Every cart item asks for no more than the stock of its product. *)
Definition within_stock (db : Db) : Prop :=
  ∀ ci p, ci ∈ cartItems db → products db !! ci_productId ci = Some p →
          ci_quantity ci ≤ available p.

(** The line (price, quantity) of a cart item whose product has an
    integer price; the price counts 0 otherwise. *)
Definition integer_price (price : option Decimal) : Z :=
  match price with
  | Some (Dec c O) => c
  | _ => 0
  end.

Definition line_of (db : Db) (ci : CartItem) : Z * Z :=
  (integer_price (price_of db (ci_productId ci)), ci_quantity ci).

(** The products of the cart items have integer prices. *)
Definition integer_priced (db : Db) (items : list CartItem) : Prop :=
  ∀ ci, ci ∈ items → ∃ c, price_of db (ci_productId ci) = Some (Dec c 0).

(** * Properties *)

(** ** Arithmetic of JavaScript numbers on safe integers *)

Section number_facts.

Lemma Qred_inject_Z (z : Z) : Qred (inject_Z z) = inject_Z z.
Proof.
  unfold Qred, inject_Z.
  pose proof (Z.ggcd_gcd z 1) as Hg.
  pose proof (Z.ggcd_correct_divisors z 1) as Hd.
  destruct (Z.ggcd z 1) as [g [n d]]. simpl in *.
  rewrite Z.gcd_1_r in Hg. subst g. destruct Hd as [Hn Hd].
  rewrite Z.mul_1_l in Hn, Hd. by subst.
Qed.

Lemma scaled_den_nonpos (e : Z) : e ≤ 0 → scaled_den 1 e = 1.
Proof.
  intros He. unfold scaled_den. destruct (Z.leb_spec 0 e); [|done].
  replace e with 0 by lia. done.
Qed.

Lemma scaled_num_nonpos (a e : Z) : e ≤ 0 → scaled_num a e = a * 2 ^ (- e).
Proof.
  intros He. unfold scaled_num. destruct (Z.leb_spec 0 e); [|done].
  replace e with 0 by lia. simpl. lia.
Qed.

(** A positive integer below [2^53] needs no rounding: its exponent is
    not positive. *)
Lemma exponent53_int (a : Z) :
  0 < a < 2 ^ 53 → exponent53 a 1 = Z.log2 a - 52 ∧ Z.log2 a - 52 ≤ 0.
Proof.
  intros [Hpos Hlt].
  assert (HL : Z.log2 a < 53) by (apply Z.log2_lt_pow2; lia).
  destruct (Z.log2_spec a Hpos) as [Hlo Hhi].
  split; [|lia].
  unfold exponent53. change (Z.log2 1) with 0. rewrite Z.sub_0_r.
  set (e := Z.log2 a - 52).
  assert (Hnum : 2 ^ 52 ≤ scaled_num a e).
  { rewrite scaled_num_nonpos by lia.
    replace (2 ^ 52) with (2 ^ Z.log2 a * 2 ^ (- e)).
    - apply Z.mul_le_mono_nonneg_r; [apply Z.pow_nonneg|]; lia.
    - pose proof (Z.log2_nonneg a).
      rewrite <- Z.pow_add_r by lia. f_equal. lia. }
  rewrite scaled_den_nonpos, Z.mul_1_r by lia.
  destruct (Z.ltb_spec (scaled_num a e) (2 ^ 52)); [lia|done].
Qed.

Lemma round53_inject_Z (z : Z) :
  Z.abs z ≤ MAX_SAFE_INTEGER → round53 (inject_Z z) = inject_Z z.
Proof.
  unfold MAX_SAFE_INTEGER. intros Hz. unfold round53.
  change (Qnum (inject_Z z)) with z.
  change (Z.pos (Qden (inject_Z z))) with 1.
  destruct (Z.eqb_spec z 0) as [->|Hne]; [done|].
  destruct (exponent53_int (Z.abs z)) as [-> He]; [lia|].
  set (e := Z.log2 (Z.abs z) - 52) in *.
  rewrite scaled_den_nonpos, scaled_num_nonpos by done.
  unfold round_half_even.
  rewrite Z.mod_1_r, Z.div_1_r. simpl (2 * 0 <? 1). cbv iota.
  rewrite <- Qred_inject_Z. apply Qred_complete.
  assert (Hp : 0 < 2 ^ (- e)) by (apply Z.pow_pos_nonneg; lia).
  unfold ldexpQ. destruct (Z.leb_spec 0 e).
  - replace e with 0 by lia. unfold Qeq. simpl. lia.
  - unfold Qeq. simpl. rewrite Z2Pos.id by done. lia.
Qed.

Lemma mul_ofInt (a b : Z) :
  Z.abs (a * b) ≤ MAX_SAFE_INTEGER → mul (ofInt a) (ofInt b) = ofInt (a * b).
Proof.
  intros H. unfold mul, ofInt. f_equal.
  change (inject_Z a * inject_Z b)%Q with (inject_Z (a * b)).
  by apply round53_inject_Z.
Qed.

Lemma add_ofInt (a b : Z) :
  Z.abs (a + b) ≤ MAX_SAFE_INTEGER → add (ofInt a) (ofInt b) = ofInt (a + b).
Proof.
  intros H. unfold add, ofInt. f_equal.
  replace (inject_Z a + inject_Z b)%Q with (inject_Z (a + b)).
  - by apply round53_inject_Z.
  - unfold Qplus, inject_Z. simpl. by rewrite !Z.mul_1_r.
Qed.

Lemma Number_integer_price (c : Z) :
  Z.abs c ≤ MAX_SAFE_INTEGER → Number (JsDecimal (Dec c 0)) = ofInt c.
Proof.
  intros H. simpl. unfold ofInt. f_equal.
  change (c # Z.to_pos (10 ^ Z.of_nat 0))%Q with (inject_Z c).
  by apply round53_inject_Z.
Qed.

End number_facts.

(** ** Totals *)

Section totals.

Lemma magnitude_nonneg (lines : list (Z * Z)) : 0 ≤ magnitude lines.
Proof. induction lines as [|line lines IH]; simpl; lia. Qed.

(** One step of either reduction, on an accumulator and a line amount
    that are safe integers. *)
Lemma total_step (acc quantity price : Z) :
  Z.abs price ≤ MAX_SAFE_INTEGER →
  Z.abs acc + Z.abs (price * quantity) ≤ MAX_SAFE_INTEGER →
  add (ofInt acc) (mul (ofInt quantity) (Number (JsDecimal (Dec price 0))))
  = ofInt (acc + price * quantity).
Proof.
  intros Hp Hsum.
  rewrite Number_integer_price by done.
  rewrite (Z.mul_comm price quantity) in *.
  rewrite mul_ofInt by lia. rewrite add_ofInt by lia. done.
Qed.

Lemma calculateTotalPrice_from (products : list (string * JsValue))
    (cartItems : list (string * Z)) (lines : list (Z * Z)) :
  priced_by products cartItems lines →
  Forall (λ line, Z.abs line.1 ≤ MAX_SAFE_INTEGER) lines →
  ∀ acc, Z.abs acc + magnitude lines ≤ MAX_SAFE_INTEGER →
  foldl (calculateTotalPrice_step products) (ofInt acc) cartItems
  = ofInt (acc + exact_total lines).
Proof.
  induction 1 as [|item line cartItems lines [Hq (p & Hfind & Hp)] _ IH];
    intros Hsafe acc Hacc.
  - simpl. by rewrite Z.add_0_r.
  - apply Forall_cons in Hsafe as [Hprice Hsafe].
    simpl in Hacc. pose proof (magnitude_nonneg lines).
    change (foldl ?f ?a (item :: cartItems))
      with (foldl f (f a item) cartItems).
    unfold calculateTotalPrice_step at 2.
    rewrite Hfind, Hp, Hq. cbv zeta.
    change (js_or (JsDecimal ?d) ?v) with (JsDecimal d).
    rewrite total_step by lia.
    rewrite IH by (done || lia). f_equal. simpl. lia.
Qed.

Lemma getCart_total_from (cartItems : list (Z * Product))
    (lines : list (Z * Z)) :
  cart_priced_by cartItems lines →
  Forall (λ line, Z.abs line.1 ≤ MAX_SAFE_INTEGER) lines →
  ∀ acc, Z.abs acc + magnitude lines ≤ MAX_SAFE_INTEGER →
  foldl getCart_total_step (Ok (ofInt acc)) cartItems
  = Ok (ofInt (acc + exact_total lines)).
Proof.
  induction 1 as [|item line cartItems lines [Hq Hp] _ IH];
    intros Hsafe acc Hacc.
  - simpl. by rewrite Z.add_0_r.
  - apply Forall_cons in Hsafe as [Hprice Hsafe].
    simpl in Hacc. pose proof (magnitude_nonneg lines).
    change (foldl ?f ?a (item :: cartItems))
      with (foldl f (f a item) cartItems).
    unfold getCart_total_step at 2.
    rewrite Hp, Hq. cbv zeta.
    change (ofNullable (Some ?d)) with (JsDecimal d).
    rewrite (Number_integer_price line.1) at 1 by done.
    change (isNaN (ofInt line.1)) with false. cbv iota.
    rewrite total_step by lia.
    rewrite IH by (done || lia). do 2 f_equal. simpl. lia.
Qed.

End totals.

(** C7, as the code has it: totals are computed in binary64, and they are
    the exact sum of quantity times price whenever the prices are integers
    and the amounts stay within [Number.MAX_SAFE_INTEGER]; this holds for
    the checkout total ([calculateTotalPrice]) and for the total of
    [getCart]. *)
Theorem total_exact_on_safe_integers
    (products : list (string * JsValue)) (cartItems : list (string * Z))
    (cart : list (Z * Product)) (lines : list (Z * Z)) :
  safe lines →
  priced_by products cartItems lines →
  cart_priced_by cart lines →
  calculateTotalPrice cartItems products = ofInt (exact_total lines)
  ∧ getCart_total cart = Ok (ofInt (exact_total lines)).
Proof.
  intros [Hprices Hmag] Hitems Hcart. split.
  - unfold calculateTotalPrice.
    by rewrite (calculateTotalPrice_from products cartItems lines).
  - unfold getCart_total.
    by rewrite (getCart_total_from cart lines).
Qed.

(** The lines [(price 45000, quantity 2); (price 30000, quantity 1)] give
    120000. *)
Lemma total_exact_on_safe_integers_witness :
  calculateTotalPrice
    [("a", 2); ("b", 1)]
    [("a", JsDecimal (Dec 45000 0)); ("b", JsDecimal (Dec 30000 0))]
  = ofInt 120000
  ∧ getCart_total
      [(2, mkProduct "Arabica" (Some (Dec 45000 0)) (Some 5));
       (1, mkProduct "Robusta" (Some (Dec 30000 0)) (Some 1))]
    = Ok (ofInt 120000).
Proof.
  apply (total_exact_on_safe_integers _ _ _ [(45000, 2); (30000, 1)]).
  - split.
    + repeat constructor; unfold MAX_SAFE_INTEGER; simpl; lia.
    + unfold MAX_SAFE_INTEGER; simpl; lia.
  - repeat constructor; simpl; eexists; split; reflexivity.
  - repeat constructor.
Defined.

(** The total is not the exact decimal sum in general: three items at a
    price of 0.1 total 0.30000000000000004 (as a fraction,
    5404319552844596 / 2^54), not 0.3, both at checkout and in [getCart]. *)
Lemma total_inexact_on_decimal_fraction :
  calculateTotalPrice [("a", 3)] [("a", JsDecimal (Dec 1 1))]
  = Fin (1351079888211149 # 4503599627370496)
  ∧ getCart_total [(3, mkProduct "Arabica" (Some (Dec 1 1)) (Some 5))]
    = Ok (Fin (1351079888211149 # 4503599627370496))
  ∧ ¬ (1351079888211149 # 4503599627370496 == 3 * (1 # 10))%Q.
Proof.
  split; [|split]; [by vm_compute..|].
  unfold Qeq. simpl. lia.
Qed.

(** ** The pricing policy *)

Section pricing.

Lemma getCart_total_thrown (e : Thrown) (cartItems : list (Z * Product)) :
  foldl getCart_total_step (Throw e) cartItems = Throw e.
Proof. induction cartItems as [|item cartItems IH]; simpl; done. Qed.

Lemma getCart_total_NaN (cartItems : list (Z * Product)) (acc : number) :
  (∃ row, row ∈ cartItems ∧ product_price row.2 = Some DecNaN) →
  foldl getCart_total_step (Ok acc) cartItems
  = Throw (ThrowError "Invalid product price").
Proof.
  revert acc. induction cartItems as [|item cartItems IH];
    intros acc (row & Hin & Hrow).
  - by apply elem_of_nil in Hin.
  - change (foldl ?f ?a (item :: cartItems))
      with (foldl f (f a item) cartItems).
    unfold getCart_total_step at 2. cbv zeta.
    destruct (isNaN (Number (ofNullable (product_price item.2)))) eqn:Hnan.
    + apply getCart_total_thrown.
    + apply IH. exists row. split; [|done].
      apply elem_of_cons in Hin as [->|Hin]; [|done].
      rewrite Hrow in Hnan. discriminate Hnan.
Qed.

Lemma calculateTotalPrice_absent (products : list (string * JsValue))
    (acc : number) (item : string * Z) :
  absent_price products item →
  calculateTotalPrice_step products acc item = add acc (ofInt 0).
Proof.
  unfold absent_price, calculateTotalPrice_step. intros Habsent. cbv zeta.
  assert (∀ v, v = JsNull ∨ v = JsUndefined →
               mul (ofInt item.2) (Number (js_or v (JsNum (ofInt 0))))
               = ofInt 0) as Hzero.
  { intros v [->| ->]; simpl js_or; simpl Number;
      (rewrite mul_ofInt; rewrite Z.mul_0_r; [done|]);
      unfold MAX_SAFE_INTEGER; simpl; lia. }
  destruct (List.find _ products) as [p|].
  - by rewrite Hzero.
  - by rewrite Hzero; [|right].
Qed.

End pricing.

(** C6, as the code has it: the total of [getCart] fails with "Invalid
    product price" when the price of an item converts to NaN; the checkout
    total never fails, and an item whose product is missing or whose price
    is null or undefined adds 0 to it. *)
Theorem pricing_policy
    (cart : list (Z * Product)) (products : list (string * JsValue))
    (cartItems : list (string * Z)) (item : string * Z) :
  (∃ row, row ∈ cart ∧ product_price row.2 = Some DecNaN) →
  absent_price products item →
  getCart_total cart = Throw (ThrowError "Invalid product price")
  ∧ calculateTotalPrice (cartItems ++ [item]) products
    = add (calculateTotalPrice cartItems products) (ofInt 0).
Proof.
  intros Hnan Habsent. split.
  - by apply getCart_total_NaN.
  - unfold calculateTotalPrice. rewrite foldl_app. simpl.
    by apply calculateTotalPrice_absent.
Qed.

Lemma pricing_policy_witness :
  getCart_total [(2, Example.arabica); (1, mkProduct "Luwak" (Some DecNaN) None)]
  = Throw (ThrowError "Invalid product price")
  ∧ calculateTotalPrice ([("p1", 2)] ++ [("p3", 2)])
      [("p1", JsDecimal (Dec 45000 0)); ("p3", JsNull)]
    = add (calculateTotalPrice [("p1", 2)]
             [("p1", JsDecimal (Dec 45000 0)); ("p3", JsNull)])
          (ofInt 0).
Proof.
  apply pricing_policy.
  - exists (1, mkProduct "Luwak" (Some DecNaN) None). split; [|done].
    apply elem_of_cons. right. apply elem_of_cons. by left.
  - unfold absent_price. simpl. by left.
Defined.

(** A price that is absent is priced 0 without any failure: for two Gayo,
    whose price is null, the checkout total is 0; so it is for a product
    that is missing from [products]. *)
Lemma total_prices_absent_price_at_zero :
  calculateTotalPrice [("p3", 2)]
    [("p3", ofNullable (product_price Example.gayo))]
  = ofInt 0
  ∧ calculateTotalPrice [("p3", 2)] [] = ofInt 0.
Proof. split; by vm_compute. Qed.

(** ** Invoice numbers *)

Section invoice.

(** A property checked on every number below [n]. *)
Lemma forall_below (P : Z → bool) (n : nat) :
  forallb P (map Z.of_nat (seq 0 n)) = true →
  ∀ z, 0 ≤ z < Z.of_nat n → P z = true.
Proof.
  intros Hall z Hz. rewrite forallb_forall in Hall. apply Hall.
  apply in_map_iff. exists (Z.to_nat z). split; [lia|].
  apply in_seq. lia.
Qed.

Lemma addLeadingZeros_year (year : Z) :
  0 ≤ year < 10000 →
  addLeadingZeros year 4
  = String.string_of_list_ascii
      [digit_char (year / 1000); digit_char (year / 100);
       digit_char (year / 10); digit_char year].
Proof.
  intros Hy.
  apply String.eqb_eq.
  apply (forall_below
           (λ y, String.eqb (addLeadingZeros y 4)
                   (String.string_of_list_ascii
                      [digit_char (y / 1000); digit_char (y / 100);
                       digit_char (y / 10); digit_char y]))
           (Z.to_nat 10000)); [by vm_compute|by rewrite Z2Nat.id].
Qed.

Lemma addLeadingZeros_two (n : Z) :
  0 ≤ n < 100 →
  addLeadingZeros n 2
  = String.string_of_list_ascii [digit_char (n / 10); digit_char n].
Proof.
  intros Hn.
  apply String.eqb_eq.
  apply (forall_below
           (λ y, String.eqb (addLeadingZeros y 2)
                   (String.string_of_list_ascii
                      [digit_char (y / 10); digit_char y]))
           100); [by vm_compute|done].
Qed.

Lemma format_yyyyMMdd_digits (date : Date) :
  1 ≤ getFullYear date ≤ 9999 →
  0 ≤ getMonth date ≤ 11 →
  1 ≤ getDate date ≤ 31 →
  format_yyyyMMdd date
  = YYYYMMDD (getFullYear date) (getMonth date + 1) (getDate date).
Proof.
  intros Hy Hm Hd. unfold format_yyyyMMdd.
  destruct (Z.ltb_spec 0 (getFullYear date)); [|lia].
  rewrite addLeadingZeros_year, !addLeadingZeros_two by lia.
  reflexivity.
Qed.

Lemma digit_char_is_digit (n : Z) : is_digit (digit_char n) = true.
Proof.
  pose proof (Z.mod_pos_bound n 10 ltac:(lia)) as Hn.
  apply (forall_below (λ d, is_digit (digit_char d)) 10) in Hn;
    [|by vm_compute].
  unfold digit_char in *. by rewrite Zmod_mod in Hn.
Qed.

(** Every character [urlAlphabet[byte & 63]] is a letter, a digit, an
    underscore or a hyphen. *)
Lemma nanoid_char_url_safe (byte : Z) :
  is_url_safe
    (default Ascii.zero
       (String.get (Z.to_nat (Z.land byte 63)) urlAlphabet)) = true.
Proof.
  change 63 with (Z.ones 6). rewrite Z.land_ones by lia.
  pose proof (Z.mod_pos_bound byte (2 ^ 6) ltac:(lia)) as Hb.
  by apply (forall_below
              (λ i, is_url_safe
                      (default Ascii.zero
                         (String.get (Z.to_nat i) urlAlphabet))) 64).
Qed.

Lemma nanoid_url_safe (pool : nat → Z) (size : nat) :
  forallb is_url_safe (String.list_ascii_of_string (nanoid pool size)) = true.
Proof.
  unfold nanoid. rewrite String.list_ascii_of_string_of_list_ascii.
  apply forallb_forall. intros c Hc.
  apply in_map_iff in Hc as (i & <- & _). apply nanoid_char_url_safe.
Qed.

Lemma length_string_of_list_ascii (l : list ascii) :
  String.length (String.string_of_list_ascii l) = length l.
Proof. induction l as [|c l IH]; simpl; congruence. Qed.

Lemma nanoid_length (pool : nat → Z) (size : nat) :
  String.length (nanoid pool size) = size.
Proof.
  unfold nanoid.
  by rewrite length_string_of_list_ascii, length_map, length_seq.
Qed.

End invoice.

(** C9, as the code has it: an invoice number is [INV-], the eight digits
    of the local date of generation, a hyphen, and six characters of the
    alphabet of nanoid, that is letters, digits, underscore and hyphen. *)
Theorem invoice_number_format (env : Env) :
  1 ≤ getFullYear (env_today env) ≤ 9999 →
  0 ≤ getMonth (env_today env) ≤ 11 →
  1 ≤ getDate (env_today env) ≤ 31 →
  ∃ suffix,
    generateInvoiceNumber env
    = "INV-"
        +:+ YYYYMMDD (getFullYear (env_today env))
              (getMonth (env_today env) + 1) (getDate (env_today env))
        +:+ "-" +:+ suffix
    ∧ String.length suffix = 6%nat
    ∧ forallb is_url_safe (String.list_ascii_of_string suffix) = true.
Proof.
  intros Hy Hm Hd. exists (nanoid (env_pool env) 6).
  split; [|split].
  - unfold generateInvoiceNumber. cbv zeta.
    by rewrite format_yyyyMMdd_digits.
  - apply nanoid_length.
  - apply nanoid_url_safe.
Qed.

Lemma invoice_number_format_witness :
  ∃ suffix,
    generateInvoiceNumber Example.env
    = "INV-" +:+ YYYYMMDD 2024 (11 + 1) 13 +:+ "-" +:+ suffix
    ∧ String.length suffix = 6%nat
    ∧ forallb is_url_safe (String.list_ascii_of_string suffix) = true.
Proof.
  apply (invoice_number_format Example.env); simpl; lia.
Defined.

(** The suffix is not always alphanumeric: when the six random bytes are
    8, the invoice number of 13 December 2024 is [INV-20241213-------],
    whose last six characters are hyphens. *)
Lemma invoice_suffix_not_alphanumeric :
  generateInvoiceNumber Example.env = "INV-20241213-------"
  ∧ String.substring 13 6 (generateInvoiceNumber Example.env) = "------"
  ∧ forallb is_alphanumeric
      (String.list_ascii_of_string
         (String.substring 13 6 (generateInvoiceNumber Example.env)))
    = false.
Proof. split; [|split]; by vm_compute. Qed.

(** ** Stock validation *)

(** C4: the validation does not treat a product that is absent from the
    stock mapping as out of stock.  With stock known for [p1] only, a cart
    asking for 1000 units of the unknown [p9] passes. *)
Theorem validateProductStock_passes_absent_product :
  validateProductStock [("p1", 2); ("p9", 1000)] {["p1" := Some 5]} = Ok tt.
Proof. by vm_compute. Qed.

(** ** Reasoning in the transaction monad *)

Section monad.
Context {A B : Type}.

Lemma bind_Ok (m : Tx A) (f : A → Tx B) (db db' : Db) (a : A) :
  m db = (Ok a, db') → (m ≫= f) db = f a db'.
Proof. intros H. unfold mbind, Tx_bind. by rewrite H. Qed.

Lemma bind_Throw (m : Tx A) (f : A → Tx B) (db db' : Db) (e : Thrown) :
  m db = (Throw e, db') → (m ≫= f) db = (Throw e, db').
Proof. intros H. unfold mbind, Tx_bind. by rewrite H. Qed.

Lemma bind_run (m : Tx A) (f : A → Tx B) (db : Db) :
  (m ≫= f) db
  = match m db with
    | (Ok a, db') => f a db'
    | (Throw e, db') => (Throw e, db')
    end.
Proof. done. Qed.

Lemma transaction_Ok (m : Tx A) (db db' : Db) (a : A) :
  m db = (Ok a, db') → transaction m db = (Ok a, db').
Proof. intros H. unfold transaction. by rewrite H. Qed.

Lemma transaction_Throw (m : Tx A) (db db' : Db) (e : Thrown) :
  m db = (Throw e, db') → transaction m db = (Throw e, db).
Proof. intros H. unfold transaction. by rewrite H. Qed.

(** A transaction that throws leaves the database as it was. *)
Lemma transaction_rollback (m : Tx A) (db db' : Db) (e : Thrown) :
  transaction m db = (Throw e, db') → db' = db.
Proof.
  unfold transaction. destruct (m db) as [[a|e'] db'']; congruence.
Qed.

End monad.

(** ** What can be thrown *)

Section thrown.
Context (P : Thrown → Prop).

Lemma throws_only_ret {A} (a : A) : throws_only P (mret a).
Proof. by intros db e db'. Qed.

Lemma throws_only_gets {A} (f : Db → A) : throws_only P (gets f).
Proof. by intros db e db'. Qed.

Lemma throws_only_modify (f : Db → Db) : throws_only P (modify f).
Proof. by intros db e db'. Qed.

Lemma throws_only_throw {A} (e : Thrown) : P e → throws_only P (throw (A:=A) e).
Proof. intros He db e' db' [= <- _]. done. Qed.

Lemma throws_only_lift {A} (r : Result A) :
  (∀ e, r = Throw e → P e) → throws_only P (lift r).
Proof. intros Hr db e db' [= -> _]. by apply Hr. Qed.

Lemma throws_only_bind {A B} (m : Tx A) (f : A → Tx B) :
  throws_only P m → (∀ a, throws_only P (f a)) → throws_only P (m ≫= f).
Proof.
  intros Hm Hf db e db'. rewrite bind_run.
  destruct (m db) as [[a|e1] db1] eqn:Hrun.
  - apply Hf.
  - intros [= <- _]. by apply (Hm db e1 db1).
Qed.

Lemma throws_only_forM_ {A} (f : A → Tx unit) (l : list A) :
  (∀ a, throws_only P (f a)) → throws_only P (forM_ f l).
Proof.
  intros Hf. induction l as [|x l IH]; simpl.
  - apply throws_only_ret.
  - apply throws_only_bind; [apply Hf|]. intros _. apply IH.
Qed.

Context (P_prisma : ∀ code, P (PrismaError code)).

Lemma throws_only_cart_upsert (env : Env) (userId : string) :
  throws_only P (cart_upsert env userId).
Proof.
  intros db e db'. unfold cart_upsert.
  destruct (carts db !! userId); [done|].
  case_bool_decide; [|done]. by intros [= <- _].
Qed.

Lemma throws_only_cart_findUnique_withItems (userId : string) :
  throws_only P (cart_findUnique_withItems userId).
Proof.
  intros db e db'. unfold cart_findUnique_withItems.
  destruct (carts db !! userId) as [id|]; [|done].
  destruct (mapM _ _); [done|]. by intros [= <- _].
Qed.

Lemma throws_only_order_create (order : Order) (items : list OrderItem) :
  throws_only P (order_create order items).
Proof.
  intros db e db'. unfold order_create.
  destruct (existsb _ _); [|done]. by intros [= <- _].
Qed.

Lemma throws_only_transaction_create (t : Transaction) :
  throws_only P (transaction_create t).
Proof.
  intros db e db'. unfold transaction_create.
  destruct (existsb _ _); [|done]. by intros [= <- _].
Qed.

Lemma throws_only_product_update_decrement (id : string) (quantity : Z) :
  throws_only P (product_update_decrement id quantity).
Proof.
  intros db e db'. unfold product_update_decrement.
  destruct (products db !! id); [done|]. by intros [= <- _].
Qed.

Lemma throws_only_cartItem_delete (cartId productId : string) :
  throws_only P (cartItem_delete cartId productId).
Proof.
  intros db e db'. unfold cartItem_delete.
  destruct (existsb _ _); [done|]. by intros [= <- _].
Qed.

Lemma throws_only_cartItem_upsert (cartId productId : string)
    (update : QuantityUpdate) (create : Z) :
  throws_only P (cartItem_upsert cartId productId update create).
Proof.
  intros db e db'. unfold cartItem_upsert. cbv zeta.
  destruct (List.find _ _); [done|]. by intros [= <- _].
Qed.

End thrown.

(** ** Reading the cart *)

Section reads.

Lemma mapM_attach (db : Db) (l : list CartItem) :
  (∀ ci, ci ∈ l → is_Some (products db !! ci_productId ci)) →
  ∃ loaded, mapM (attach db) l = Some loaded
    ∧ loaded.*1 = l
    ∧ Forall (λ item, products db !! ci_productId item.1 = Some item.2) loaded.
Proof.
  induction l as [|ci l IH]; intros Hl.
  - exists []. by repeat split.
  - destruct IH as (loaded & Hm & Hfst & Hall).
    { intros ci' Hin. apply Hl. by right. }
    destruct (Hl ci) as [p Hp]; [by left|].
    exists ((ci, p) :: loaded). split; [|split].
    + apply mapM_Some. constructor; [|by apply mapM_Some].
      unfold attach. by rewrite Hp.
    + rewrite fmap_cons. by rewrite Hfst.
    + by constructor.
Qed.

Lemma elem_of_itemsOf (db : Db) (cartId : string) (ci : CartItem) :
  ci ∈ itemsOf db cartId ↔ ci ∈ cartItems db ∧ ci_cartId ci = cartId.
Proof.
  unfold itemsOf, in_cart. rewrite !list_elem_of_In, filter_In.
  by rewrite bool_decide_eq_true.
Qed.

Lemma cart_findUnique_withItems_Ok (db : Db) (userId cartId : string) :
  products_exist db →
  carts db !! userId = Some cartId →
  ∃ loaded,
    cart_findUnique_withItems userId db = (Ok (Some (cartId, loaded)), db)
    ∧ loaded.*1 = itemsOf db cartId
    ∧ Forall (λ item, products db !! ci_productId item.1 = Some item.2) loaded.
Proof.
  intros Hfk Hcart.
  destruct (mapM_attach db (itemsOf db cartId)) as (loaded & Hm & Hfst & Hall).
  { intros ci Hin. apply Hfk. by apply elem_of_itemsOf in Hin as [? _]. }
  exists loaded. split; [|done].
  unfold cart_findUnique_withItems. rewrite Hcart.
  fold (itemsOf db cartId). by rewrite Hm.
Qed.

(** A key occurs once in a list without duplicate keys: [find] returns its
    entry. *)
Lemma find_key {V} (l : list (string * V)) (k : string) (v : V) :
  NoDup l.*1 → (k, v) ∈ l →
  List.find (λ p, bool_decide (p.1 = k)) l = Some (k, v).
Proof.
  induction l as [|[k' v'] l IH]; intros Hnd Hin.
  - by apply elem_of_nil in Hin.
  - apply NoDup_cons in Hnd as [Hk' Hnd]. simpl.
    apply elem_of_cons in Hin as [Heq|Hin].
    + inversion Heq; subst. by rewrite bool_decide_eq_true_2.
    + rewrite bool_decide_eq_false_2; [by apply IH|].
      intros ->. apply Hk'. apply list_elem_of_fmap. by exists (k, v).
Qed.

Lemma NoDup_fst_filter {V} (f : string * V → bool) (l : list (string * V)) :
  NoDup l.*1 → NoDup (List.filter f l).*1.
Proof.
  induction l as [|x l IH]; intros Hnd; [done|].
  apply NoDup_cons in Hnd as [Hx Hnd]. simpl.
  destruct (f x); [|by apply IH].
  simpl. apply NoDup_cons. split; [|by apply IH].
  intros Hin. apply Hx.
  apply list_elem_of_fmap in Hin as (y & -> & Hy).
  apply list_elem_of_fmap. exists y. split; [done|].
  apply list_elem_of_In, filter_In in Hy as [Hy _]. by apply list_elem_of_In.
Qed.

Lemma NoDup_found (db : Db) (productIds : list string) :
  NoDup (found db productIds).*1.
Proof. apply NoDup_fst_filter, NoDup_fst_map_to_list. Qed.

Lemma elem_of_found (db : Db) (productIds : list string) k p :
  (k, p) ∈ found db productIds ↔ products db !! k = Some p ∧ k ∈ productIds.
Proof.
  unfold found. rewrite list_elem_of_In, filter_In, <- list_elem_of_In.
  by rewrite elem_of_map_to_list, bool_decide_eq_true.
Qed.

Lemma productStock_of_lookup_from (l : list (string * Product))
    (acc : gmap string (option Z)) (k : string) :
  NoDup l.*1 →
  foldl (λ acc product, <[product.1 := product_stockQty product.2]> acc) acc l
    !! k
  = match List.find (λ p, bool_decide (p.1 = k)) l with
    | Some p => Some (product_stockQty p.2)
    | None => acc !! k
    end.
Proof.
  revert acc. induction l as [|[k' p'] l IH]; intros acc Hnd; [done|].
  apply NoDup_cons in Hnd as [Hk' Hnd]. simpl. rewrite IH by done.
  destruct (decide (k' = k)) as [->|Hne].
  - rewrite bool_decide_eq_true_2 by done.
    destruct (List.find _ l) as [[k2 p2]|] eqn:Hfind.
    + apply find_some in Hfind as [Hin Hk2].
      apply bool_decide_eq_true in Hk2. simpl in Hk2. subst k2.
      exfalso. apply Hk'. apply list_elem_of_fmap. exists (k, p2).
      split; [done|]. by apply list_elem_of_In.
    + by rewrite lookup_insert_eq.
  - rewrite bool_decide_eq_false_2 by done.
    destruct (List.find _ l); [done|]. by rewrite lookup_insert_ne.
Qed.

Lemma productStock_of_found (db : Db) (productIds : list string) k p :
  products db !! k = Some p → k ∈ productIds →
  productStock_of (found db productIds) !! k = Some (product_stockQty p).
Proof.
  intros Hp Hk. unfold productStock_of.
  rewrite productStock_of_lookup_from by apply NoDup_found.
  rewrite (find_key _ k p); [done|apply NoDup_found|by apply elem_of_found].
Qed.

End reads.

Section checkout_steps.

Lemma filter_map_swap {X Y} (f : Y → bool) (g : X → Y) (l : list X) :
  List.filter f (map g l) = map g (List.filter (λ x, f (g x)) l).
Proof.
  induction l as [|x l IH]; [done|]. simpl.
  destruct (f (g x)); simpl; by rewrite IH.
Qed.

Lemma stock_lt_available (p : Product) (quantity : Z) :
  stock_lt (Some (product_stockQty p)) quantity = (available p <? quantity).
Proof. unfold available. by destruct (product_stockQty p). Qed.

(** What [validateProductStock] keeps is the rows of the insufficient
    cart items. *)
Lemma insufficientStockProducts_eq (db : Db) (items : list CartItem) :
  (∀ ci, ci ∈ items → is_Some (products db !! ci_productId ci)) →
  List.filter
    (λ item, stock_lt
               (productStock_of (found db (map ci_productId items)) !! item.1)
               item.2)
    (map row items)
  = map row (List.filter (insufficient db) items).
Proof.
  intros Hex. rewrite filter_map_swap. f_equal.
  apply filter_ext_in. intros ci Hin. apply list_elem_of_In in Hin.
  destruct (Hex ci Hin) as [p Hp]. unfold insufficient. rewrite Hp. simpl.
  rewrite (productStock_of_found db _ _ p); [apply stock_lt_available|done|].
  apply list_elem_of_fmap. by exists ci.
Qed.

Lemma validateProductStock_items (db : Db) (items : list CartItem) :
  (∀ ci, ci ∈ items → is_Some (products db !! ci_productId ci)) →
  validateProductStock (map row items)
    (productStock_of (found db (map ci_productId items)))
  = match List.filter (insufficient db) items with
    | [] => Ok tt
    | offending =>
        Throw (ThrowError
                 ("Insufficient stock for product(s): "
                    +:+ String.concat ", " (map ci_productId offending)))
    end.
Proof.
  intros Hex. unfold validateProductStock. cbv zeta.
  rewrite insufficientStockProducts_eq by done.
  destruct (List.filter (insufficient db) items) as [|ci offending]; [done|].
  rewrite length_map. simpl length.
  destruct (Z.ltb_spec 0 (Z.of_nat (S (length offending)))); [|lia].
  by rewrite map_map.
Qed.

Lemma find_map_snd {V W} (h : V → W) (l : list (string * V)) (k : string) :
  List.find (λ p, bool_decide (p.1 = k)) (map (λ p, (p.1, h p.2)) l)
  = (λ p, (p.1, h p.2)) <$> List.find (λ p, bool_decide (p.1 = k)) l.
Proof.
  induction l as [|[k' v] l IH]; [done|]. simpl.
  by destruct (bool_decide (k' = k)).
Qed.

Lemma Number_price_or_zero (price : option Decimal) :
  Number (js_or (ofNullable price) (JsNum (ofInt 0)))
  = match price with
    | Some d => Decimal_toNumber d
    | None => ofInt 0
    end.
Proof. by destruct price. Qed.

Lemma calculateTotalPrice_step_item (db : Db) (productIds : list string)
    (acc : number) (ci : CartItem) :
  is_Some (products db !! ci_productId ci) →
  ci_productId ci ∈ productIds →
  calculateTotalPrice_step
    (map (λ p, (p.1, ofNullable (product_price p.2))) (found db productIds))
    acc (row ci)
  = add acc (lineAmount db ci).
Proof.
  intros [p Hp] Hin. unfold calculateTotalPrice_step, row. cbv zeta.
  simpl fst. simpl snd.
  rewrite (find_map_snd (λ v, ofNullable (product_price v))).
  rewrite (find_key _ (ci_productId ci) p);
    [|apply NoDup_found|by apply elem_of_found].
  simpl. rewrite Number_price_or_zero.
  unfold lineAmount, price_of. by rewrite Hp.
Qed.

Lemma calculateTotalPrice_items (db : Db) (productIds : list string)
    (items : list CartItem) :
  (∀ ci, ci ∈ items →
         is_Some (products db !! ci_productId ci)
         ∧ ci_productId ci ∈ productIds) →
  calculateTotalPrice (map row items)
    (map (λ p, (p.1, ofNullable (product_price p.2))) (found db productIds))
  = order_total db items.
Proof.
  unfold calculateTotalPrice, order_total. generalize (ofInt 0).
  induction items as [|ci items IH]; intros acc Hex; [done|].
  simpl map.
  change (foldl ?f acc (?x :: ?l)) with (foldl f (f acc x) l).
  destruct (Hex ci) as [Hp Hin]; [by left|].
  rewrite calculateTotalPrice_step_item by done.
  apply IH. intros ci' Hci'. apply Hex. by right.
Qed.

Lemma orderItems_of_loaded (env : Env) (db : Db)
    (loaded : list (CartItem * Product)) :
  Forall (λ item, products db !! ci_productId item.1 = Some item.2) loaded →
  map (λ item, mkOrderItem (env_cuid env) (ci_productId item.1)
                 (ci_quantity item.1) (product_price item.2)) loaded
  = map (orderItem_of env db) loaded.*1.
Proof.
  induction 1 as [|[ci p] loaded Hp _ IH]; [done|].
  simpl. rewrite IH. f_equal.
  unfold orderItem_of, price_of. simpl in Hp. by rewrite Hp.
Qed.

(** *** The stock updates *)

Lemma quantity_in_absent (productId : string) (items : list CartItem) :
  productId ∉ map ci_productId items → quantity_in productId items = 0.
Proof.
  induction items as [|ci items IH]; intros Hnot; [done|].
  simpl. apply not_elem_of_cons in Hnot as [Hne Hnot].
  rewrite bool_decide_eq_false_2 by done. by apply IH.
Qed.

Lemma decrementStock_of_from (loaded : list (CartItem * Product))
    (acc : gmap string Z) (k : string) :
  foldl (λ acc item,
           <[ci_productId item.1 :=
               default 0 (acc !! ci_productId item.1) + ci_quantity item.1]> acc)
        acc loaded !! k
  = if bool_decide (k ∈ map ci_productId loaded.*1)
    then Some (default 0 (acc !! k) + quantity_in k loaded.*1)
    else acc !! k.
Proof.
  revert acc. induction loaded as [|[ci p] loaded IH]; intros acc; [done|].
  change (foldl ?f acc (?x :: ?l)) with (foldl f (f acc x) l).
  rewrite IH. rewrite fmap_cons. simpl fst. simpl map. simpl quantity_in.
  destruct (decide (ci_productId ci = k)) as [Heq|Hne].
  - subst k. rewrite lookup_insert_eq.
    rewrite (bool_decide_eq_true_2 (ci_productId ci = ci_productId ci)) by done.
    rewrite (bool_decide_eq_true_2 (_ ∈ _ :: _)) by by left.
    case_bool_decide as Hin.
    + simpl. f_equal. lia.
    + rewrite quantity_in_absent by done. simpl. f_equal. lia.
  - rewrite lookup_insert_ne by done.
    rewrite (bool_decide_eq_false_2 (ci_productId ci = k)) by done.
    case_bool_decide as Hin.
    + rewrite bool_decide_eq_true_2; [done|by right].
    + rewrite bool_decide_eq_false_2; [done|].
      by apply not_elem_of_cons.
Qed.

Lemma decrementStock_of_lookup (loaded : list (CartItem * Product)) (k : string) :
  decrementStock_of loaded !! k
  = if bool_decide (k ∈ map ci_productId loaded.*1)
    then Some (quantity_in k loaded.*1) else None.
Proof.
  unfold decrementStock_of. rewrite decrementStock_of_from.
  by rewrite lookup_empty.
Qed.

Lemma decrementStock_of_default (loaded : list (CartItem * Product)) (k : string) :
  default 0 (decrementStock_of loaded !! k) = quantity_in k loaded.*1.
Proof.
  rewrite decrementStock_of_lookup. case_bool_decide; [done|].
  by rewrite quantity_in_absent.
Qed.

Lemma decrement_0 (p : Product) : decrement 0 p = p.
Proof.
  destruct p as [name price [s|]]; unfold decrement; simpl; [|done].
  by rewrite Z.sub_0_r.
Qed.

Lemma set_products_const (m : gmap string Product) (db : Db) :
  products db = m → set_products (λ _, m) db = db.
Proof. intros <-. by destruct db. Qed.

(** Decrements of distinct products, one after the other: every product
    loses the quantity listed for it, the others keep their stock. *)
Lemma forM_decrement (l : list (string * Z)) (db : Db) :
  NoDup l.*1 →
  (∀ k q, (k, q) ∈ l → is_Some (products db !! k)) →
  ∃ m',
    forM_ (λ entry, product_update_decrement entry.1 entry.2) l db
    = (Ok tt, set_products (λ _, m') db)
    ∧ ∀ k, m' !! k
           = decrement (default 0 ((list_to_map l : gmap string Z) !! k))
               <$> products db !! k.
Proof.
  revert db. induction l as [|[k0 q0] l IH]; intros db Hnd Hex.
  - exists (products db). split.
    + simpl. unfold mret, Tx_ret. by rewrite set_products_const.
    + intros k. simpl list_to_map. rewrite lookup_empty. simpl default.
      destruct (products db !! k) as [p|]; [|done].
      simpl. by rewrite decrement_0.
  - apply NoDup_cons in Hnd as [Hk0 Hnd].
    destruct (Hex k0 q0) as [p0 Hp0]; [by left|].
    set (db1 := set_products (insert k0 (decrement q0 p0)) db).
    destruct (IH db1 Hnd) as (m' & Hrun & Hm').
    { intros k q Hin. simpl.
      destruct (decide (k0 = k)) as [->|Hne].
      - rewrite lookup_insert_eq. by eexists.
      - rewrite lookup_insert_ne by done. apply (Hex k q). by right. }
    exists m'. split.
    + simpl forM_. erewrite bind_Ok.
      * rewrite Hrun. by destruct db.
      * unfold product_update_decrement. simpl. by rewrite Hp0.
    + intros k. rewrite Hm'. simpl.
      destruct (decide (k0 = k)) as [->|Hne].
      * rewrite !lookup_insert_eq, Hp0. simpl.
        rewrite (not_elem_of_list_to_map_1 _ k) by done.
        simpl. by rewrite decrement_0.
      * by rewrite !lookup_insert_ne.
Qed.

Lemma filter_in_cart_deleted (cartId : string) (l : list CartItem) :
  List.filter (in_cart cartId)
    (List.filter (λ ci, negb (in_cart cartId ci)) l) = [].
Proof.
  induction l as [|ci l IH]; [done|]. simpl.
  destruct (in_cart cartId ci) eqn:Hin; simpl; [done|]. by rewrite Hin.
Qed.

Lemma filter_in_cart_other (c cartId : string) (l : list CartItem) :
  c ≠ cartId →
  List.filter (in_cart c)
    (List.filter (λ ci, negb (in_cart cartId ci)) l)
  = List.filter (in_cart c) l.
Proof.
  intros Hne. induction l as [|ci l IH]; [done|]. simpl.
  destruct (in_cart cartId ci) eqn:Hin; simpl.
  - assert (in_cart c ci = false) as ->; [|done].
    unfold in_cart in *. apply bool_decide_eq_true in Hin.
    apply bool_decide_eq_false. congruence.
  - by rewrite IH.
Qed.

End checkout_steps.

Section checkout_runs.

Lemma filter_none {X} (f : X → bool) (l : list X) :
  (∀ x, In x l → f x = false) → List.filter f l = [].
Proof.
  induction l as [|x l IH]; intros Hall; [done|]. simpl.
  rewrite (Hall x) by by left. apply IH. intros y Hy. apply Hall. by right.
Qed.

Lemma invoice_unused_existsb (env : Env) (db : Db) (t : Transaction) :
  invoice_unused env db →
  tx_noInvoice t = generateInvoiceNumber env →
  existsb (λ t', bool_decide (tx_noInvoice t' = tx_noInvoice t))
          (transactions db) = false.
Proof.
  intros Hun Ht. apply not_true_is_false. intros Hex.
  apply existsb_exists in Hex as (t' & Hin & Heq).
  apply bool_decide_eq_true in Heq. apply list_elem_of_In in Hin.
  apply (Hun t' Hin). congruence.
Qed.

Lemma cuid_fresh_existsb (env : Env) (db : Db) (order : Order) :
  cuid_fresh env db →
  order_id order = env_cuid env →
  existsb (λ o, bool_decide (order_id o = order_id order)) (orders db) = false.
Proof.
  intros (_ & _ & Hfresh) Hid. apply not_true_is_false. intros Hex.
  apply existsb_exists in Hex as (o & Hin & Heq).
  apply bool_decide_eq_true in Heq. apply list_elem_of_In in Hin.
  apply (Hfresh o Hin). congruence.
Qed.

Lemma checkout_body_places_order (env : Env) (userId shippingAddressId : string)
    (db : Db) (cartId : string) :
  cuid_fresh env db →
  carts db !! userId = Some cartId →
  itemsOf db cartId ≠ [] →
  products_exist db →
  is_Some (userAddresses db !! shippingAddressId) →
  (∀ ci, ci ∈ itemsOf db cartId → insufficient db ci = false) →
  invoice_unused env db →
  let items := itemsOf db cartId in
  let total := order_total db items in
  ∃ m',
    checkout_body env userId shippingAddressId db
    = (Ok (mkOrder (env_cuid env) userId total "pending" shippingAddressId,
           map (orderItem_of env db) items,
           mkTransaction (generateInvoiceNumber env) total "Pending"
             (env_cuid env)),
       checked_out env userId shippingAddressId cartId m' db)
    ∧ ∀ k, m' !! k = decrement (quantity_in k items) <$> products db !! k.
Proof.
  intros Hfresh Hcart Hne Hfk [ad Had] Hstock Hinv items total.
  destruct (cart_findUnique_withItems_Ok db userId cartId)
    as (loaded & Hload & Hfst & Hall); [done..|].
  assert (Hex : ∀ ci, ci ∈ items → is_Some (products db !! ci_productId ci)).
  { intros ci Hin. apply Hfk. by apply elem_of_itemsOf in Hin as [? _]. }
  assert (Hnone : List.filter (insufficient db) items = []).
  { apply filter_none. intros ci Hin. apply Hstock. by apply list_elem_of_In. }
  assert (Hids : map (λ item : CartItem * Product, ci_productId item.1) loaded
                 = map ci_productId items).
  { unfold items. rewrite <- Hfst. by rewrite <- list_fmap_compose. }
  assert (Hrows : map (λ item : CartItem * Product, row item.1) loaded
                  = map row items).
  { unfold items. rewrite <- Hfst. by rewrite <- list_fmap_compose. }
  assert (Hlen : (Z.of_nat (length loaded) =? 0) = false).
  { apply Z.eqb_neq. destruct loaded; [|simpl; lia].
    by rewrite <- Hfst in Hne. }
  destruct (forM_decrement (map_to_list (decrementStock_of loaded))
              (set_transactions
                 (λ l, (l ++ [mkTransaction (generateInvoiceNumber env)
                                total "Pending" (env_cuid env)])%list)
                 (set_orderItems
                    (λ l, (l ++ map (orderItem_of env db) items)%list)
                    (set_orders
                       (λ l, (l ++ [mkOrder (env_cuid env) userId total
                                      "pending" shippingAddressId])%list)
                       db))))
    as (m' & Hrun & Hm').
  { apply NoDup_fst_map_to_list. }
  { intros k q Hin. apply elem_of_map_to_list in Hin.
    rewrite decrementStock_of_lookup in Hin. simpl.
    case_bool_decide as Hk; [|done]. rewrite Hfst in Hk.
    apply list_elem_of_fmap in Hk as (ci & -> & Hci). by apply Hex. }
  exists m'. split.
  - (* the reads *)
    unfold checkout_body.
    erewrite bind_Ok by exact Hload. cbv beta iota. rewrite Hlen.
    erewrite bind_Ok;
      [|unfold userAddress_count, gets; by rewrite Had].
    change (1 =? 0) with false. cbv iota.
    erewrite bind_Ok by reflexivity.
    erewrite bind_Ok by reflexivity.
    (* the validation *)
    rewrite Hids, Hrows. fold (itemsOf db cartId). fold items.
    erewrite bind_Ok;
      [|unfold lift; by rewrite (validateProductStock_items db items Hex), Hnone].
    (* the writes *)
    rewrite calculateTotalPrice_items; last first.
    { intros ci Hin. split; [by apply Hex|].
      apply list_elem_of_fmap. by exists ci. }
    fold total. rewrite (orderItems_of_loaded env db loaded Hall), Hfst.
    fold items.
    erewrite bind_Ok;
      [|unfold order_create; by rewrite (cuid_fresh_existsb env)].
    cbv zeta.
    erewrite bind_Ok;
      [|unfold transaction_create;
        by rewrite (invoice_unused_existsb env)].
    erewrite bind_Ok by exact Hrun.
    erewrite bind_Ok by reflexivity. reflexivity.
  - intros k. rewrite Hm'. simpl products.
    by rewrite list_to_map_to_list, decrementStock_of_default, Hfst.
Qed.

End checkout_runs.

(** ** Hypotheses that compute *)

Section checks.

Lemma sufficient_not_insufficient (db : Db) (items : list CartItem) :
  (∀ ci p, ci ∈ items → products db !! ci_productId ci = Some p →
           ci_quantity ci ≤ available p) →
  ∀ ci, ci ∈ items → insufficient db ci = false.
Proof.
  intros Hle ci Hin. unfold insufficient.
  destruct (products db !! ci_productId ci) as [p|] eqn:Hp; [|done].
  apply Z.ltb_ge. by apply (Hle ci p).
Qed.

Lemma products_exist_check (db : Db) :
  forallb (λ ci, bool_decide (is_Some (products db !! ci_productId ci)))
          (cartItems db) = true →
  products_exist db.
Proof.
  intros Hall ci Hin. rewrite forallb_forall in Hall.
  apply list_elem_of_In, Hall in Hin. by apply bool_decide_eq_true in Hin.
Qed.

Lemma sufficient_check (db : Db) (items : list CartItem) :
  forallb (λ ci, negb (insufficient db ci)) items = true →
  ∀ ci p, ci ∈ items → products db !! ci_productId ci = Some p →
          ci_quantity ci ≤ available p.
Proof.
  intros Hall ci p Hin Hp. rewrite forallb_forall in Hall.
  apply list_elem_of_In, Hall, negb_true_iff in Hin.
  unfold insufficient in Hin. rewrite Hp in Hin. by apply Z.ltb_ge.
Qed.

Lemma invoice_unused_check (env : Env) (db : Db) :
  forallb (λ t, negb (bool_decide (tx_noInvoice t = generateInvoiceNumber env)))
          (transactions db) = true →
  invoice_unused env db.
Proof.
  intros Hall t Hin. rewrite forallb_forall in Hall.
  apply list_elem_of_In, Hall, negb_true_iff in Hin.
  by apply bool_decide_eq_false in Hin.
Qed.

Lemma priced_check (db : Db) (items : list CartItem) :
  forallb (λ ci, bool_decide (is_Some (price_of db (ci_productId ci)))) items
  = true →
  priced db items.
Proof.
  intros Hall ci Hin. rewrite forallb_forall in Hall.
  apply list_elem_of_In, Hall in Hin. by apply bool_decide_eq_true in Hin.
Qed.

Lemma cuid_fresh_check (env : Env) (db : Db) :
  negb (bool_decide (env_cuid env ∈ cart_ids db))
  && forallb (λ ci, negb (bool_decide (ci_cartId ci = env_cuid env)))
             (cartItems db)
  && forallb (λ o, negb (bool_decide (order_id o = env_cuid env))) (orders db)
  = true →
  cuid_fresh env db.
Proof.
  intros Hall. apply andb_true_iff in Hall as [Hall Horders].
  apply andb_true_iff in Hall as [Hcarts Hitems].
  rewrite forallb_forall in Hitems. rewrite forallb_forall in Horders.
  split; [|split].
  - apply negb_true_iff in Hcarts. by apply bool_decide_eq_false in Hcarts.
  - intros ci Hin. apply list_elem_of_In, Hitems, negb_true_iff in Hin.
    by apply bool_decide_eq_false in Hin.
  - intros o Hin. apply list_elem_of_In, Horders, negb_true_iff in Hin.
    by apply bool_decide_eq_false in Hin.
Qed.

End checks.

(** ** Checkout *)

Section checkout_fails.

(** The three checks of the callback come before any write: when one of
    them fails the callback itself has not touched the database. *)
Lemma checkout_body_empty_cart (env : Env) (userId shippingAddressId : string)
    (db : Db) :
  (∀ cartId, carts db !! userId = Some cartId → itemsOf db cartId = []) →
  checkout_body env userId shippingAddressId db
  = (Throw (ThrowError "Cart is empty"), db).
Proof.
  intros Hempty. unfold checkout_body.
  destruct (carts db !! userId) as [cartId|] eqn:Hcart.
  - erewrite bind_Ok; last first.
    { unfold cart_findUnique_withItems. rewrite Hcart.
      fold (itemsOf db cartId). by rewrite (Hempty cartId). }
    reflexivity.
  - erewrite bind_Ok; last first.
    { unfold cart_findUnique_withItems. by rewrite Hcart. }
    reflexivity.
Qed.

Lemma checkout_body_address_not_found (env : Env)
    (userId shippingAddressId : string) (db : Db) (cartId : string) :
  carts db !! userId = Some cartId →
  itemsOf db cartId ≠ [] →
  products_exist db →
  userAddresses db !! shippingAddressId = None →
  checkout_body env userId shippingAddressId db
  = (Throw (ThrowError "Shipping address not found"), db).
Proof.
  intros Hcart Hne Hfk Haddr.
  destruct (cart_findUnique_withItems_Ok db userId cartId)
    as (loaded & Hload & Hfst & Hall); [done..|].
  unfold checkout_body.
  erewrite bind_Ok by exact Hload. cbv beta iota.
  destruct loaded as [|item loaded]; [by rewrite <- Hfst in Hne|].
  change (Z.of_nat (length (item :: loaded)) =? 0) with false. cbv iota.
  erewrite bind_Ok; last first.
  { unfold userAddress_count, gets. by rewrite Haddr. }
  reflexivity.
Qed.

Lemma checkout_body_insufficient (env : Env)
    (userId shippingAddressId : string) (db : Db) (cartId : string) :
  carts db !! userId = Some cartId →
  products_exist db →
  is_Some (userAddresses db !! shippingAddressId) →
  offending db cartId ≠ [] →
  checkout_body env userId shippingAddressId db
  = (Throw (ThrowError
              ("Insufficient stock for product(s): "
                 +:+ String.concat ", "
                       (map ci_productId (offending db cartId)))),
     db).
Proof.
  intros Hcart Hfk [ad Had] Hoff.
  destruct (cart_findUnique_withItems_Ok db userId cartId)
    as (loaded & Hload & Hfst & Hall); [done..|].
  assert (Hex : ∀ ci, ci ∈ itemsOf db cartId →
                      is_Some (products db !! ci_productId ci)).
  { intros ci Hin. apply Hfk. by apply elem_of_itemsOf in Hin as [? _]. }
  assert (Hids : map (λ item : CartItem * Product, ci_productId item.1) loaded
                 = map ci_productId (itemsOf db cartId)).
  { rewrite <- Hfst. by rewrite <- list_fmap_compose. }
  unfold checkout_body.
  erewrite bind_Ok by exact Hload. cbv beta iota.
  destruct loaded as [|item loaded].
  { unfold offending in Hoff. by rewrite <- Hfst in Hoff. }
  change (Z.of_nat (length (item :: loaded)) =? 0) with false. cbv iota.
  erewrite bind_Ok;
    [|unfold userAddress_count, gets; by rewrite Had].
  change (1 =? 0) with false. cbv iota.
  erewrite bind_Ok by reflexivity.
  erewrite bind_Ok by reflexivity.
  rewrite Hids. fold (itemsOf db cartId).
  assert (Hval :
    validateProductStock (map row (itemsOf db cartId))
      (productStock_of (found db (map ci_productId (itemsOf db cartId))))
    = Throw (ThrowError
               ("Insufficient stock for product(s): "
                  +:+ String.concat ", "
                        (map ci_productId (offending db cartId))))).
  { rewrite (validateProductStock_items db _ Hex).
    fold (offending db cartId). by destruct (offending db cartId). }
  erewrite bind_Throw; last first.
  { unfold lift. by rewrite Hval. }
  reflexivity.
Qed.

End checkout_fails.

(** C1: a checkout that fails leaves the database as it was: the cart
    items, the orders, the order items, the transactions and the stock of
    every product are those of before the call. *)
Theorem checkout_atomic (env : Env) (userId shippingAddressId : string)
    (db db' : Db) (e : Thrown) :
  checkout env userId shippingAddressId db = (Throw e, db') →
  db' = db
  ∧ cartItems db' = cartItems db
  ∧ orders db' = orders db
  ∧ orderItems db' = orderItems db
  ∧ transactions db' = transactions db
  ∧ ∀ productId,
      product_stockQty <$> products db' !! productId
      = product_stockQty <$> products db !! productId.
Proof.
  intros Hfail. apply transaction_rollback in Hfail. by subst db'.
Qed.

Lemma checkout_atomic_witness :
  (checkout Example.env "u1" "a1" Example.taken).2 = Example.taken
  ∧ cartItems (checkout Example.env "u1" "a1" Example.taken).2
    = cartItems Example.taken
  ∧ orders (checkout Example.env "u1" "a1" Example.taken).2
    = orders Example.taken
  ∧ orderItems (checkout Example.env "u1" "a1" Example.taken).2
    = orderItems Example.taken
  ∧ transactions (checkout Example.env "u1" "a1" Example.taken).2
    = transactions Example.taken
  ∧ ∀ productId,
      product_stockQty
        <$> products (checkout Example.env "u1" "a1" Example.taken).2
              !! productId
      = product_stockQty <$> products Example.taken !! productId.
Proof.
  apply (checkout_atomic Example.env "u1" "a1" Example.taken _
           (PrismaError "P2002")).
  by vm_compute.
Defined.

(** The rollback is what keeps a late failure from showing: when the
    invoice number is taken, the callback has already created the order
    and its items; the transaction hands back the database of before. *)
Lemma checkout_rolls_back_the_order :
  (checkout_body Example.env "u1" "a1" Example.taken).1
  = Throw (PrismaError "P2002")
  ∧ length (orders (checkout_body Example.env "u1" "a1" Example.taken).2) = 2%nat
  ∧ checkout Example.env "u1" "a1" Example.taken
    = (Throw (PrismaError "P2002"), Example.taken).
Proof. split; [|split]; by vm_compute. Qed.

(** C2, as the code has it: when the address exists and some item of the
    cart asks for more than the stock of its product, checkout fails with
    an [Error] (a value without error code) whose message is
    "Insufficient stock for product(s): " followed by the product ids of
    all the items that ask for too much, and only of those; the database
    is unchanged, so no order is created. *)
Theorem checkout_insufficient_stock (env : Env)
    (userId shippingAddressId : string) (db : Db) (cartId : string) :
  carts db !! userId = Some cartId →
  products_exist db →
  generated_ids (itemsOf db cartId) →
  is_Some (userAddresses db !! shippingAddressId) →
  (∃ ci p, ci ∈ itemsOf db cartId
           ∧ products db !! ci_productId ci = Some p
           ∧ available p < ci_quantity ci) →
  checkout env userId shippingAddressId db
  = (Throw (ThrowError
              ("Insufficient stock for product(s): "
                 +:+ String.concat ", "
                       (map ci_productId (offending db cartId)))),
     db)
  ∧ ∀ ci, ci ∈ offending db cartId
          ↔ ci ∈ itemsOf db cartId
            ∧ ∃ p, products db !! ci_productId ci = Some p
                   ∧ available p < ci_quantity ci.
Proof.
  intros Hcart Hfk _ Haddr (ci0 & p0 & Hin0 & Hp0 & Hlt0).
  assert (Hmem : ∀ ci, ci ∈ offending db cartId
                       ↔ ci ∈ itemsOf db cartId
                         ∧ ∃ p, products db !! ci_productId ci = Some p
                                ∧ available p < ci_quantity ci).
  { intros ci. unfold offending.
    rewrite list_elem_of_In, filter_In, <- list_elem_of_In.
    unfold insufficient. split.
    - intros [Hin Hlt]. split; [done|].
      destruct (products db !! ci_productId ci) as [p|]; [|done].
      exists p. split; [done|]. by apply Z.ltb_lt.
    - intros [Hin (p & Hp & Hlt)]. split; [done|].
      rewrite Hp. by apply Z.ltb_lt. }
  split; [|done].
  unfold checkout. eapply transaction_Throw.
  apply checkout_body_insufficient; try done.
  intros Hnil. assert (Hin : ci0 ∈ offending db cartId).
  { apply Hmem. split; [done|]. by exists p0. }
  rewrite Hnil in Hin. by apply elem_of_nil in Hin.
Qed.

Lemma generated_ids_check (items : list CartItem) :
  forallb (λ ci, negb (bool_decide (ci_productId ci ∈ Object_prototype_keys)))
          items = true →
  generated_ids items.
Proof.
  intros Hall ci Hin. rewrite forallb_forall in Hall.
  apply list_elem_of_In, Hall, negb_true_iff in Hin.
  by apply bool_decide_eq_false in Hin.
Qed.

(** In the shop [Example.greedy] the cart of [u1] asks for seven Arabica
    (stock 5), one Gayo (stock 4) and three Robusta (stock 1): the message
    names [p1] and [p2]. *)
Lemma checkout_insufficient_stock_witness :
  checkout Example.env "u1" "a1" Example.greedy
  = (Throw (ThrowError "Insufficient stock for product(s): p1, p2"),
     Example.greedy)
  ∧ (mkCartItem "c1" "p1" 7 ∈ offending Example.greedy "c1"
     ∧ mkCartItem "c1" "p2" 3 ∈ offending Example.greedy "c1"
     ∧ mkCartItem "c1" "p3" 1 ∉ offending Example.greedy "c1").
Proof.
  destruct (checkout_insufficient_stock Example.env "u1" "a1" Example.greedy
              "c1") as [Hrun Hmem].
  - by vm_compute.
  - apply products_exist_check. by vm_compute.
  - apply generated_ids_check. by vm_compute.
  - apply (bool_decide_unpack _). by vm_compute.
  - exists (mkCartItem "c1" "p1" 7), Example.arabica.
    split; [|split].
    + apply list_elem_of_In. vm_compute. by left.
    + by vm_compute.
    + by vm_compute.
  - split; [rewrite Hrun; by vm_compute|]. split; [|split].
    + apply Hmem. split.
      * apply list_elem_of_In. vm_compute. by left.
      * exists Example.arabica. split; by vm_compute.
    + apply Hmem. split.
      * apply list_elem_of_In. vm_compute. right. right. by left.
      * exists Example.robusta. split; by vm_compute.
    + intros Hin. apply Hmem in Hin as [_ (p & Hp & Hlt)].
      vm_compute in Hp. injection Hp as <-. by vm_compute in Hlt.
Defined.

(** The claim as the specification states it fails in the same shop.
    The cart of [u1] asks for more Arabica than there is, and the
    checkout fails; but what is thrown is an [Error], which has no
    [error] property: no value with the error INSUFFICIENT_STOCK is
    thrown, and [POST /cart/checkout] answers 500 UNKNOWN_ERROR, not 400
    INSUFFICIENT_STOCK.  And with an address id that no address has, the
    same cart fails on the address, with a message that names no
    product. *)
Lemma insufficient_stock_is_a_plain_error :
  (mkCartItem "c1" "p1" 7 ∈ itemsOf Example.greedy "c1"
   ∧ products Example.greedy !! "p1" = Some Example.arabica
   ∧ available Example.arabica < 7)
  ∧ checkout Example.env "u1" "a1" Example.greedy
    = (Throw (ThrowError "Insufficient stock for product(s): p1, p2"),
       Example.greedy)
  ∧ (∀ code message,
       (checkout Example.env "u1" "a1" Example.greedy).1
       ≠ Throw (ThrowObject code "INSUFFICIENT_STOCK" message))
  ∧ cartRoute_post_checkout (λ _, "") Example.env "u1" "a1" Example.greedy
    = (mkResponse
         (Failure "UNKNOWN_ERROR" "Insufficient stock for product(s): p1, p2")
         (StatusCode 500),
       Example.greedy)
  ∧ checkout Example.env "u1" "a9" Example.greedy
    = (Throw (ThrowError "Shipping address not found"), Example.greedy).
Proof.
  split; [split; [|split]|split; [|split; [|split]]].
  - apply list_elem_of_In. vm_compute. by left.
  - by vm_compute.
  - by vm_compute.
  - by vm_compute.
  - intros code message. by vm_compute.
  - by vm_compute.
  - by vm_compute.
Qed.

(** Both products that are short are named, not only the first. *)
Lemma checkout_insufficient_stock_example :
  (checkout Example.env "u1" "a1" Example.greedy).1
  = Throw (ThrowError "Insufficient stock for product(s): p1, p2").
Proof. by vm_compute. Qed.

(** The scenario "add then checkout" on the example shop: user [u1]
    holds two Arabica (stock 5) and one Robusta (stock 1). *)
Lemma checkout_example :
  (checkout Example.env "u1" "a1" Example.db).1
  = Ok (mkOrder "id1" "u1" (ofInt 120000) "pending" "a1",
        [mkOrderItem "id1" "p1" 2 (Some (Dec 45000 0));
         mkOrderItem "id1" "p2" 1 (Some (Dec 30000 0))],
        mkTransaction "INV-20241213-------" (ofInt 120000) "Pending" "id1")
  ∧ product_stockQty
      <$> products (checkout Example.env "u1" "a1" Example.db).2 !! "p1"
    = Some (Some 3)
  ∧ cartItems (checkout Example.env "u1" "a1" Example.db).2
    = [mkCartItem "c2" "p3" 2].
Proof. split; [|split]; by vm_compute. Qed.

(** ** The address check of checkout *)

Section addresses.

Lemma ignores_ret {A} (a : A) : ignores_addresses (mret a).
Proof. by intros g db. Qed.

Lemma ignores_throw {A} (e : Thrown) : ignores_addresses (throw (A:=A) e).
Proof. by intros g db. Qed.

Lemma ignores_lift {A} (r : Result A) : ignores_addresses (lift r).
Proof. by intros g db. Qed.

Lemma ignores_bind {A B} (m : Tx A) (f : A → Tx B) :
  ignores_addresses m → (∀ a, ignores_addresses (f a)) →
  ignores_addresses (m ≫= f).
Proof.
  intros Hm Hf g db. unfold mbind, Tx_bind. rewrite Hm.
  destruct (m db) as [[a|e] db1]; simpl; [apply Hf|done].
Qed.

Lemma ignores_forM_ {A} (f : A → Tx unit) (l : list A) :
  (∀ a, ignores_addresses (f a)) → ignores_addresses (forM_ f l).
Proof.
  intros Hf. induction l as [|x l IH]; simpl.
  - apply ignores_ret.
  - apply ignores_bind; [apply Hf|]. intros _. apply IH.
Qed.

Lemma ignores_cart_findUnique_withItems (userId : string) :
  ignores_addresses (cart_findUnique_withItems userId).
Proof.
  intros g db. unfold cart_findUnique_withItems. simpl carts. simpl cartItems.
  destruct (carts db !! userId) as [id|]; [|done].
  change (attach (set_userAddresses g db)) with (attach db).
  by destruct (mapM _ _).
Qed.

Lemma ignores_product_findMany (productIds : list string) :
  ignores_addresses (product_findMany productIds).
Proof. by intros g db. Qed.

Lemma ignores_cartItem_findMany (cartId : string) :
  ignores_addresses (cartItem_findMany cartId).
Proof. by intros g db. Qed.

Lemma ignores_order_create (order : Order) (items : list OrderItem) :
  ignores_addresses (order_create order items).
Proof.
  intros g db. unfold order_create. simpl orders.
  by destruct (existsb _ _).
Qed.

Lemma ignores_transaction_create (t : Transaction) :
  ignores_addresses (transaction_create t).
Proof.
  intros g db. unfold transaction_create. simpl transactions.
  by destruct (existsb _ _).
Qed.

Lemma ignores_product_update_decrement (id : string) (quantity : Z) :
  ignores_addresses (product_update_decrement id quantity).
Proof.
  intros g db. unfold product_update_decrement. simpl products.
  by destruct (products db !! id).
Qed.

Lemma ignores_cartItem_deleteMany (cartId : string) :
  ignores_addresses (cartItem_deleteMany cartId).
Proof. by intros g db. Qed.

(** The count of the addresses with a given id sees the rows, not their
    owners. *)
Lemma userAddress_count_owner (g : UserAddress → UserAddress)
    (shippingAddressId : string) (db : Db) :
  userAddress_count shippingAddressId (set_userAddresses (fmap g) db)
  = ((userAddress_count shippingAddressId db).1,
     set_userAddresses (fmap g) db).
Proof.
  unfold userAddress_count, gets. simpl userAddresses. rewrite lookup_fmap.
  by destruct (userAddresses db !! shippingAddressId).
Qed.

Lemma checkout_body_owner (env : Env) (userId shippingAddressId : string)
    (g : UserAddress → UserAddress) (db : Db) :
  checkout_body env userId shippingAddressId
    (set_userAddresses (fmap g) db)
  = ((checkout_body env userId shippingAddressId db).1,
     set_userAddresses (fmap g)
       (checkout_body env userId shippingAddressId db).2).
Proof.
  unfold checkout_body. rewrite !bind_run.
  rewrite ignores_cart_findUnique_withItems.
  destruct (cart_findUnique_withItems userId db) as [[cart|e] db1];
    simpl; [|done].
  destruct cart as [[cart_id cart_cartItems]|]; [|done].
  destruct (Z.of_nat (length cart_cartItems) =? 0); [done|].
  rewrite !bind_run. rewrite userAddress_count_owner.
  destruct (userAddress_count shippingAddressId db1) as [[n|e] db2] eqn:Hn;
    simpl; [|done].
  assert (db2 = db1) as -> by (unfold userAddress_count, gets in Hn; congruence).
  destruct (n =? 0); [done|].
  apply ignores_bind; [apply ignores_product_findMany|]. intros products.
  apply ignores_bind; [apply ignores_cartItem_findMany|]. intros cartItems.
  apply ignores_bind; [apply ignores_lift|]. intros _.
  apply ignores_bind; [apply ignores_order_create|]. intros order.
  apply ignores_bind; [apply ignores_transaction_create|]. intros t.
  apply ignores_bind.
  { apply ignores_forM_. intros entry. apply ignores_product_update_decrement. }
  intros _.
  apply ignores_bind; [apply ignores_cartItem_deleteMany|]. intros _.
  apply ignores_ret.
Qed.

Lemma validateProductStock_thrown (cartItems : list (string * Z))
    (productStock : gmap string (option Z)) (e : Thrown) :
  validateProductStock cartItems productStock = Throw e →
  e ≠ ThrowError "Shipping address not found".
Proof.
  unfold validateProductStock. cbv zeta.
  destruct (0 <? _); [|done]. by intros [= <-].
Qed.

(** With a row for the address id, checkout does not fail for the
    address. *)
Lemma checkout_address_found (env : Env) (userId shippingAddressId : string)
    (db db' : Db) :
  is_Some (userAddresses db !! shippingAddressId) →
  checkout env userId shippingAddressId db
  ≠ (Throw (ThrowError "Shipping address not found"), db').
Proof.
  intros [address Haddr]. unfold checkout, transaction.
  destruct (checkout_body env userId shippingAddressId db)
    as [[r|e] db1] eqn:Hrun; [done|].
  intros [= -> _]. revert Hrun. unfold checkout_body. rewrite bind_run.
  destruct (cart_findUnique_withItems userId db) as [[cart|e] db2] eqn:Hcart.
  2:{ intros [= -> _].
      by apply (throws_only_cart_findUnique_withItems
                  (λ e, e ≠ ThrowError "Shipping address not found"))
        in Hcart. }
  assert (db2 = db) as ->.
  { unfold cart_findUnique_withItems in Hcart.
    destruct (carts db !! userId); [|congruence].
    destruct (mapM _ _); congruence. }
  destruct cart as [[cart_id cart_cartItems]|]; [|done].
  destruct (Z.of_nat (length cart_cartItems) =? 0); [done|].
  rewrite bind_run. unfold userAddress_count at 1, gets. rewrite Haddr.
  change (1 =? 0) with false. cbv iota.
  match goal with
  | |- ?m db = _ → False =>
      cut (throws_only (λ e, e ≠ ThrowError "Shipping address not found") m);
        [intros Hm Hrun; by apply Hm in Hrun|]
  end.
  apply throws_only_bind; [apply throws_only_gets|]. intros products.
  apply throws_only_bind; [apply throws_only_gets|]. intros cartItems.
  apply throws_only_bind.
  { apply throws_only_lift. apply validateProductStock_thrown. }
  intros _.
  apply throws_only_bind; [by apply throws_only_order_create|]. intros order.
  apply throws_only_bind; [by apply throws_only_transaction_create|]. intros t.
  apply throws_only_bind.
  { apply throws_only_forM_. intros entry.
    by apply throws_only_product_update_decrement. }
  intros _.
  apply throws_only_bind; [apply throws_only_modify|]. intros _.
  apply throws_only_ret.
Qed.

End addresses.

(** C10: checkout only checks that a row with the given address id
    exists, whoever owns it.  With the address of another user the address
    check passes, changing the owners of the addresses changes nothing to
    what checkout answers or writes, and a checkout that has a cart in
    order goes through. *)
Theorem checkout_does_not_check_address_owner (env : Env)
    (userId shippingAddressId : string) (db : Db)
    (address : UserAddress) (g : UserAddress → UserAddress) :
  userAddresses db !! shippingAddressId = Some address →
  address_userId address ≠ userId →
  (∀ db', checkout env userId shippingAddressId db
          ≠ (Throw (ThrowError "Shipping address not found"), db'))
  ∧ checkout env userId shippingAddressId (set_userAddresses (fmap g) db)
    = ((checkout env userId shippingAddressId db).1,
       set_userAddresses (fmap g)
         (checkout env userId shippingAddressId db).2)
  ∧ ∀ cartId,
      cuid_fresh env db →
      carts db !! userId = Some cartId →
      itemsOf db cartId ≠ [] →
      products_exist db →
      priced db (itemsOf db cartId) →
      (∀ ci p, ci ∈ itemsOf db cartId →
               products db !! ci_productId ci = Some p →
               ci_quantity ci ≤ available p) →
      invoice_unused env db →
      ∃ order items transaction db',
        checkout env userId shippingAddressId db
        = (Ok (order, items, transaction), db')
        ∧ order_userId order = userId
        ∧ order_shippingAddressId order = shippingAddressId.
Proof.
  intros Haddr Hother. split; [|split].
  - intros db'. by apply checkout_address_found.
  - unfold checkout, transaction. rewrite checkout_body_owner.
    by destruct (checkout_body env userId shippingAddressId db) as [[r|e] db'].
  - intros cartId Hfresh Hcart Hne Hfk _ Hstock Hinv.
    destruct (checkout_body_places_order env userId shippingAddressId db cartId)
      as (m' & Hrun & _); try done.
    { by apply sufficient_not_insufficient. }
    do 3 eexists. exists (checked_out env userId shippingAddressId cartId m' db).
    split; [unfold checkout; apply transaction_Ok; exact Hrun|].
    by split.
Qed.

(** User [u1] of the example shop checks out with [a2], the address of
    [u2]. *)
Lemma checkout_does_not_check_address_owner_witness :
  (∀ db', checkout Example.env "u1" "a2" Example.db
          ≠ (Throw (ThrowError "Shipping address not found"), db'))
  ∧ checkout Example.env "u1" "a2"
      (set_userAddresses (fmap (λ _, mkUserAddress "u1")) Example.db)
    = ((checkout Example.env "u1" "a2" Example.db).1,
       set_userAddresses (fmap (λ _, mkUserAddress "u1"))
         (checkout Example.env "u1" "a2" Example.db).2)
  ∧ ∃ order items transaction db',
      checkout Example.env "u1" "a2" Example.db
      = (Ok (order, items, transaction), db')
      ∧ order_userId order = "u1"
      ∧ order_shippingAddressId order = "a2".
Proof.
  destruct (checkout_does_not_check_address_owner Example.env "u1" "a2"
              Example.db (mkUserAddress "u2") (λ _, mkUserAddress "u1"))
    as (Hcheck & Howner & Hsuccess).
  - by vm_compute.
  - by vm_compute.
  - split; [exact Hcheck|]. split; [exact Howner|].
    apply (Hsuccess "c1").
    + apply cuid_fresh_check. by vm_compute.
    + by vm_compute.
    + by vm_compute.
    + apply products_exist_check. by vm_compute.
    + apply priced_check. by vm_compute.
    + apply sufficient_check. by vm_compute.
    + apply invoice_unused_check. by vm_compute.
Defined.

(** The order of [u1] is shipped to the address of [u2]. *)
Lemma checkout_with_foreign_address_example :
  address_userId <$> userAddresses Example.db !! "a2" = Some "u2"
  ∧ (checkout Example.env "u1" "a2" Example.db).1
    = Ok (mkOrder "id1" "u1" (ofInt 120000) "pending" "a2",
          [mkOrderItem "id1" "p1" 2 (Some (Dec 45000 0));
           mkOrderItem "id1" "p2" 1 (Some (Dec 30000 0))],
          mkTransaction "INV-20241213-------" (ofInt 120000) "Pending" "id1").
Proof. split; by vm_compute. Qed.

(** ** Adding to the cart *)

Section upsert.

Lemma find_ext {X} (f g : X → bool) (l : list X) :
  (∀ x, In x l → f x = g x) → List.find f l = List.find g l.
Proof.
  induction l as [|x l IH]; intros Hfg; [done|]. simpl.
  rewrite <- (Hfg x) by by left. destruct (f x); [done|].
  apply IH. intros y Hy. apply Hfg. by right.
Qed.

Lemma find_none {X} (f : X → bool) (l : list X) :
  (∀ x, In x l → f x = false) → List.find f l = None.
Proof.
  induction l as [|x l IH]; intros Hf; [done|]. simpl.
  rewrite (Hf x) by by left. apply IH. intros y Hy. apply Hf. by right.
Qed.

Lemma exceeds_available (newQuantity : Z) (p : Product) :
  exceeds newQuantity (product_stockQty p) = (available p <? newQuantity).
Proof. unfold available. by destruct (product_stockQty p). Qed.

(** The three reads of [addOrUpdateCartItem]: the cart is there afterwards,
    the product and the cart item are those of the database before. *)
Lemma upsert_reads (env : Env) (userId productId : string) (db : Db) :
  cuid_fresh env db →
  ∃ cartId db1,
    cart_upsert env userId db = (Ok cartId, db1)
    ∧ product_findUnique productId db1 = (Ok (products db !! productId), db1)
    ∧ cartItem_findFirst userId productId db1
      = (Ok (cartItemOf db userId productId), db1)
    ∧ cartItems db1 = cartItems db
    ∧ (∀ c, carts db !! userId = Some c → c = cartId ∧ db1 = db).
Proof.
  intros (Hcarts & Hfresh & _). unfold cart_upsert, cartItemOf.
  destruct (carts db !! userId) as [cartId|] eqn:Hcart.
  - exists cartId, db. split; [done|]. split; [done|].
    split; [|split; [done|by intros c' [= ->]]].
    unfold cartItem_findFirst, gets. rewrite Hcart. simpl. do 2 f_equal.
    apply find_ext. intros ci _. unfold has_key. f_equal.
    apply bool_decide_ext. split; congruence.
  - exists (env_cuid env), (set_carts (insert userId (env_cuid env)) db).
    rewrite bool_decide_eq_false_2 by done.
    split; [done|]. split; [done|]. split; [|done].
    unfold cartItem_findFirst, gets. simpl carts. simpl cartItems.
    rewrite lookup_insert_eq. simpl. do 2 f_equal.
    apply find_none. intros ci Hin. apply list_elem_of_In in Hin.
    rewrite bool_decide_eq_false_2; [done|].
    intros [= Heq]. by apply (Hfresh ci Hin).
Qed.

End upsert.

(** Below the stock limit the call does not fail with INVALID_QUANTITY. *)
Lemma upsert_accepts_quantity_within_stock (env : Env)
    (userId productId : string) (quantity : Z) (isIncrement : bool)
    (db db' : Db) (product : Product) (message : string) :
  cuid_fresh env db →
  products db !! productId = Some product →
  newQuantity_of db userId productId quantity isIncrement ≤ available product →
  addOrUpdateCartItem env userId productId quantity isIncrement db
  ≠ (Throw (ThrowObject 400 "INVALID_QUANTITY" message), db').
Proof.
  intros Hfresh Hp Hle.
  destruct (upsert_reads env userId productId db Hfresh)
    as (cartId & db1 & Hcart & Hprod & Hitem & _ & _).
  unfold addOrUpdateCartItem, transaction.
  destruct (addOrUpdateCartItem_body _ _ _ _ _ db) as [[r|e] db2] eqn:Hrun;
    [done|].
  intros [= -> _]. revert Hrun. unfold addOrUpdateCartItem_body.
  erewrite bind_Ok by exact Hcart.
  erewrite bind_Ok by exact Hprod.
  erewrite bind_Ok by exact Hitem.
  rewrite Hp. cbv zeta.
  fold (existingQuantity db userId productId).
  fold (newQuantity_of db userId productId quantity isIncrement).
  rewrite exceeds_available.
  apply Z.ltb_ge in Hle. rewrite Hle.
  match goal with
  | |- ?m db1 = _ → False =>
      cut (throws_only
             (λ e, ∀ msg, e ≠ ThrowObject 400 "INVALID_QUANTITY" msg) m);
        [intros Hm Hrun; apply Hm in Hrun; by apply (Hrun message)|]
  end.
  destruct (negb isIncrement && _).
  - destruct (cartItemOf db userId productId).
    + apply throws_only_bind; [by apply throws_only_cartItem_delete|].
      intros _. apply throws_only_ret.
    + by apply throws_only_throw.
  - apply throws_only_bind; [by apply throws_only_cartItem_upsert|].
    intros updated. apply throws_only_ret.
Qed.

(** C5: the new quantity is the existing quantity plus the requested one
    when incrementing, the requested one when setting;
    [addOrUpdateCartItem] fails with INVALID_QUANTITY (400) when the new
    quantity is above the stock, and only then.  The message names the
    product and the stock as the product has it: its decimal digits, or
    [null] for a product without a stock quantity, which counts as 0; the
    database is unchanged. *)
Theorem upsert_rejects_quantity_above_stock (env : Env)
    (userId productId : string) (quantity : Z) (isIncrement : bool)
    (db : Db) (product : Product) :
  cuid_fresh env db →
  products db !! productId = Some product →
  let newQuantity :=
    if isIncrement then existingQuantity db userId productId + quantity
    else quantity in
  let availableStock :=
    match product_stockQty product with
    | Some stockQty => pretty stockQty
    | None => "null"
    end in
  (available product < newQuantity →
   addOrUpdateCartItem env userId productId quantity isIncrement db
   = (Throw (ThrowObject 400 "INVALID_QUANTITY"
               ("Product " +:+ product_name product +:+ " has only "
                  +:+ availableStock +:+ " available stock!")),
      db))
  ∧ (newQuantity ≤ available product →
     ∀ message db',
       addOrUpdateCartItem env userId productId quantity isIncrement db
       ≠ (Throw (ThrowObject 400 "INVALID_QUANTITY" message), db')).
Proof.
  intros Hfresh Hp newQuantity availableStock.
  fold (newQuantity_of db userId productId quantity isIncrement) in newQuantity.
  split.
  - intros Hlt.
    destruct (upsert_reads env userId productId db Hfresh)
      as (cartId & db1 & Hcart & Hprod & Hitem & _ & _).
    unfold addOrUpdateCartItem. eapply transaction_Throw.
    unfold addOrUpdateCartItem_body.
    erewrite bind_Ok by exact Hcart.
    erewrite bind_Ok by exact Hprod.
    erewrite bind_Ok by exact Hitem.
    rewrite Hp. cbv zeta.
    fold (existingQuantity db userId productId).
    fold (newQuantity_of db userId productId quantity isIncrement).
    rewrite exceeds_available.
    apply Z.ltb_lt in Hlt. unfold newQuantity in Hlt. rewrite Hlt. reflexivity.
  - intros Hle message db'.
    by apply (upsert_accepts_quantity_within_stock _ _ _ _ _ _ _ product).
Qed.

(** The scenario "over-limit add": two Arabica in the cart, stock 5, four
    more asked for; and one more is accepted. *)
Lemma upsert_rejects_quantity_above_stock_witness :
  addOrUpdateCartItem Example.env "u1" "p1" 4 true Example.db
  = (Throw (ThrowObject 400 "INVALID_QUANTITY"
              "Product Arabica has only 5 available stock!"),
     Example.db)
  ∧ ∀ message db',
      addOrUpdateCartItem Example.env "u1" "p1" 3 true Example.db
      ≠ (Throw (ThrowObject 400 "INVALID_QUANTITY" message), db').
Proof.
  split.
  - destruct (upsert_rejects_quantity_above_stock Example.env "u1" "p1" 4 true
                Example.db Example.arabica) as [Habove _].
    + apply cuid_fresh_check. by vm_compute.
    + by vm_compute.
    + rewrite Habove by by vm_compute. by vm_compute.
  - destruct (upsert_rejects_quantity_above_stock Example.env "u1" "p1" 3 true
                Example.db Example.arabica) as [_ Hwithin].
    + apply cuid_fresh_check. by vm_compute.
    + by vm_compute.
    + apply Hwithin. by vm_compute.
Defined.

(** The same for a setting, and for a draft: a product without a stock
    quantity takes no item, and the message has [null] for the stock. *)
Lemma upsert_over_limit_example :
  addOrUpdateCartItem Example.env "u1" "p1" 6 false Example.db
  = (Throw (ThrowObject 400 "INVALID_QUANTITY"
              "Product Arabica has only 5 available stock!"),
     Example.db)
  ∧ addOrUpdateCartItem Example.env "u1" "p6" 1 true Example.drafts
    = (Throw (ThrowObject 400 "INVALID_QUANTITY"
                "Product Sumatra has only null available stock!"),
       Example.drafts).
Proof. split; by vm_compute. Qed.

Section set_to_zero.

Lemma find_filter_negb {X} (f : X → bool) (l : list X) :
  List.find f (List.filter (λ x, negb (f x)) l) = None.
Proof.
  induction l as [|x l IH]; [done|]. simpl.
  destruct (f x) eqn:Hf; simpl; [done|]. by rewrite Hf.
Qed.

Lemma find_existsb {X} (f : X → bool) (l : list X) (x : X) :
  List.find f l = Some x → existsb f l = true.
Proof.
  intros Hfind. apply find_some in Hfind as [Hin Hf].
  apply existsb_exists. by exists x.
Qed.

End set_to_zero.

(** C8: setting the quantity to 0, for a product that exists and whose
    stock is not negative, removes the cart item of the user for that
    product and answers with the removal message, so that no row is left
    for the pair; without such a cart item it fails with
    CART_ITEM_NOT_FOUND and the database is unchanged. *)
Theorem set_to_zero_removes (env : Env) (userId productId : string)
    (db : Db) (product : Product) :
  cuid_fresh env db →
  products db !! productId = Some product →
  0 ≤ available product →
  match cartItemOf db userId productId with
  | Some ci =>
      ∃ db',
        addOrUpdateCartItem env userId productId 0 false db
        = (Ok (mkCartItemResponse
                 ("Successfully removed product " +:+ product_name product
                    +:+ " from cart!")
                 None),
           db')
        ∧ cartItems db'
          = List.filter (λ ci', negb (has_key (ci_cartId ci) productId ci'))
                        (cartItems db)
        ∧ cartItemOf db' userId productId = None
        ∧ products db' = products db
        ∧ carts db' = carts db
  | None =>
      addOrUpdateCartItem env userId productId 0 false db
      = (Throw (ThrowObject 404 "CART_ITEM_NOT_FOUND" "Cart item not found!"),
         db)
  end.
Proof.
  intros Hfresh Hp Hstock.
  destruct (upsert_reads env userId productId db Hfresh)
    as (cartId & db1 & Hcart & Hprod & Hitem & Hitems & Hsame).
  assert (Hok : exceeds 0 (product_stockQty product) = false).
  { rewrite exceeds_available. by apply Z.ltb_ge. }
  destruct (cartItemOf db userId productId) as [ci|] eqn:Hci.
  - (* the cart exists, and holds the product *)
    unfold cartItemOf in Hci.
    destruct (carts db !! userId) as [c|] eqn:Hc; [|done]. simpl in Hci.
    destruct (Hsame c eq_refl) as [-> ->].
    assert (Hkey : ci_cartId ci = cartId).
    { apply find_some in Hci as [_ Hkey]. unfold has_key in Hkey.
      apply andb_true_iff in Hkey as [Hkey _].
      by apply bool_decide_eq_true in Hkey. }
    exists (set_cartItems
              (List.filter (λ ci', negb (has_key cartId productId ci'))) db).
    split; [|split; [by rewrite Hkey|split; [|done]]].
    + unfold addOrUpdateCartItem. eapply transaction_Ok.
      unfold addOrUpdateCartItem_body.
      erewrite bind_Ok by exact Hcart.
      erewrite bind_Ok by exact Hprod.
      erewrite bind_Ok by exact Hitem.
      rewrite Hp. cbv zeta. rewrite Hok.
      change (negb false && (0 =? 0)) with true. cbv iota.
      erewrite bind_Ok; [reflexivity|].
      unfold cartItem_delete. by rewrite (find_existsb _ _ ci).
    + unfold cartItemOf. simpl carts. rewrite Hc. simpl.
      apply find_filter_negb.
  - unfold addOrUpdateCartItem. eapply transaction_Throw.
    unfold addOrUpdateCartItem_body.
    erewrite bind_Ok by exact Hcart.
    erewrite bind_Ok by exact Hprod.
    erewrite bind_Ok by exact Hitem.
    rewrite Hp. cbv zeta. rewrite Hok. reflexivity.
Qed.

Lemma set_to_zero_removes_witness :
  match cartItemOf Example.db "u1" "p1" with
  | Some ci =>
      ∃ db',
        addOrUpdateCartItem Example.env "u1" "p1" 0 false Example.db
        = (Ok (mkCartItemResponse
                 ("Successfully removed product "
                    +:+ product_name Example.arabica +:+ " from cart!")
                 None),
           db')
        ∧ cartItems db'
          = List.filter (λ ci', negb (has_key (ci_cartId ci) "p1" ci'))
                        (cartItems Example.db)
        ∧ cartItemOf db' "u1" "p1" = None
        ∧ products db' = products Example.db
        ∧ carts db' = carts Example.db
  | None =>
      addOrUpdateCartItem Example.env "u1" "p1" 0 false Example.db
      = (Throw (ThrowObject 404 "CART_ITEM_NOT_FOUND" "Cart item not found!"),
         Example.db)
  end.
Proof.
  apply set_to_zero_removes.
  - apply cuid_fresh_check. by vm_compute.
  - by vm_compute.
  - by vm_compute.
Defined.

(** The scenario "set quantity to zero": [u1] holds two Arabica and
    removes them; [u2] holds none and gets CART_ITEM_NOT_FOUND. *)
Lemma set_to_zero_example :
  (addOrUpdateCartItem Example.env "u1" "p1" 0 false Example.db).1
  = Ok (mkCartItemResponse "Successfully removed product Arabica from cart!"
          None)
  ∧ cartItems (addOrUpdateCartItem Example.env "u1" "p1" 0 false Example.db).2
    = [mkCartItem "c1" "p2" 1; mkCartItem "c2" "p3" 2]
  ∧ addOrUpdateCartItem Example.env "u2" "p1" 0 false Example.db
    = (Throw (ThrowObject 404 "CART_ITEM_NOT_FOUND" "Cart item not found!"),
       Example.db).
Proof. split; [|split]; by vm_compute. Qed.

(** ** Invariants of the cart services *)

Section keeps.
Context (I : Db → Prop).

Lemma keeps_ret {A} (a : A) : keeps I (mret a).
Proof. by intros db r db' HI [= _ <-]. Qed.

Lemma keeps_gets {A} (f : Db → A) : keeps I (gets f).
Proof. by intros db r db' HI [= _ <-]. Qed.

Lemma keeps_throw {A} (e : Thrown) : keeps I (throw (A:=A) e).
Proof. by intros db r db' HI [= _ <-]. Qed.

Lemma keeps_lift {A} (r : Result A) : keeps I (lift r).
Proof. by intros db r' db' HI [= _ <-]. Qed.

Lemma keeps_modify (f : Db → Db) :
  (∀ db, I db → I (f db)) → keeps I (modify f).
Proof. intros Hf db r db' HI [= _ <-]. by apply Hf. Qed.

Lemma keeps_bind {A B} (m : Tx A) (f : A → Tx B) :
  keeps I m → (∀ a, keeps I (f a)) → keeps I (m ≫= f).
Proof.
  intros Hm Hf db r db' HI. rewrite bind_run.
  destruct (m db) as [[a|e] db1] eqn:Hrun.
  - apply (Hf a). by apply (Hm db (Ok a)).
  - intros [= _ <-]. by apply (Hm db (Throw e)).
Qed.

Lemma keeps_forM_ {A} (f : A → Tx unit) (l : list A) :
  (∀ a, keeps I (f a)) → keeps I (forM_ f l).
Proof.
  intros Hf. induction l as [|x l IH]; simpl.
  - apply keeps_ret.
  - apply keeps_bind; [apply Hf|]. intros _. apply IH.
Qed.

Lemma keeps_transaction {A} (m : Tx A) : keeps I m → keeps I (transaction m).
Proof.
  intros Hm db r db' HI. unfold transaction.
  destruct (m db) as [[a|e] db1] eqn:Hrun.
  - intros [= _ <-]. by apply (Hm db (Ok a)).
  - by intros [= _ <-].
Qed.

(** Queries that leave [I] alone because they write other tables, or
    none. *)
Context (I_carts : ∀ f db, I db → I (set_carts f db)).

Lemma keeps_cart_upsert (env : Env) (userId : string) :
  keeps I (cart_upsert env userId).
Proof.
  intros db r db' HI. unfold cart_upsert.
  destruct (carts db !! userId); [by intros [= _ <-]|].
  case_bool_decide; intros [= _ <-]; [done|]. by apply I_carts.
Qed.

End keeps.

Section keeps_cartItems.
(** Invariants of the table of cart items alone. *)
Context (J : list CartItem → Prop).

Lemma keeps_items_cart_upsert (env : Env) (userId : string) :
  keeps (on_cartItems J) (cart_upsert env userId).
Proof. by apply keeps_cart_upsert. Qed.

Lemma keeps_items_order_create (order : Order) (items : list OrderItem) :
  keeps (on_cartItems J) (order_create order items).
Proof.
  intros db r db' HI. unfold order_create.
  by destruct (existsb _ _); intros [= _ <-].
Qed.

Lemma keeps_items_transaction_create (t : Transaction) :
  keeps (on_cartItems J) (transaction_create t).
Proof.
  intros db r db' HI. unfold transaction_create.
  by destruct (existsb _ _); intros [= _ <-].
Qed.

Lemma keeps_items_product_update_decrement (id : string) (quantity : Z) :
  keeps (on_cartItems J) (product_update_decrement id quantity).
Proof.
  intros db r db' HI. unfold product_update_decrement.
  by destruct (products db !! id); intros [= _ <-].
Qed.

Lemma keeps_items_cart_findUnique_withItems (userId : string) :
  keeps (on_cartItems J) (cart_findUnique_withItems userId).
Proof.
  intros db r db' HI. unfold cart_findUnique_withItems.
  destruct (carts db !! userId); [|by intros [= _ <-]].
  by destruct (mapM _ _); intros [= _ <-].
Qed.

Lemma keeps_items_cart_selectItems (id : string) :
  keeps (on_cartItems J) (cart_selectItems id).
Proof.
  intros db r db' HI. unfold cart_selectItems.
  by destruct (mapM _ _); intros [= _ <-].
Qed.

(** Invariants that hold of every part of a table that has them. *)
Context (J_filter : ∀ f l, J l → J (List.filter f l)).

Lemma keeps_items_cartItem_delete (cartId productId : string) :
  keeps (on_cartItems J) (cartItem_delete cartId productId).
Proof.
  intros db r db' HI. unfold cartItem_delete.
  destruct (existsb _ _); intros [= _ <-]; [|done]. by apply J_filter.
Qed.

Lemma keeps_items_cartItem_deleteMany (cartId : string) :
  keeps (on_cartItems J) (cartItem_deleteMany cartId).
Proof. apply keeps_modify. intros db HI. by apply J_filter. Qed.

Context (J_delete : ∀ (i : nat) l, J l → J (delete i l)).

Lemma keeps_items_cartItem_delete_id (id : nat) :
  keeps (on_cartItems J) (cartItem_delete_id id).
Proof.
  intros db r db' HI. unfold cartItem_delete_id.
  destruct (cartItems db !! id); intros [= _ <-]; [|done]. by apply J_delete.
Qed.

Lemma keeps_items_deleteCartItem (userId productId : string) :
  keeps (on_cartItems J) (deleteCartItem userId productId).
Proof.
  unfold deleteCartItem. apply keeps_bind; [apply keeps_gets|].
  intros [id|]; [apply keeps_items_cartItem_delete_id|apply keeps_throw].
Qed.

(** The checkout only ever deletes cart items. *)
Lemma keeps_items_checkout (env : Env) (userId shippingAddressId : string) :
  keeps (on_cartItems J) (checkout env userId shippingAddressId).
Proof.
  apply keeps_transaction. unfold checkout_body.
  apply keeps_bind; [apply keeps_items_cart_findUnique_withItems|].
  intros [[cart_id cart_cartItems]|]; [|apply keeps_throw].
  destruct (_ =? 0); [apply keeps_throw|].
  apply keeps_bind; [apply keeps_gets|]. intros shippingAddress.
  destruct (_ =? 0); [apply keeps_throw|].
  apply keeps_bind; [apply keeps_gets|]. intros products.
  apply keeps_bind; [apply keeps_gets|]. intros cartItems.
  apply keeps_bind; [apply keeps_lift|]. intros _.
  apply keeps_bind; [apply keeps_items_order_create|]. intros order.
  apply keeps_bind; [apply keeps_items_transaction_create|]. intros t.
  apply keeps_bind.
  { apply keeps_forM_. intros entry.
    apply keeps_items_product_update_decrement. }
  intros _.
  apply keeps_bind; [apply keeps_items_cartItem_deleteMany|]. intros _.
  apply keeps_ret.
Qed.

(** [getCart] writes no cart item. *)
Lemma keeps_items_getCart (env : Env) (userId : string) :
  keeps (on_cartItems J) (getCart env userId).
Proof.
  unfold getCart. apply keeps_bind.
  { apply keeps_transaction. unfold cart_upsert_selectItems.
    apply keeps_bind; [apply keeps_items_cart_upsert|].
    intros id. apply keeps_items_cart_selectItems. }
  intros result. apply keeps_bind; [apply keeps_lift|].
  intros total. apply keeps_ret.
Qed.

End keeps_cartItems.

Section unique.

Lemma sublist_List_filter {X} (f : X → bool) (l : list X) :
  List.filter f l `sublist_of` l.
Proof.
  induction l as [|x l IH]; simpl; [done|].
  destruct (f x); by constructor.
Qed.

Lemma NoDup_map_sublist {X K} (g : X → K) (l1 l2 : list X) :
  l1 `sublist_of` l2 → NoDup (map g l2) → NoDup (map g l1).
Proof.
  intros Hsub Hnd.
  exact (sublist_NoDup _ _ Hnd (fmap_sublist g _ _ Hsub)).
Qed.

Lemma has_key_key (cartId productId : string) (ci : CartItem) :
  has_key cartId productId ci = bool_decide (key ci = (cartId, productId)).
Proof.
  unfold has_key, key. destruct ci as [c p q]. simpl.
  repeat case_bool_decide; simpl; congruence.
Qed.

Lemma map_key_update (cartId productId : string) (g : Z → Z)
    (l : list CartItem) :
  map key (map (λ ci, if has_key cartId productId ci
                      then mkCartItem cartId productId (g (ci_quantity ci))
                      else ci) l)
  = map key l.
Proof.
  rewrite map_map. apply map_ext. intros ci.
  destruct (has_key cartId productId ci) eqn:Hk; [|done].
  rewrite has_key_key in Hk. by apply bool_decide_eq_true in Hk.
Qed.

Lemma keeps_unique_cartItem_upsert (cartId productId : string)
    (update : QuantityUpdate) (create : Z) :
  keeps unique_keys (cartItem_upsert cartId productId update create).
Proof.
  intros db r db' HI. unfold cartItem_upsert. cbv zeta.
  destruct (existsb (has_key cartId productId) (cartItems db)) eqn:Hex.
  - destruct (List.find _ _); intros [= _ <-];
      unfold unique_keys; simpl cartItems; by rewrite map_key_update.
  - assert (Hnew : NoDup (map key (cartItems db
                                   ++ [mkCartItem cartId productId create]))).
    { rewrite map_app. apply NoDup_app. split; [done|]. split.
      - intros k Hk Hin. apply list_elem_of_singleton in Hin. simpl in Hin.
        subst k. apply list_elem_of_fmap in Hk as (ci & Hkey & Hci).
        apply not_true_iff_false in Hex. apply Hex.
        apply existsb_exists. exists ci. split; [by apply list_elem_of_In|].
        rewrite has_key_key. by apply bool_decide_eq_true.
      - apply NoDup_singleton. }
    by destruct (List.find _ _); intros [= _ <-].
Qed.

Lemma keeps_unique_addOrUpdateCartItem (env : Env) (userId productId : string)
    (quantity : Z) (isIncrement : bool) :
  keeps unique_keys
        (addOrUpdateCartItem env userId productId quantity isIncrement).
Proof.
  apply keeps_transaction. unfold addOrUpdateCartItem_body.
  apply keeps_bind; [by apply (keeps_items_cart_upsert (λ l, NoDup (map key l)))|].
  intros cart. apply keeps_bind; [apply keeps_gets|]. intros [product|].
  2: { apply keeps_bind; [apply keeps_gets|]. intros _. apply keeps_throw. }
  apply keeps_bind; [apply keeps_gets|]. intros cartItem. cbv zeta.
  destruct (exceeds _ _); [apply keeps_throw|].
  destruct (negb isIncrement && _).
  - destruct cartItem; [|apply keeps_throw].
    apply keeps_bind; [|intros _; apply keeps_ret].
    apply (keeps_items_cartItem_delete (λ l, NoDup (map key l))).
    intros f l. apply NoDup_map_sublist, sublist_List_filter.
  - apply keeps_bind; [|intros u; apply keeps_ret].
    apply keeps_unique_cartItem_upsert.
Qed.

Lemma unique_keys_check (db : Db) :
  bool_decide (NoDup (map key (cartItems db))) = true → unique_keys db.
Proof. apply bool_decide_eq_true. Qed.

End unique.

(** X1: whatever the arguments and however the call ends, the services of
    the cart leave the pairs (cart, product) of the cart items distinct
    when they were: [addOrUpdateCartItem] adds a row only for a pair that
    has none. *)
Theorem services_keep_unique_keys (db : Db) :
  unique_keys db →
  (∀ env userId productId quantity isIncrement,
     unique_keys
       (addOrUpdateCartItem env userId productId quantity isIncrement db).2)
  ∧ (∀ userId productId, unique_keys (deleteCartItem userId productId db).2)
  ∧ (∀ env userId shippingAddressId,
       unique_keys (checkout env userId shippingAddressId db).2)
  ∧ (∀ env userId, unique_keys (getCart env userId db).2).
Proof.
  intros Huniq.
  assert (Hfilter : ∀ (f : CartItem → bool) l,
            NoDup (map key l) → NoDup (map key (List.filter f l))).
  { intros f l. apply NoDup_map_sublist, sublist_List_filter. }
  assert (Hdelete : ∀ (i : nat) (l : list CartItem),
            NoDup (map key l) → NoDup (map key (delete i l))).
  { intros i l. apply NoDup_map_sublist, sublist_delete. }
  split; [|split; [|split]].
  - intros env userId productId quantity isIncrement.
    destruct (addOrUpdateCartItem _ _ _ _ _ db) as [r db'] eqn:Hrun.
    eapply keeps_unique_addOrUpdateCartItem; [exact Huniq|exact Hrun].
  - intros userId productId.
    destruct (deleteCartItem _ _ db) as [r db'] eqn:Hrun.
    eapply (keeps_items_deleteCartItem (λ l, NoDup (map key l)) Hdelete);
      [exact Huniq|exact Hrun].
  - intros env userId shippingAddressId.
    destruct (checkout _ _ _ db) as [r db'] eqn:Hrun.
    eapply (keeps_items_checkout (λ l, NoDup (map key l)) Hfilter);
      [exact Huniq|exact Hrun].
  - intros env userId.
    destruct (getCart _ _ db) as [r db'] eqn:Hrun.
    eapply (keeps_items_getCart (λ l, NoDup (map key l)));
      [exact Huniq|exact Hrun].
Qed.

Lemma services_keep_unique_keys_witness :
  unique_keys
    (addOrUpdateCartItem Example.env "u2" "p1" 3 true Example.db).2
  ∧ unique_keys (deleteCartItem "u1" "p2" Example.db).2
  ∧ unique_keys (checkout Example.env "u1" "a1" Example.db).2
  ∧ unique_keys (getCart Example.env "u3" Example.db).2.
Proof.
  destruct (services_keep_unique_keys Example.db) as (Hadd & Hdel & Hout & Hget).
  - apply unique_keys_check. by vm_compute.
  - split; [apply Hadd|split; [apply Hdel|split; [apply Hout|apply Hget]]].
Defined.

Section keeps_shop.
(** Invariants that do not mention the carts nor the cart items. *)
Context (I : Db → Prop).
Context (I_carts : ∀ f db, I db → I (set_carts f db)).
Context (I_cartItems : ∀ f db, I db → I (set_cartItems f db)).

Lemma keeps_shop_cartItem_delete (cartId productId : string) :
  keeps I (cartItem_delete cartId productId).
Proof.
  intros db r db' HI. unfold cartItem_delete.
  destruct (existsb _ _); intros [= _ <-]; [|done]. by apply I_cartItems.
Qed.

Lemma keeps_shop_cartItem_upsert (cartId productId : string)
    (update : QuantityUpdate) (create : Z) :
  keeps I (cartItem_upsert cartId productId update create).
Proof.
  intros db r db' HI. unfold cartItem_upsert. cbv zeta.
  destruct (existsb _ _);
    destruct (List.find _ _); intros [= _ <-]; by apply I_cartItems.
Qed.

Lemma keeps_shop_cartItem_delete_id (id : nat) :
  keeps I (cartItem_delete_id id).
Proof.
  intros db r db' HI. unfold cartItem_delete_id.
  destruct (cartItems db !! id); intros [= _ <-]; [|done].
  by apply I_cartItems.
Qed.

Lemma keeps_shop_cart_selectItems (id : string) :
  keeps I (cart_selectItems id).
Proof.
  intros db r db' HI. unfold cart_selectItems.
  by destruct (mapM _ _); intros [= _ <-].
Qed.

Lemma keeps_shop_addOrUpdateCartItem (env : Env) (userId productId : string)
    (quantity : Z) (isIncrement : bool) :
  keeps I (addOrUpdateCartItem env userId productId quantity isIncrement).
Proof.
  apply keeps_transaction. unfold addOrUpdateCartItem_body.
  apply keeps_bind; [by apply keeps_cart_upsert|].
  intros cart. apply keeps_bind; [apply keeps_gets|]. intros [product|].
  2: { apply keeps_bind; [apply keeps_gets|]. intros _. apply keeps_throw. }
  apply keeps_bind; [apply keeps_gets|]. intros cartItem. cbv zeta.
  destruct (exceeds _ _); [apply keeps_throw|].
  destruct (negb isIncrement && _).
  - destruct cartItem; [|apply keeps_throw].
    apply keeps_bind; [|intros _; apply keeps_ret].
    apply keeps_shop_cartItem_delete.
  - apply keeps_bind; [|intros u; apply keeps_ret].
    apply keeps_shop_cartItem_upsert.
Qed.

Lemma keeps_shop_deleteCartItem (userId productId : string) :
  keeps I (deleteCartItem userId productId).
Proof.
  unfold deleteCartItem. apply keeps_bind; [apply keeps_gets|].
  intros [id|]; [apply keeps_shop_cartItem_delete_id|apply keeps_throw].
Qed.

Lemma keeps_shop_getCart (env : Env) (userId : string) :
  keeps I (getCart env userId).
Proof.
  unfold getCart. apply keeps_bind.
  { apply keeps_transaction. unfold cart_upsert_selectItems.
    apply keeps_bind; [by apply keeps_cart_upsert|].
    intros id. apply keeps_shop_cart_selectItems. }
  intros result. apply keeps_bind; [apply keeps_lift|].
  intros total. apply keeps_ret.
Qed.

End keeps_shop.

(** X2: whatever the arguments and however the call ends,
    [addOrUpdateCartItem], [deleteCartItem] and [getCart] write nothing but
    carts and cart items: products (and so every stock and price),
    addresses, orders, order items and transactions are as before. *)
Theorem cart_edits_leave_the_shop_alone (db : Db) :
  (∀ env userId productId quantity isIncrement,
     same_shop db
       (addOrUpdateCartItem env userId productId quantity isIncrement db).2)
  ∧ (∀ userId productId, same_shop db (deleteCartItem userId productId db).2)
  ∧ (∀ env userId, same_shop db (getCart env userId db).2).
Proof.
  assert (H0 : same_shop db db) by by repeat split.
  split; [|split].
  - intros env userId productId quantity isIncrement.
    destruct (addOrUpdateCartItem _ _ _ _ _ db) as [r db'] eqn:Hrun.
    eapply (keeps_shop_addOrUpdateCartItem (same_shop db));
      [done|done|exact H0|exact Hrun].
  - intros userId productId.
    destruct (deleteCartItem _ _ db) as [r db'] eqn:Hrun.
    eapply (keeps_shop_deleteCartItem (same_shop db));
      [done|exact H0|exact Hrun].
  - intros env userId.
    destruct (getCart _ _ db) as [r db'] eqn:Hrun.
    eapply (keeps_shop_getCart (same_shop db)); [done|exact H0|exact Hrun].
Qed.

(** ** Removing a cart item *)

Section delete.

Lemma find_list_find {X} (P : X → Prop) `{∀ x, Decision (P x)}
    (f : X → bool) (l : list X) :
  (∀ x, f x = true ↔ P x) →
  List.find f l = snd <$> list_find P l.
Proof.
  intros Hf. induction l as [|x l IH]; [done|]. simpl.
  destruct (decide (P x)) as [HP|HP].
  - apply Hf in HP. by rewrite HP.
  - destruct (f x) eqn:Hfx; [by apply Hf in Hfx|].
    rewrite IH. by destruct (list_find P l) as [[i y]|].
Qed.

(** The row that [deleteCartItem] looks up is the row of the user's cart
    for the product. *)
Lemma findFirst_id_cartItemOf (db : Db) (userId productId : string) :
  cartItemOf db userId productId
  = snd <$> list_find (λ ci, ci_productId ci = productId
                             ∧ carts db !! userId = Some (ci_cartId ci))
                      (cartItems db).
Proof.
  unfold cartItemOf. destruct (carts db !! userId) as [cartId|] eqn:Hcart.
  - simpl. apply find_list_find. intros ci. unfold has_key.
    rewrite andb_true_iff, !bool_decide_eq_true. split.
    + intros [-> ->]. done.
    + intros [-> [= ->]]. done.
  - simpl. destruct (list_find _ _) as [[i ci]|] eqn:Hfind; [|done].
    by apply list_find_Some in Hfind as (_ & [_ ?] & _).
Qed.

Lemma deleteCartItem_run (db : Db) (userId productId : string) :
  deleteCartItem userId productId db
  = match list_find (λ ci, ci_productId ci = productId
                           ∧ carts db !! userId = Some (ci_cartId ci))
                    (cartItems db) with
    | Some (i, ci) => (Ok ci, set_cartItems (delete i) db)
    | None => (Throw (ThrowError "Cart item not found."), db)
    end.
Proof.
  unfold deleteCartItem. rewrite bind_run.
  unfold cartItem_findFirst_id, gets.
  destruct (list_find _ _) as [[i ci]|] eqn:Hfind; [|done]. simpl.
  apply list_find_Some in Hfind as (Hi & _ & _).
  unfold cartItem_delete_id. by rewrite Hi.
Qed.

Lemma has_key_false_of_unique (cartId productId : string) (ci : CartItem)
    (l1 l2 : list CartItem) :
  NoDup (map key (l1 ++ ci :: l2)%list) →
  key ci = (cartId, productId) →
  ∀ x, x ∈ (l1 ++ l2)%list → has_key cartId productId x = false.
Proof.
  intros Hnd Hkey x Hx. rewrite has_key_key. apply bool_decide_eq_false.
  intros Hxkey. rewrite map_app in Hnd. simpl in Hnd.
  apply NoDup_app in Hnd as (_ & Hdisj & Hnd2).
  apply NoDup_cons in Hnd2 as [Hnot _].
  apply elem_of_app in Hx as [Hx|Hx].
  - apply (Hdisj (key x)).
    + apply list_elem_of_fmap. by exists x.
    + rewrite Hxkey, <- Hkey. by left.
  - apply Hnot. rewrite Hkey, <- Hxkey. apply list_elem_of_fmap. by exists x.
Qed.

End delete.

(** X3: [deleteCartItem] for a product that the user's cart does not hold
    (or for a user without a cart) fails with the error "Cart item not
    found." and changes nothing; unlike [addOrUpdateCartItem] it creates no
    cart. *)
Theorem deleteCartItem_not_found (db : Db) (userId productId : string) :
  cartItemOf db userId productId = None →
  deleteCartItem userId productId db
  = (Throw (ThrowError "Cart item not found."), db).
Proof.
  intros Hnone. rewrite deleteCartItem_run.
  rewrite findFirst_id_cartItemOf in Hnone.
  by destruct (list_find _ _) as [[i ci]|].
Qed.

Lemma deleteCartItem_not_found_witness :
  deleteCartItem "u2" "p1" Example.db
  = (Throw (ThrowError "Cart item not found."), Example.db).
Proof. apply deleteCartItem_not_found. by vm_compute. Defined.

(** X4: [deleteCartItem] for a product that the user's cart holds deletes
    that row, the first of its kind, and returns it; the other rows stay
    in their order and the carts are as before.  With the unique index
    on (cart, product) the cart no longer holds the product. *)
Theorem deleteCartItem_removes (db : Db) (userId productId : string)
    (ci : CartItem) :
  cartItemOf db userId productId = Some ci →
  ∃ db' l1 l2,
    deleteCartItem userId productId db = (Ok ci, db')
    ∧ cartItems db = (l1 ++ ci :: l2)%list
    ∧ cartItems db' = (l1 ++ l2)%list
    ∧ carts db' = carts db
    ∧ Forall (λ x, has_key (ci_cartId ci) productId x = false) l1
    ∧ (unique_keys db → cartItemOf db' userId productId = None).
Proof.
  intros Hsome. rewrite findFirst_id_cartItemOf in Hsome.
  destruct (list_find _ _) as [[i ci']|] eqn:Hfind; [|done].
  injection Hsome as ->.
  pose proof Hfind as Hspec. apply list_find_Some in Hspec as (Hi & [Hp Hc] & Hfirst).
  exists (set_cartItems (delete i) db), (take i (cartItems db)),
         (drop (S i) (cartItems db)).
  assert (Hsplit : cartItems db
                   = (take i (cartItems db) ++ ci :: drop (S i) (cartItems db))%list).
  { symmetry. by apply take_drop_middle. }
  split; [by rewrite deleteCartItem_run, Hfind|].
  split; [done|]. split; [simpl; apply delete_take_drop|].
  split; [done|]. split.
  - apply Forall_forall. intros x Hx.
    apply list_elem_of_lookup in Hx as [j Hj].
    pose proof (lookup_lt_Some _ _ _ Hj) as Hlt. rewrite length_take in Hlt.
    rewrite lookup_take_lt in Hj by lia.
    apply not_true_is_false. unfold has_key.
    rewrite andb_true_iff, !bool_decide_eq_true. intros [Hxc Hxp].
    apply (Hfirst j x Hj); [lia|]. split; [done|]. by rewrite Hxc.
  - intros Huniq. unfold cartItemOf. simpl carts. rewrite Hc. simpl.
    simpl cartItems. rewrite delete_take_drop.
    apply find_none. intros x Hx. apply list_elem_of_In in Hx.
    apply (has_key_false_of_unique _ _ ci (take i (cartItems db))
             (drop (S i) (cartItems db))); [|by rewrite <- Hp|done].
    unfold unique_keys in Huniq. by rewrite <- Hsplit.
Qed.

Lemma deleteCartItem_removes_witness :
  ∃ db' l1 l2,
    deleteCartItem "u1" "p2" Example.db = (Ok (mkCartItem "c1" "p2" 1), db')
    ∧ cartItems Example.db = (l1 ++ mkCartItem "c1" "p2" 1 :: l2)%list
    ∧ cartItems db' = (l1 ++ l2)%list
    ∧ carts db' = carts Example.db
    ∧ Forall (λ x, has_key (ci_cartId (mkCartItem "c1" "p2" 1)) "p2" x = false)
             l1
    ∧ (unique_keys Example.db → cartItemOf db' "u1" "p2" = None).
Proof. apply deleteCartItem_removes. by vm_compute. Defined.

(** ** Storing a quantity *)

Section upsert_runs.

Lemma upsert_reads_when (env : Env) (userId productId : string) (db : Db) :
  cart_available env db userId →
  cart_upsert env userId db = (Ok (cartOf env db userId), with_cart env userId db)
  ∧ product_findUnique productId (with_cart env userId db)
    = (Ok (products db !! productId), with_cart env userId db)
  ∧ cartItem_findFirst userId productId (with_cart env userId db)
    = (Ok (cartItemOf db userId productId), with_cart env userId db).
Proof.
  intros Hfresh. unfold cart_upsert, cartItemOf, cartOf, with_cart.
  destruct (carts db !! userId) as [cartId|] eqn:Hcart.
  - split; [done|]. split; [done|].
    unfold cartItem_findFirst, gets. rewrite Hcart. simpl. do 2 f_equal.
    apply find_ext. intros ci _. unfold has_key. f_equal.
    apply bool_decide_ext. split; congruence.
  - destruct (Hfresh Hcart) as (Hcarts & Hitems & _).
    rewrite bool_decide_eq_false_2 by done.
    split; [done|]. split; [done|].
    unfold cartItem_findFirst, gets. simpl carts. simpl cartItems.
    rewrite lookup_insert_eq. simpl. do 2 f_equal.
    apply find_none. intros ci Hin. apply list_elem_of_In in Hin.
    rewrite bool_decide_eq_false_2; [done|].
    intros [= Heq]. by apply (Hitems ci Hin).
Qed.

Lemma cartItemOf_find (env : Env) (db : Db) (userId productId : string) :
  cart_available env db userId →
  List.find (has_key (cartOf env db userId) productId)
            (cartItems (with_cart env userId db))
  = cartItemOf db userId productId.
Proof.
  intros Hfresh. unfold cartItemOf, cartOf, with_cart.
  destruct (carts db !! userId) as [cartId|] eqn:Hcart; [done|]. simpl.
  destruct (Hfresh Hcart) as (_ & Hitems & _).
  apply find_none. intros ci Hin. apply list_elem_of_In in Hin.
  unfold has_key. rewrite bool_decide_eq_false_2; [done|].
  by apply Hitems.
Qed.

Lemma has_key_mk (cartId productId : string) (quantity : Z) :
  has_key cartId productId (mkCartItem cartId productId quantity) = true.
Proof. unfold has_key. simpl. by rewrite !bool_decide_eq_true_2. Qed.

Lemma find_map_update (cartId productId : string) (g : Z → Z)
    (l : list CartItem) :
  List.find (has_key cartId productId)
    (map (λ ci, if has_key cartId productId ci
                then mkCartItem cartId productId (g (ci_quantity ci))
                else ci) l)
  = (λ ci, mkCartItem cartId productId (g (ci_quantity ci)))
      <$> List.find (has_key cartId productId) l.
Proof.
  induction l as [|x l IH]; [done|]. simpl.
  destruct (has_key cartId productId x) eqn:Hx.
  - by rewrite has_key_mk.
  - by rewrite Hx.
Qed.

Lemma find_app_new {X} (f : X → bool) (l : list X) (x : X) :
  List.find f l = None → f x = true → List.find f (l ++ [x]) = Some x.
Proof.
  intros Hnone Hx. induction l as [|y l IH]; simpl in *; [by rewrite Hx|].
  destruct (f y); [done|]. by apply IH.
Qed.

Lemma find_none_existsb {X} (f : X → bool) (l : list X) :
  List.find f l = None → existsb f l = false.
Proof.
  intros Hnone. apply not_true_is_false. intros Hex.
  apply existsb_exists in Hex as (x & Hin & Hx).
  by rewrite (List.find_none f l Hnone x Hin) in Hx.
Qed.

Lemma cartItem_upsert_update (cartId productId : string)
    (update : QuantityUpdate) (create : Z) (db : Db) (ci : CartItem) :
  List.find (has_key cartId productId) (cartItems db) = Some ci →
  cartItem_upsert cartId productId update create db
  = (Ok (apply_update update (ci_quantity ci), products db !! productId),
     set_cartItems
       (map (λ ci, if has_key cartId productId ci
                   then mkCartItem cartId productId
                          (apply_update update (ci_quantity ci))
                   else ci)) db).
Proof.
  intros Hfind. unfold cartItem_upsert. cbv zeta.
  rewrite (find_existsb _ _ ci Hfind). simpl cartItems.
  rewrite (find_map_update cartId productId (apply_update update)), Hfind.
  done.
Qed.

Lemma cartItem_upsert_create (cartId productId : string)
    (update : QuantityUpdate) (create : Z) (db : Db) :
  List.find (has_key cartId productId) (cartItems db) = None →
  cartItem_upsert cartId productId update create db
  = (Ok (create, products db !! productId),
     set_cartItems (λ l, (l ++ [mkCartItem cartId productId create])%list) db).
Proof.
  intros Hfind. unfold cartItem_upsert. cbv zeta.
  rewrite (find_none_existsb _ _ Hfind). simpl cartItems.
  by rewrite (find_app_new _ _ _ Hfind (has_key_mk _ _ _)).
Qed.

(** A call that stores a quantity: the product exists, the new quantity
    is within the stock, and it is not a request to set the quantity
    to 0. *)
Lemma upsert_run (env : Env) (userId productId : string) (quantity : Z)
    (isIncrement : bool) (db : Db) (product : Product) :
  cart_available env db userId →
  products db !! productId = Some product →
  newQuantity_of db userId productId quantity isIncrement ≤ available product →
  (isIncrement = false → quantity ≠ 0) →
  addOrUpdateCartItem env userId productId quantity isIncrement db
  = (Ok (mkCartItemResponse
           (upsert_message (cartItemOf db userId productId))
           (Some (newQuantity_of db userId productId quantity isIncrement,
                  Some product))),
     upserted env userId productId
       (if isIncrement then Increment quantity else SetTo quantity)
       quantity db).
Proof.
  intros Hfresh Hp Hle Hset.
  destruct (upsert_reads_when env userId productId db Hfresh)
    as (Hcart & Hprod & Hitem).
  pose proof (cartItemOf_find env db userId productId Hfresh) as Hfind.
  unfold addOrUpdateCartItem. eapply transaction_Ok.
  unfold addOrUpdateCartItem_body.
  erewrite bind_Ok by exact Hcart.
  erewrite bind_Ok by exact Hprod.
  erewrite bind_Ok by exact Hitem.
  rewrite Hp. cbv zeta.
  fold (existingQuantity db userId productId).
  fold (newQuantity_of db userId productId quantity isIncrement).
  rewrite exceeds_available.
  apply Z.ltb_ge in Hle. rewrite Hle.
  assert (Hbranch : negb isIncrement
                    && (newQuantity_of db userId productId quantity isIncrement
                        =? 0) = false).
  { destruct isIncrement; [done|]. simpl. apply Z.eqb_neq. by apply Hset. }
  rewrite Hbranch. unfold upserted.
  assert (Hsame : (if isIncrement then Increment quantity
                   else SetTo (newQuantity_of db userId productId quantity
                                 isIncrement))
                  = (if isIncrement then Increment quantity
                     else SetTo quantity)).
  { by destruct isIncrement. }
  rewrite Hsame.
  destruct (cartItemOf db userId productId) as [ci|] eqn:Hci.
  - assert (Hdb : with_cart env userId db = db).
    { unfold with_cart. unfold cartItemOf in Hci.
      by destruct (carts db !! userId). }
    rewrite Hdb in *.
    erewrite bind_Ok by (by apply cartItem_upsert_update).
    unfold mret, Tx_ret. rewrite Hp.
    unfold newQuantity_of, existingQuantity. rewrite Hci. simpl.
    by destruct isIncrement.
  - erewrite bind_Ok by (by apply cartItem_upsert_create).
    unfold mret, Tx_ret. simpl products.
    assert (Hprods : products (with_cart env userId db) = products db).
    { unfold with_cart. by destruct (carts db !! userId). }
    rewrite Hprods, Hp.
    unfold newQuantity_of, existingQuantity. rewrite Hci. simpl.
    by destruct isIncrement.
Qed.

Lemma cart_available_check (env : Env) (db : Db) (userId : string) :
  bool_decide (is_Some (carts db !! userId))
  || (negb (bool_decide (env_cuid env ∈ cart_ids db))
      && forallb (λ ci, negb (bool_decide (ci_cartId ci = env_cuid env)))
                 (cartItems db)
      && forallb (λ o, negb (bool_decide (order_id o = env_cuid env)))
                 (orders db))
  = true →
  cart_available env db userId.
Proof.
  intros Hall Hnone. apply orb_true_iff in Hall as [Hsome|Hfresh].
  - apply bool_decide_eq_true in Hsome. rewrite Hnone in Hsome.
    by destruct Hsome.
  - by apply cuid_fresh_check.
Qed.

End upsert_runs.

Section upserted_facts.

Lemma carts_with_cart (env : Env) (db : Db) (userId : string) :
  carts (with_cart env userId db) !! userId = Some (cartOf env db userId).
Proof.
  unfold with_cart, cartOf.
  destruct (carts db !! userId) as [c|] eqn:Hc; [done|].
  simpl. by rewrite lookup_insert_eq.
Qed.

Lemma products_with_cart (env : Env) (db : Db) (userId : string) :
  products (with_cart env userId db) = products db.
Proof. unfold with_cart. by destruct (carts db !! userId). Qed.

Lemma cartItems_with_cart (env : Env) (db : Db) (userId : string) :
  cartItems (with_cart env userId db) = cartItems db.
Proof. unfold with_cart. by destruct (carts db !! userId). Qed.

Lemma cartItemOf_Some_cart (env : Env) (db : Db) (userId productId : string)
    (ci : CartItem) :
  cartItemOf db userId productId = Some ci →
  carts db !! userId = Some (cartOf env db userId)
  ∧ List.find (has_key (cartOf env db userId) productId) (cartItems db)
    = Some ci.
Proof.
  unfold cartItemOf, cartOf.
  by destruct (carts db !! userId) as [c|]; simpl.
Qed.

Lemma carts_upserted (env : Env) (userId productId : string)
    (update : QuantityUpdate) (create : Z) (db : Db) :
  carts (upserted env userId productId update create db) !! userId
  = Some (cartOf env db userId).
Proof.
  unfold upserted. cbv zeta.
  destruct (cartItemOf db userId productId) as [ci|] eqn:Hci.
  - simpl. by apply (cartItemOf_Some_cart env) in Hci as [? _].
  - simpl. apply carts_with_cart.
Qed.

Lemma products_upserted (env : Env) (userId productId : string)
    (update : QuantityUpdate) (create : Z) (db : Db) :
  products (upserted env userId productId update create db) = products db.
Proof.
  unfold upserted. cbv zeta.
  destruct (cartItemOf db userId productId); simpl; [done|].
  apply products_with_cart.
Qed.

Lemma cartItemOf_upserted (env : Env) (userId productId : string)
    (update : QuantityUpdate) (create : Z) (db : Db) :
  cart_available env db userId →
  cartItemOf (upserted env userId productId update create db) userId productId
  = Some (mkCartItem (cartOf env db userId) productId
            (match cartItemOf db userId productId with
             | Some ci => apply_update update (ci_quantity ci)
             | None => create
             end)).
Proof.
  intros Hfresh. unfold cartItemOf at 1. rewrite carts_upserted. simpl.
  pose proof (cartItemOf_find env db userId productId Hfresh) as Hfind.
  unfold upserted. cbv zeta.
  destruct (cartItemOf db userId productId) as [ci|] eqn:Hci.
  - apply (cartItemOf_Some_cart env) in Hci as [_ Hci]. simpl cartItems.
    by rewrite (find_map_update _ _ (apply_update update)), Hci.
  - simpl cartItems. by apply find_app_new, has_key_mk.
Qed.

Lemma map_update_none (cartId productId : string) (g : Z → Z)
    (l : list CartItem) :
  List.find (has_key cartId productId) l = None →
  map (λ ci, if has_key cartId productId ci
             then mkCartItem cartId productId (g (ci_quantity ci))
             else ci) l
  = l.
Proof.
  intros Hnone. rewrite <- (map_id l) at 2. apply map_ext_in.
  intros ci Hin. by rewrite (List.find_none _ _ Hnone ci Hin).
Qed.

(** Two stored quantities in a row amount to one. *)
Lemma upserted_twice (env env2 : Env) (userId productId : string)
    (update1 update2 update : QuantityUpdate) (create1 create2 create : Z)
    (db : Db) :
  cart_available env db userId →
  (∀ z, apply_update update2 (apply_update update1 z) = apply_update update z) →
  apply_update update2 create1 = create →
  upserted env2 userId productId update2 create2
           (upserted env userId productId update1 create1 db)
  = upserted env userId productId update create db.
Proof.
  intros Hfresh Hupd Hcreate.
  pose proof (cartItemOf_find env db userId productId Hfresh) as Hfind.
  assert (Hc2 : cartOf env2 (upserted env userId productId update1 create1 db)
                  userId
                = cartOf env db userId).
  { unfold cartOf at 1. by rewrite carts_upserted. }
  unfold upserted at 1. cbv zeta.
  rewrite cartItemOf_upserted by done. rewrite !Hc2.
  unfold upserted. cbv zeta.
  destruct (cartItemOf db userId productId) as [ci|] eqn:Hci.
  - unfold set_cartItems. simpl. f_equal.
    rewrite map_map. apply map_ext. intros x.
    destruct (has_key _ _ x) eqn:Hx; [|by rewrite Hx].
    rewrite has_key_mk. simpl. by rewrite Hupd.
  - unfold set_cartItems. simpl. f_equal.
    rewrite map_app. simpl. rewrite has_key_mk. simpl. rewrite Hcreate.
    by rewrite (map_update_none _ _ (apply_update update2)).
Qed.

Lemma filter_others_update (cartId productId : string) (g : Z → Z)
    (l : list CartItem) :
  List.filter (λ ci, negb (has_key cartId productId ci))
    (map (λ ci, if has_key cartId productId ci
                then mkCartItem cartId productId (g (ci_quantity ci))
                else ci) l)
  = List.filter (λ ci, negb (has_key cartId productId ci)) l.
Proof.
  induction l as [|x l IH]; [done|]. simpl.
  destruct (has_key cartId productId x) eqn:Hx.
  - rewrite has_key_mk. simpl. apply IH.
  - rewrite Hx. simpl. by rewrite IH.
Qed.

Lemma filter_others_upserted (env : Env) (userId productId : string)
    (update : QuantityUpdate) (create : Z) (db : Db) :
  List.filter (λ ci, negb (has_key (cartOf env db userId) productId ci))
    (cartItems (upserted env userId productId update create db))
  = List.filter (λ ci, negb (has_key (cartOf env db userId) productId ci))
      (cartItems db).
Proof.
  unfold upserted. cbv zeta.
  destruct (cartItemOf db userId productId).
  - simpl. apply (filter_others_update _ _ (apply_update update)).
  - simpl. rewrite List.filter_app. simpl. rewrite has_key_mk. simpl.
    by rewrite app_nil_r, cartItems_with_cart.
Qed.

End upserted_facts.

(** X5: [addOrUpdateCartItem] for a product that does not exist fails with
    PRODUCT_NOT_FOUND (404) whatever the quantity, and the database is as
    before: the cart that the call may have created for the user is rolled
    back with it. *)
Theorem upsert_product_not_found (env : Env) (userId productId : string)
    (quantity : Z) (isIncrement : bool) (db : Db) :
  cart_available env db userId →
  products db !! productId = None →
  addOrUpdateCartItem env userId productId quantity isIncrement db
  = (Throw (ThrowObject 404 "PRODUCT_NOT_FOUND" "Product not found"), db).
Proof.
  intros Hfresh Hp.
  destruct (upsert_reads_when env userId productId db Hfresh)
    as (Hcart & Hprod & Hitem).
  unfold addOrUpdateCartItem. eapply transaction_Throw.
  unfold addOrUpdateCartItem_body.
  erewrite bind_Ok by exact Hcart.
  erewrite bind_Ok by exact Hprod.
  erewrite bind_Ok by exact Hitem.
  rewrite Hp. reflexivity.
Qed.

Lemma upsert_product_not_found_witness :
  addOrUpdateCartItem Example.env "u3" "p9" 1 true Example.db
  = (Throw (ThrowObject 404 "PRODUCT_NOT_FOUND" "Product not found"),
     Example.db).
Proof.
  apply upsert_product_not_found.
  - apply cart_available_check. by vm_compute.
  - by vm_compute.
Defined.

(** X6: when the product exists, the quantities are values of the
    INTEGER column, the new quantity (the existing one plus the requested
    one when incrementing, the requested one when setting) is within the
    stock, and the call is not a request to set the quantity to 0,
    [addOrUpdateCartItem] succeeds: it answers with the new quantity and
    the product, the user has a cart whose row for the product holds the
    new quantity, and all other cart items are as before. *)
Theorem upsert_stores_new_quantity (env : Env) (userId productId : string)
    (quantity : Z) (isIncrement : bool) (db : Db) (product : Product) :
  cart_available env db userId →
  products db !! productId = Some product →
  int4 quantity →
  int4 (newQuantity_of db userId productId quantity isIncrement) →
  newQuantity_of db userId productId quantity isIncrement ≤ available product →
  (isIncrement = false → quantity ≠ 0) →
  let newQuantity := newQuantity_of db userId productId quantity isIncrement in
  let cartId := cartOf env db userId in
  ∃ db',
    addOrUpdateCartItem env userId productId quantity isIncrement db
    = (Ok (mkCartItemResponse
             (upsert_message (cartItemOf db userId productId))
             (Some (newQuantity, Some product))),
       db')
    ∧ carts db' !! userId = Some cartId
    ∧ cartItemOf db' userId productId
      = Some (mkCartItem cartId productId newQuantity)
    ∧ List.filter (λ ci, negb (has_key cartId productId ci)) (cartItems db')
      = List.filter (λ ci, negb (has_key cartId productId ci)) (cartItems db).
Proof.
  intros Hfresh Hp _ _ Hle Hset newQuantity cartId.
  exists (upserted env userId productId
            (if isIncrement then Increment quantity else SetTo quantity)
            quantity db).
  split; [by apply upsert_run|]. split; [apply carts_upserted|].
  split; [|apply filter_others_upserted].
  rewrite cartItemOf_upserted by done. do 2 f_equal.
  unfold newQuantity, newQuantity_of, existingQuantity.
  destruct (cartItemOf db userId productId); simpl; destruct isIncrement;
    simpl; lia.
Qed.

(** Two Arabica in the cart of [u1], three more are added. *)
Lemma upsert_stores_new_quantity_witness :
  ∃ db',
    addOrUpdateCartItem Example.env "u1" "p1" 3 true Example.db
    = (Ok (mkCartItemResponse "Successfully updated cart item!"
             (Some (5, Some Example.arabica))),
       db')
    ∧ carts db' !! "u1" = Some "c1"
    ∧ cartItemOf db' "u1" "p1" = Some (mkCartItem "c1" "p1" 5)
    ∧ List.filter (λ ci, negb (has_key "c1" "p1" ci)) (cartItems db')
      = [mkCartItem "c1" "p2" 1; mkCartItem "c2" "p3" 2].
Proof.
  assert (Hc1 : cartOf Example.env Example.db "u1" = "c1") by by vm_compute.
  destruct (upsert_stores_new_quantity Example.env "u1" "p1" 3 true Example.db
              Example.arabica) as (db' & Hrun & Hcart & Hitem & Hothers).
  - apply cart_available_check. by vm_compute.
  - by vm_compute.
  - unfold int4. lia.
  - by vm_compute.
  - by vm_compute.
  - done.
  - rewrite Hc1 in Hcart, Hitem, Hothers. exists db'.
    split; [rewrite Hrun; f_equal; by vm_compute|].
    split; [exact Hcart|].
    split; [rewrite Hitem; by vm_compute|].
    rewrite Hothers. by vm_compute.
Defined.

(** The scenario "add to cart twice": two Arabica in the cart of [u1],
    three more are added; [u2] adds a first Robusta. *)
Lemma upsert_example :
  (addOrUpdateCartItem Example.env "u1" "p1" 3 true Example.db).1
  = Ok (mkCartItemResponse "Successfully updated cart item!"
          (Some (5, Some Example.arabica)))
  ∧ cartItems (addOrUpdateCartItem Example.env "u1" "p1" 3 true Example.db).2
    ≡ₚ [mkCartItem "c1" "p1" 5; mkCartItem "c1" "p2" 1; mkCartItem "c2" "p3" 2]
  ∧ (addOrUpdateCartItem Example.env "u2" "p2" 1 true Example.db).1
    = Ok (mkCartItemResponse "Successfully added product to cart!"
            (Some (1, Some Example.robusta)))
  ∧ cartItems (addOrUpdateCartItem Example.env "u2" "p2" 1 true Example.db).2
    = [mkCartItem "c1" "p1" 2; mkCartItem "c1" "p2" 1; mkCartItem "c2" "p3" 2;
       mkCartItem "c2" "p2" 1].
Proof. split; [|split; [|split]]; by vm_compute. Qed.

Section compose.

Lemma cart_available_upserted (env env2 : Env) (userId productId : string)
    (update : QuantityUpdate) (create : Z) (db : Db) :
  cart_available env2 (upserted env userId productId update create db) userId.
Proof. intros Hnone. by rewrite carts_upserted in Hnone. Qed.

Lemma existingQuantity_upserted (env : Env) (userId productId : string)
    (quantity : Z) (isIncrement : bool) (db : Db) :
  cart_available env db userId →
  existingQuantity
    (upserted env userId productId
       (if isIncrement then Increment quantity else SetTo quantity)
       quantity db)
    userId productId
  = newQuantity_of db userId productId quantity isIncrement.
Proof.
  intros Hfresh. unfold existingQuantity at 1.
  rewrite cartItemOf_upserted by done. simpl.
  unfold newQuantity_of, existingQuantity.
  destruct (cartItemOf db userId productId); simpl; destruct isIncrement;
    simpl; lia.
Qed.

(** A call that removes the row of a product. *)
Lemma set_to_zero_run (env : Env) (userId productId : string) (db : Db)
    (product : Product) (ci : CartItem) :
  products db !! productId = Some product →
  0 ≤ available product →
  cartItemOf db userId productId = Some ci →
  addOrUpdateCartItem env userId productId 0 false db
  = (Ok (mkCartItemResponse
           ("Successfully removed product " +:+ product_name product
              +:+ " from cart!")
           None),
     set_cartItems
       (List.filter (λ x, negb (has_key (cartOf env db userId) productId x)))
       db).
Proof.
  intros Hp Hstock Hci.
  assert (Hfresh : cart_available env db userId).
  { intros Hnone. unfold cartItemOf in Hci. by rewrite Hnone in Hci. }
  destruct (upsert_reads_when env userId productId db Hfresh)
    as (Hcart & Hprod & Hitem).
  assert (Hdb : with_cart env userId db = db).
  { unfold with_cart. unfold cartItemOf in Hci.
    by destruct (carts db !! userId). }
  rewrite Hdb in *.
  apply (cartItemOf_Some_cart env) in Hci as Hfind. destruct Hfind as [_ Hfind].
  unfold addOrUpdateCartItem. eapply transaction_Ok.
  unfold addOrUpdateCartItem_body.
  erewrite bind_Ok by exact Hcart.
  erewrite bind_Ok by exact Hprod.
  erewrite bind_Ok by exact Hitem.
  rewrite Hp, Hci. cbv zeta. rewrite exceeds_available.
  apply Z.ltb_ge in Hstock. rewrite Hstock.
  change (negb false && (0 =? 0)) with true. cbv iota.
  erewrite bind_Ok; [reflexivity|].
  unfold cartItem_delete. by rewrite (find_existsb _ _ ci).
Qed.

Lemma filter_all {X} (f : X → bool) (l : list X) :
  (∀ x, x ∈ l → f x = true) → List.filter f l = l.
Proof.
  induction l as [|x l IH]; intros Hall; [done|]. simpl.
  rewrite (Hall x) by by left. f_equal. apply IH. intros y Hy.
  apply Hall. by right.
Qed.

Lemma set_cartItems_back (f g : list CartItem → list CartItem) (db : Db) :
  f (g (cartItems db)) = cartItems db →
  set_cartItems f (set_cartItems g db) = db.
Proof. intros Hfg. destruct db. unfold set_cartItems. simpl in *. by f_equal. Qed.

End compose.

(** X7: increments add up.  Adding [q1] and then [q2] of a product, both
    within the stock and with all quantities values of the INTEGER
    column, leaves the database as adding [q1 + q2] at once does, and the
    second answer carries the same quantity. *)
Theorem upsert_increments_add_up (env env2 : Env) (userId productId : string)
    (q1 q2 : Z) (db : Db) (product : Product) :
  cart_available env db userId →
  products db !! productId = Some product →
  int4 q1 → int4 q2 → int4 (q1 + q2) →
  int4 (existingQuantity db userId productId + q1) →
  int4 (existingQuantity db userId productId + q1 + q2) →
  existingQuantity db userId productId + q1 ≤ available product →
  existingQuantity db userId productId + q1 + q2 ≤ available product →
  ∃ r1 db1 r2 db2 r,
    addOrUpdateCartItem env userId productId q1 true db = (Ok r1, db1)
    ∧ addOrUpdateCartItem env2 userId productId q2 true db1 = (Ok r2, db2)
    ∧ addOrUpdateCartItem env userId productId (q1 + q2) true db = (Ok r, db2)
    ∧ data r2 = data r
    ∧ cartItemOf db2 userId productId
      = Some (mkCartItem (cartOf env db userId) productId
                (existingQuantity db userId productId + q1 + q2)).
Proof.
  intros Hfresh Hp _ _ _ _ _ Hle1 Hle2.
  pose proof (upsert_run env userId productId q1 true db product Hfresh Hp)
    as Hrun1.
  pose proof (upsert_run env userId productId (q1 + q2) true db product
                Hfresh Hp) as Hrun.
  pose proof (upsert_run env2 userId productId q2 true
                (upserted env userId productId (Increment q1) q1 db) product
                (cart_available_upserted _ _ _ _ _ _ _)) as Hrun2.
  rewrite products_upserted in Hrun2.
  unfold newQuantity_of at 1 in Hrun2.
  rewrite (existingQuantity_upserted env userId productId q1 true) in Hrun2
    by done.
  unfold newQuantity_of in Hrun1, Hrun, Hrun2 |- *.
  assert (Htwice :
    upserted env2 userId productId (Increment q2) q2
      (upserted env userId productId (Increment q1) q1 db)
    = upserted env userId productId (Increment (q1 + q2)) (q1 + q2) db).
  { apply upserted_twice; [done|intros z; simpl; lia|simpl; lia]. }
  eexists _, _, _, _, _.
  split; [apply Hrun1; [done|done]|].
  split; [apply Hrun2; [done|done|done]|].
  split; [|split].
  - rewrite Hrun by (done || lia). f_equal. by symmetry.
  - simpl. rewrite (existingQuantity_upserted env userId productId q1 true)
      by done.
    unfold newQuantity_of. do 2 f_equal. lia.
  - rewrite Htwice, cartItemOf_upserted by done. do 2 f_equal.
    unfold existingQuantity.
    destruct (cartItemOf db userId productId); simpl; lia.
Qed.

(** [u2] adds one Arabica and then two more. *)
Lemma upsert_increments_add_up_witness :
  ∃ r1 db1 r2 db2 r,
    addOrUpdateCartItem Example.env "u2" "p1" 1 true Example.db = (Ok r1, db1)
    ∧ addOrUpdateCartItem Example.env "u2" "p1" 2 true db1 = (Ok r2, db2)
    ∧ addOrUpdateCartItem Example.env "u2" "p1" 3 true Example.db
      = (Ok r, db2)
    ∧ data r2 = Some (3, Some Example.arabica)
    ∧ data r = Some (3, Some Example.arabica)
    ∧ cartItemOf db2 "u2" "p1" = Some (mkCartItem "c2" "p1" 3).
Proof.
  destruct (upsert_increments_add_up Example.env Example.env "u2" "p1" 1 2
              Example.db Example.arabica)
    as (r1 & db1 & r2 & db2 & r & Hrun1 & Hrun2 & Hrun & Hdata & Hitem).
  - apply cart_available_check. by vm_compute.
  - by vm_compute.
  - unfold int4. lia.
  - unfold int4. lia.
  - unfold int4. lia.
  - by vm_compute.
  - by vm_compute.
  - by vm_compute.
  - by vm_compute.
  - exists r1, db1, r2, db2, r.
    split; [exact Hrun1|]. split; [exact Hrun2|]. split; [exact Hrun|].
    assert (Hr : r = mkCartItemResponse "Successfully added product to cart!"
                       (Some (3, Some Example.arabica))).
    { change (1 + 2) with 3 in Hrun.
      assert (Hfst : (addOrUpdateCartItem Example.env "u2" "p1" 3 true
                        Example.db).1 = Ok r) by by rewrite Hrun.
      vm_compute in Hfst. by injection Hfst as <-. }
    split; [by rewrite Hdata, Hr|]. split; [by rewrite Hr|].
    rewrite Hitem. by vm_compute.
Defined.

(** X8: the last quantity set wins.  Setting the quantity of a product to
    [q1] and then to [q2], both values of the INTEGER column, not 0 and
    within the stock, leaves the database as setting it to [q2] at once
    does, with [q2] in the row of the product; in particular setting the
    same quantity again changes nothing. *)
Theorem upsert_last_set_wins (env env2 : Env) (userId productId : string)
    (q1 q2 : Z) (db : Db) (product : Product) :
  cart_available env db userId →
  products db !! productId = Some product →
  int4 q1 → q1 ≠ 0 → q1 ≤ available product →
  int4 q2 → q2 ≠ 0 → q2 ≤ available product →
  ∃ r1 db1 r2 db2 r,
    addOrUpdateCartItem env userId productId q1 false db = (Ok r1, db1)
    ∧ addOrUpdateCartItem env2 userId productId q2 false db1 = (Ok r2, db2)
    ∧ addOrUpdateCartItem env userId productId q2 false db = (Ok r, db2)
    ∧ data r2 = data r
    ∧ cartItemOf db2 userId productId
      = Some (mkCartItem (cartOf env db userId) productId q2).
Proof.
  intros Hfresh Hp _ Hq1 Hle1 _ Hq2 Hle2.
  pose proof (upsert_run env userId productId q1 false db product Hfresh Hp)
    as Hrun1.
  pose proof (upsert_run env userId productId q2 false db product Hfresh Hp)
    as Hrun.
  pose proof (upsert_run env2 userId productId q2 false
                (upserted env userId productId (SetTo q1) q1 db) product
                (cart_available_upserted _ _ _ _ _ _ _)) as Hrun2.
  rewrite products_upserted in Hrun2.
  unfold newQuantity_of in Hrun1, Hrun, Hrun2.
  assert (Htwice :
    upserted env2 userId productId (SetTo q2) q2
      (upserted env userId productId (SetTo q1) q1 db)
    = upserted env userId productId (SetTo q2) q2 db).
  { by apply upserted_twice. }
  eexists _, _, _, _, _.
  split; [apply Hrun1; [done|done]|].
  split; [apply Hrun2; [done|done|done]|].
  split; [|split].
  - rewrite Hrun by done. f_equal. by symmetry.
  - done.
  - rewrite Htwice, cartItemOf_upserted by done. do 2 f_equal.
    by destruct (cartItemOf db userId productId).
Qed.

(** [u1] sets the Arabica of the cart to four and then to one. *)
Lemma upsert_last_set_wins_witness :
  ∃ r1 db1 r2 db2 r,
    addOrUpdateCartItem Example.env "u1" "p1" 4 false Example.db = (Ok r1, db1)
    ∧ addOrUpdateCartItem Example.env "u1" "p1" 1 false db1 = (Ok r2, db2)
    ∧ addOrUpdateCartItem Example.env "u1" "p1" 1 false Example.db
      = (Ok r, db2)
    ∧ data r2 = Some (1, Some Example.arabica)
    ∧ data r = Some (1, Some Example.arabica)
    ∧ cartItemOf db2 "u1" "p1" = Some (mkCartItem "c1" "p1" 1).
Proof.
  destruct (upsert_last_set_wins Example.env Example.env "u1" "p1" 4 1
              Example.db Example.arabica)
    as (r1 & db1 & r2 & db2 & r & Hrun1 & Hrun2 & Hrun & Hdata & Hitem).
  - apply cart_available_check. by vm_compute.
  - by vm_compute.
  - unfold int4. lia.
  - done.
  - by vm_compute.
  - unfold int4. lia.
  - done.
  - by vm_compute.
  - exists r1, db1, r2, db2, r.
    split; [exact Hrun1|]. split; [exact Hrun2|]. split; [exact Hrun|].
    assert (Hr : r = mkCartItemResponse "Successfully updated cart item!"
                       (Some (1, Some Example.arabica))).
    { assert (Hfst : (addOrUpdateCartItem Example.env "u1" "p1" 1 false
                        Example.db).1 = Ok r) by by rewrite Hrun.
      vm_compute in Hfst. by injection Hfst as <-. }
    split; [by rewrite Hdata, Hr|]. split; [by rewrite Hr|].
    rewrite Hitem. by vm_compute.
Defined.

(** X9: with the unique index on (cart, product), removing a product by
    setting its quantity to 0 and removing it with [deleteCartItem] leave
    the same database. *)
Theorem set_to_zero_agrees_with_deleteCartItem (env : Env)
    (userId productId : string) (db : Db) (product : Product)
    (ci : CartItem) :
  unique_keys db →
  products db !! productId = Some product →
  0 ≤ available product →
  cartItemOf db userId productId = Some ci →
  ∃ r db',
    addOrUpdateCartItem env userId productId 0 false db = (Ok r, db')
    ∧ deleteCartItem userId productId db = (Ok ci, db').
Proof.
  intros Huniq Hp Hstock Hci.
  eexists _, _. split; [by eapply set_to_zero_run|].
  rewrite deleteCartItem_run.
  pose proof Hci as Hfind. rewrite findFirst_id_cartItemOf in Hfind.
  destruct (list_find _ _) as [[i ci']|] eqn:Hlf; [|done].
  injection Hfind as ->.
  apply list_find_Some in Hlf as (Hi & [Hprod Hcart] & _).
  f_equal. unfold set_cartItems. f_equal.
  rewrite delete_take_drop.
  rewrite <- (take_drop_middle _ _ _ Hi) at 3.
  assert (Hkey : key ci = (cartOf env db userId, productId)).
  { unfold key, cartOf. rewrite Hcart. simpl. by rewrite Hprod. }
  rewrite List.filter_app. simpl.
  rewrite has_key_key, bool_decide_eq_true_2 by done. simpl.
  rewrite <- List.filter_app. symmetry. apply filter_all.
  intros x Hx. apply negb_true_iff.
  apply (has_key_false_of_unique _ _ ci (take i (cartItems db))
           (drop (S i) (cartItems db))); [|done|done].
  unfold unique_keys in Huniq. by rewrite (take_drop_middle _ _ _ Hi).
Qed.

Lemma set_to_zero_agrees_with_deleteCartItem_witness :
  ∃ r db',
    addOrUpdateCartItem Example.env "u1" "p2" 0 false Example.db = (Ok r, db')
    ∧ deleteCartItem "u1" "p2" Example.db = (Ok (mkCartItem "c1" "p2" 1), db').
Proof.
  apply (set_to_zero_agrees_with_deleteCartItem Example.env "u1" "p2"
           Example.db Example.robusta).
  - apply unique_keys_check. by vm_compute.
  - by vm_compute.
  - by vm_compute.
  - by vm_compute.
Defined.

(** X10: adding a product that the cart does not hold, in a quantity that
    is a value of the INTEGER column, and deleting it again gives back
    the row that was added and restores the cart items; the database is
    the one before, except that the user now has a cart if there was
    none. *)
Theorem add_then_delete_restores (env : Env) (userId productId : string)
    (quantity : Z) (db : Db) (product : Product) :
  cart_available env db userId →
  products db !! productId = Some product →
  cartItemOf db userId productId = None →
  int4 quantity →
  quantity ≤ available product →
  ∃ r db1,
    addOrUpdateCartItem env userId productId quantity true db = (Ok r, db1)
    ∧ deleteCartItem userId productId db1
      = (Ok (mkCartItem (cartOf env db userId) productId quantity),
         with_cart env userId db).
Proof.
  intros Hfresh Hp Hci _ Hle.
  pose proof (cartItemOf_find env db userId productId Hfresh) as Hfind.
  rewrite Hci in Hfind.
  eexists _, _. split.
  { apply (upsert_run env userId productId quantity true db product);
      [done|done| |done].
    unfold newQuantity_of, existingQuantity. rewrite Hci. simpl. lia. }
  rewrite deleteCartItem_run. unfold upserted. cbv zeta. rewrite Hci.
  simpl carts. simpl cartItems.
  rewrite list_find_app_r; last first.
  { apply list_find_None, Forall_forall. intros x Hx [Hprod Hcart].
    rewrite carts_with_cart in Hcart. injection Hcart as Hcart.
    apply list_elem_of_In in Hx.
    pose proof (List.find_none _ _ Hfind x Hx) as Hfalse.
    unfold has_key in Hfalse.
    by rewrite !bool_decide_eq_true_2 in Hfalse. }
  simpl. rewrite decide_True; last first.
  { split; [done|]. by rewrite carts_with_cart. }
  simpl. f_equal. apply set_cartItems_back.
  by rewrite (delete_middle _ [] _), app_nil_r.
Qed.

(** [u2], whose cart holds no Arabica, adds two and deletes them. *)
Lemma add_then_delete_restores_witness :
  ∃ r db1,
    addOrUpdateCartItem Example.env "u2" "p1" 2 true Example.db = (Ok r, db1)
    ∧ deleteCartItem "u2" "p1" db1
      = (Ok (mkCartItem "c2" "p1" 2), Example.db).
Proof.
  destruct (add_then_delete_restores Example.env "u2" "p1" 2 Example.db
              Example.arabica) as (r & db1 & Hrun & Hdel).
  - apply cart_available_check. by vm_compute.
  - by vm_compute.
  - by vm_compute.
  - unfold int4. lia.
  - by vm_compute.
  - exists r, db1. split; [exact Hrun|]. rewrite Hdel. by vm_compute.
Defined.

(** ** Reading the cart *)

Section getCart_runs.

Lemma by_product_name_total : Total by_product_name.
Proof. intros a b. unfold by_product_name. apply String.le_total. Qed.

Lemma getCart_run (env : Env) (userId : string) (db : Db)
    (rows : list (Z * Product)) :
  cart_available env db userId →
  selected db (cartOf env db userId) = Some rows →
  getCart env userId db
  = (match getCart_total (merge_sort by_product_name rows) with
     | Ok total => Ok (merge_sort by_product_name rows, total)
     | Throw e => Throw e
     end,
     with_cart env userId db).
Proof.
  intros Hfresh Hrows.
  destruct (upsert_reads_when env userId "" db Hfresh) as (Hcart & _ & _).
  assert (Hsel : cart_selectItems (cartOf env db userId)
                   (with_cart env userId db)
                 = (Ok (merge_sort by_product_name rows),
                    with_cart env userId db)).
  { unfold cart_selectItems. unfold selected, itemsOf in Hrows.
    by rewrite products_with_cart, cartItems_with_cart, Hrows. }
  unfold getCart.
  erewrite bind_Ok; last first.
  { apply transaction_Ok. unfold cart_upsert_selectItems.
    erewrite bind_Ok by exact Hcart. exact Hsel. }
  rewrite bind_run. unfold lift.
  by destruct (getCart_total _).
Qed.

Lemma selected_with_cart (env : Env) (userId cartId : string) (db : Db) :
  selected (with_cart env userId db) cartId = selected db cartId.
Proof.
  unfold selected, itemsOf.
  by rewrite products_with_cart, cartItems_with_cart.
Qed.

Lemma cartOf_with_cart (env env2 : Env) (userId : string) (db : Db) :
  cartOf env2 (with_cart env userId db) userId = cartOf env db userId.
Proof. unfold cartOf at 1. by rewrite carts_with_cart. Qed.

Lemma with_cart_idem (env env2 : Env) (userId : string) (db : Db) :
  with_cart env2 userId (with_cart env userId db) = with_cart env userId db.
Proof. unfold with_cart at 1. by rewrite carts_with_cart. Qed.

Lemma selected_of_products_exist (db : Db) (cartId : string) :
  products_exist db → is_Some (selected db cartId).
Proof.
  intros Hfk. unfold selected.
  assert (Hall : ∀ ci, ci ∈ itemsOf db cartId →
                       is_Some (products db !! ci_productId ci)).
  { intros ci Hin. apply Hfk. by apply elem_of_itemsOf in Hin as [? _]. }
  induction (itemsOf db cartId) as [|ci l IH].
  - by exists [].
  - destruct IH as [rows Hrows]; [intros x Hx; apply Hall; by right|].
    destruct (Hall ci) as [p Hp]; [by left|].
    exists ((ci_quantity ci, p) :: rows). apply mapM_Some.
    constructor; [by rewrite Hp|by apply mapM_Some].
Qed.

End getCart_runs.

(** X11: [getCart] for a user who has no cart creates one, with the
    generated id, and answers with an empty list of items and the total
    0. *)
Theorem getCart_creates_the_cart (env : Env) (userId : string) (db : Db) :
  carts db !! userId = None →
  cuid_fresh env db →
  getCart env userId db
  = (Ok ([], ofInt 0), set_carts (insert userId (env_cuid env)) db).
Proof.
  intros Hnone Hfresh.
  assert (Hrows : selected db (cartOf env db userId) = Some []).
  { unfold selected, cartOf, itemsOf. rewrite Hnone. simpl.
    rewrite filter_none; [done|].
    intros ci Hin. apply list_elem_of_In in Hin. unfold in_cart.
    apply bool_decide_eq_false. by apply Hfresh. }
  rewrite (getCart_run env userId db []); [|by intros _|done].
  unfold with_cart. by rewrite Hnone.
Qed.

Lemma getCart_creates_the_cart_witness :
  getCart Example.env "u3" Example.db
  = (Ok ([], ofInt 0),
     set_carts (insert "u3" (env_cuid Example.env)) Example.db).
Proof.
  apply getCart_creates_the_cart.
  - by vm_compute.
  - apply cuid_fresh_check. by vm_compute.
Defined.

(** X12: when the products of the cart items exist, [getCart] changes
    nothing but the cart it may create, and it can be repeated: a second
    call, whatever id it would generate, gives the same answer and leaves
    the database as the first call left it. *)
Theorem getCart_is_repeatable (env env2 : Env) (userId : string) (db : Db) :
  cart_available env db userId →
  products_exist db →
  ∃ r,
    getCart env userId db = (r, with_cart env userId db)
    ∧ getCart env2 userId (with_cart env userId db)
      = (r, with_cart env userId db).
Proof.
  intros Hfresh Hfk.
  destruct (selected_of_products_exist db (cartOf env db userId) Hfk)
    as [rows Hrows].
  eexists. split; [by apply (getCart_run env userId db rows)|].
  rewrite (getCart_run env2 userId _ rows).
  - by rewrite with_cart_idem.
  - intros Hnone. by rewrite carts_with_cart in Hnone.
  - by rewrite cartOf_with_cart, selected_with_cart.
Qed.

Lemma getCart_is_repeatable_witness :
  ∃ r,
    getCart Example.env "u3" Example.db
    = (r, with_cart Example.env "u3" Example.db)
    ∧ getCart Example.env "u3" (with_cart Example.env "u3" Example.db)
      = (r, with_cart Example.env "u3" Example.db).
Proof.
  apply getCart_is_repeatable.
  - apply cart_available_check. by vm_compute.
  - apply products_exist_check. by vm_compute.
Defined.

Section getCart_items.

Lemma getCart_total_succeeds (rows : list (Z * Product)) :
  Forall (λ row, product_price row.2 ≠ Some DecNaN) rows →
  ∀ acc, ∃ total, foldl getCart_total_step (Ok acc) rows = Ok total.
Proof.
  induction rows as [|row rows IH]; intros Hrows acc; [by exists acc|].
  apply Forall_cons in Hrows as [Hrow Hrows]. simpl.
  destruct (product_price row.2) as [[|c places]|]; [done|..];
    simpl; by apply IH.
Qed.

Lemma selected_prices (db : Db) (cartId : string) (rows : list (Z * Product)) :
  selected db cartId = Some rows →
  Forall2 (λ ci row, row.1 = ci_quantity ci
                     ∧ products db !! ci_productId ci = Some row.2)
          (itemsOf db cartId) rows.
Proof.
  unfold selected. intros Hrows. apply mapM_Some in Hrows.
  induction Hrows as [|ci row items rows Hrow _ IH]; constructor; [|done].
  destruct (products db !! ci_productId ci) as [p|]; [|done].
  simpl in Hrow. by injection Hrow as <-.
Qed.

Lemma prices_check (db : Db) :
  forallb (λ entry, match product_price entry.2 with
                    | Some DecNaN => false
                    | _ => true
                    end)
          (map_to_list (products db)) = true →
  ∀ id p, products db !! id = Some p → product_price p ≠ Some DecNaN.
Proof.
  intros Hall id p Hp Hnan. rewrite forallb_forall in Hall.
  apply elem_of_map_to_list, list_elem_of_In, Hall in Hp.
  simpl in Hp. by rewrite Hnan in Hp.
Qed.

End getCart_items.

(** X13: [getCart] answers with the rows of the user's cart and with no
    other: when the products of the cart items exist and no price is the
    NaN of the decimals, it succeeds, and its items are, in some order,
    the cart items of the user, each as its quantity with its product. *)
Theorem getCart_items_are_the_cart_rows (env : Env) (userId : string)
    (db : Db) :
  cart_available env db userId →
  products_exist db →
  (∀ id p, products db !! id = Some p → product_price p ≠ Some DecNaN) →
  ∃ items total rows,
    getCart env userId db = (Ok (items, total), with_cart env userId db)
    ∧ items ≡ₚ rows
    ∧ Forall2 (λ ci row, row.1 = ci_quantity ci
                         ∧ products db !! ci_productId ci = Some row.2)
              (itemsOf db (cartOf env db userId)) rows.
Proof.
  intros Hfresh Hfk Hprices.
  destruct (selected_of_products_exist db (cartOf env db userId) Hfk)
    as [rows Hrows].
  pose proof (selected_prices db _ rows Hrows) as Hall.
  assert (Hperm : merge_sort by_product_name rows ≡ₚ rows)
    by apply merge_sort_Permutation.
  destruct (getCart_total_succeeds (merge_sort by_product_name rows))
    with (acc := ofInt 0) as [total Htotal].
  { rewrite Hperm. apply Forall_forall. intros row Hrow.
    apply list_elem_of_lookup in Hrow as [i Hi].
    destruct (Forall2_lookup_r _ _ _ _ _ Hall Hi) as (ci & _ & _ & Hp).
    by apply (Hprices (ci_productId ci)). }
  exists (merge_sort by_product_name rows), total, rows.
  split; [|done].
  rewrite (getCart_run env userId db rows) by done.
  unfold getCart_total. by rewrite Htotal.
Qed.

(** The cart of [u1] in the example shop. *)
Lemma getCart_items_are_the_cart_rows_witness :
  ∃ items total rows,
    getCart Example.env "u1" Example.db = (Ok (items, total), Example.db)
    ∧ items ≡ₚ rows
    ∧ rows = [(2, Example.arabica); (1, Example.robusta)].
Proof.
  destruct (getCart_items_are_the_cart_rows Example.env "u1" Example.db)
    as (items & total & rows & Hrun & Hperm & Hall).
  - apply cart_available_check. by vm_compute.
  - apply products_exist_check. by vm_compute.
  - apply prices_check. by vm_compute.
  - exists items, total, rows. split; [rewrite Hrun; by vm_compute|].
    split; [done|].
    assert (Hitems : itemsOf Example.db (cartOf Example.env Example.db "u1")
                     = [mkCartItem "c1" "p1" 2; mkCartItem "c1" "p2" 1])
      by by vm_compute.
    rewrite Hitems in Hall.
    apply Forall2_cons_inv_l in Hall as ([q1 p1] & rows1 & [Hq1 Hp1] & Hall & ->).
    apply Forall2_cons_inv_l in Hall as ([q2 p2] & rows2 & [Hq2 Hp2] & Hall & ->).
    apply Forall2_nil_inv_l in Hall as ->.
    simpl in Hq1, Hq2, Hp1, Hp2. subst q1 q2.
    vm_compute in Hp1. vm_compute in Hp2.
    injection Hp1 as <-. injection Hp2 as <-. done.
Defined.

(** ** Checkout: what stops it, and what it leaves behind *)

Section checkout_more.

Lemma can_checkout_check (env : Env) (userId shippingAddressId cartId : string)
    (db : Db) :
  negb (bool_decide (env_cuid env ∈ cart_ids db))
  && forallb (λ ci, negb (bool_decide (ci_cartId ci = env_cuid env)))
             (cartItems db)
  && forallb (λ o, negb (bool_decide (order_id o = env_cuid env))) (orders db)
  && bool_decide (carts db !! userId = Some cartId)
  && negb (bool_decide (itemsOf db cartId = []))
  && forallb (λ ci, bool_decide (is_Some (products db !! ci_productId ci)))
             (cartItems db)
  && bool_decide (is_Some (userAddresses db !! shippingAddressId))
  && forallb (λ ci, negb (insufficient db ci)) (itemsOf db cartId)
  && forallb (λ t, negb (bool_decide
                           (tx_noInvoice t = generateInvoiceNumber env)))
             (transactions db)
  = true →
  can_checkout env userId shippingAddressId cartId db.
Proof.
  rewrite !andb_true_iff.
  intros ((((((Hfresh & Hcart) & Hne) & Hfk) & Haddr) & Hstock) & Hinv).
  split; [apply cuid_fresh_check; by rewrite !andb_true_iff|].
  split; [by apply bool_decide_eq_true in Hcart|].
  split; [apply negb_true_iff in Hne; by apply bool_decide_eq_false in Hne|].
  split; [by apply products_exist_check|].
  split; [by apply bool_decide_eq_true in Haddr|].
  split; [by apply sufficient_check|by apply invoice_unused_check].
Qed.




End checkout_more.

(** X14: the checkout of a user who has no cart, or whose cart has no item,
    fails with the error "Cart is empty" and changes nothing; the address
    is not looked at before. *)
Theorem checkout_empty_cart (env : Env) (userId shippingAddressId : string)
    (db : Db) :
  (∀ cartId, carts db !! userId = Some cartId → itemsOf db cartId = []) →
  checkout env userId shippingAddressId db
  = (Throw (ThrowError "Cart is empty"), db).
Proof.
  intros Hempty. unfold checkout. eapply transaction_Throw.
  by apply checkout_body_empty_cart.
Qed.

Lemma checkout_empty_cart_witness :
  checkout Example.env "u3" "no such address" Example.db
  = (Throw (ThrowError "Cart is empty"), Example.db).
Proof.
  apply checkout_empty_cart. intros cartId Hcart. by vm_compute in Hcart.
Defined.

(** X15: the checkout of a cart that has items, for an address id that no
    address has, fails with the error "Shipping address not found" and
    changes nothing, whether or not the stock would suffice. *)
Theorem checkout_address_not_found (env : Env)
    (userId shippingAddressId cartId : string) (db : Db) :
  carts db !! userId = Some cartId →
  itemsOf db cartId ≠ [] →
  products_exist db →
  userAddresses db !! shippingAddressId = None →
  checkout env userId shippingAddressId db
  = (Throw (ThrowError "Shipping address not found"), db).
Proof.
  intros Hcart Hne Hfk Haddr. unfold checkout. eapply transaction_Throw.
  by apply (checkout_body_address_not_found _ _ _ _ cartId).
Qed.

Lemma checkout_address_not_found_witness :
  checkout Example.env "u1" "a9" Example.greedy
  = (Throw (ThrowError "Shipping address not found"), Example.greedy).
Proof.
  apply (checkout_address_not_found _ _ _ "c1").
  - by vm_compute.
  - by vm_compute.
  - apply products_exist_check. by vm_compute.
  - by vm_compute.
Defined.




Lemma stock_nonneg_check (db : Db) :
  forallb (λ entry, match product_stockQty entry.2 with
                    | Some s => 0 <=? s
                    | None => true
                    end)
          (map_to_list (products db)) = true →
  stock_nonneg db.
Proof.
  intros Hall k p s Hp Hs. rewrite forallb_forall in Hall.
  apply elem_of_map_to_list, list_elem_of_In, Hall in Hp.
  simpl in Hp. rewrite Hs in Hp. by apply Z.leb_le.
Qed.


(** ** The handlers of the cart routes *)

Section handlers.

(** A call that asks for more than the stock. *)
Lemma upsert_run_exceeds (env : Env) (userId productId : string)
    (quantity : Z) (isIncrement : bool) (db : Db) (product : Product) :
  cart_available env db userId →
  products db !! productId = Some product →
  available product < newQuantity_of db userId productId quantity isIncrement →
  addOrUpdateCartItem env userId productId quantity isIncrement db
  = (Throw (ThrowObject 400 "INVALID_QUANTITY"
              ("Product " +:+ product_name product +:+ " has only "
                 +:+ show_stock (product_stockQty product)
                 +:+ " available stock!")),
     db).
Proof.
  intros Hfresh Hp Hlt.
  destruct (upsert_reads_when env userId productId db Hfresh)
    as (Hcart & Hprod & Hitem).
  unfold addOrUpdateCartItem. eapply transaction_Throw.
  unfold addOrUpdateCartItem_body.
  erewrite bind_Ok by exact Hcart.
  erewrite bind_Ok by exact Hprod.
  erewrite bind_Ok by exact Hitem.
  rewrite Hp. cbv zeta.
  fold (existingQuantity db userId productId).
  fold (newQuantity_of db userId productId quantity isIncrement).
  rewrite exceeds_available.
  apply Z.ltb_lt in Hlt. rewrite Hlt. reflexivity.
Qed.

(** A call that sets to 0 the quantity of a product that the cart does
    not hold. *)
Lemma set_to_zero_run_not_found (env : Env) (userId productId : string)
    (db : Db) (product : Product) :
  cart_available env db userId →
  products db !! productId = Some product →
  0 ≤ available product →
  cartItemOf db userId productId = None →
  addOrUpdateCartItem env userId productId 0 false db
  = (Throw (ThrowObject 404 "CART_ITEM_NOT_FOUND" "Cart item not found!"), db).
Proof.
  intros Hfresh Hp Hstock Hci.
  destruct (upsert_reads_when env userId productId db Hfresh)
    as (Hcart & Hprod & Hitem).
  unfold addOrUpdateCartItem. eapply transaction_Throw.
  unfold addOrUpdateCartItem_body.
  erewrite bind_Ok by exact Hcart.
  erewrite bind_Ok by exact Hprod.
  erewrite bind_Ok by exact Hitem.
  rewrite Hp, Hci. cbv zeta. rewrite exceeds_available.
  apply Z.ltb_ge in Hstock. rewrite Hstock. reflexivity.
Qed.

(** A call for a product that does not exist. *)
Lemma upsert_run_not_found (env : Env) (userId productId : string)
    (quantity : Z) (isIncrement : bool) (db : Db) :
  cart_available env db userId →
  products db !! productId = None →
  addOrUpdateCartItem env userId productId quantity isIncrement db
  = (Throw (ThrowObject 404 "PRODUCT_NOT_FOUND" "Product not found"), db).
Proof.
  intros Hfresh Hp.
  destruct (upsert_reads_when env userId productId db Hfresh)
    as (Hcart & Hprod & Hitem).
  unfold addOrUpdateCartItem. eapply transaction_Throw.
  unfold addOrUpdateCartItem_body.
  erewrite bind_Ok by exact Hcart.
  erewrite bind_Ok by exact Hprod.
  erewrite bind_Ok by exact Hitem.
  by rewrite Hp.
Qed.

Lemma upsert_message_truthy (existing : option CartItem) (fallback : string) :
  string_or (Some (upsert_message existing)) fallback = upsert_message existing.
Proof. by destruct existing. Qed.

End handlers.



(** X19: [POST /cart/item] adds the quantity to the one in the cart.  It
    answers 404 PRODUCT_NOT_FOUND for a product that does not exist, 400
    INVALID_QUANTITY when the sum is above the stock, both without a
    change to the database, and otherwise 201 with the message of the
    service, the new quantity and the product. *)
Theorem post_item_route_answers (prismaMessage : string → string)
    (env : Env) (userId productId : string) (quantity : Z) (db : Db) :
  cart_available env db userId →
  match products db !! productId with
  | None =>
      cartRoute_post_item prismaMessage env userId productId quantity db
      = (mkResponse (Failure "PRODUCT_NOT_FOUND" "Product not found")
                    (StatusCode 404),
         db)
  | Some product =>
      let newQuantity := existingQuantity db userId productId + quantity in
      if bool_decide (available product < newQuantity) then
        cartRoute_post_item prismaMessage env userId productId quantity db
        = (mkResponse
             (Failure "INVALID_QUANTITY"
                ("Product " +:+ product_name product +:+ " has only "
                   +:+ show_stock (product_stockQty product)
                   +:+ " available stock!"))
             (StatusCode 400),
           db)
      else
        ∃ db',
          cartRoute_post_item prismaMessage env userId productId quantity db
          = (mkResponse
               (Success (upsert_message (cartItemOf db userId productId))
                        (Some (newQuantity, Some product)))
               (StatusCode 201),
             db')
  end.
Proof.
  intros Hfresh. unfold cartRoute_post_item.
  destruct (products db !! productId) as [product|] eqn:Hp.
  - cbv zeta. case_bool_decide as Hlt.
    + by rewrite (upsert_run_exceeds _ _ _ _ _ _ product).
    + eexists.
      rewrite (upsert_run _ _ _ _ _ _ product); [|done|done| |done].
      * simpl message. rewrite upsert_message_truthy. reflexivity.
      * unfold newQuantity_of. lia.
  - by rewrite upsert_run_not_found.
Qed.

Lemma post_item_route_answers_witness :
  match products Example.db !! "p1" with
  | None =>
      cartRoute_post_item (λ _, "") Example.env "u1" "p1" 4 Example.db
      = (mkResponse (Failure "PRODUCT_NOT_FOUND" "Product not found")
                    (StatusCode 404),
         Example.db)
  | Some product =>
      let newQuantity := existingQuantity Example.db "u1" "p1" + 4 in
      if bool_decide (available product < newQuantity) then
        cartRoute_post_item (λ _, "") Example.env "u1" "p1" 4 Example.db
        = (mkResponse
             (Failure "INVALID_QUANTITY"
                ("Product " +:+ product_name product +:+ " has only "
                   +:+ show_stock (product_stockQty product)
                   +:+ " available stock!"))
             (StatusCode 400),
           Example.db)
      else
        ∃ db',
          cartRoute_post_item (λ _, "") Example.env "u1" "p1" 4 Example.db
          = (mkResponse
               (Success (upsert_message (cartItemOf Example.db "u1" "p1"))
                        (Some (newQuantity, Some product)))
               (StatusCode 201),
             db')
  end.
Proof.
  apply post_item_route_answers. apply cart_available_check. by vm_compute.
Defined.

(** The three answers of [POST /cart/item] in the example shop: four more
    Arabica than the stock allows, a product that does not exist, and one
    more Arabica. *)
Lemma post_item_route_example :
  cartRoute_post_item (λ _, "") Example.env "u1" "p1" 4 Example.db
  = (mkResponse
       (Failure "INVALID_QUANTITY" "Product Arabica has only 5 available stock!")
       (StatusCode 400),
     Example.db)
  ∧ cartRoute_post_item (λ _, "") Example.env "u1" "p9" 1 Example.db
    = (mkResponse (Failure "PRODUCT_NOT_FOUND" "Product not found")
                  (StatusCode 404),
       Example.db)
  ∧ (cartRoute_post_item (λ _, "") Example.env "u1" "p1" 1 Example.db).1
    = mkResponse
        (Success "Successfully updated cart item!"
                 (Some (3, Some Example.arabica)))
        (StatusCode 201).
Proof. split; [|split]; by vm_compute. Qed.

(** X20: [PATCH /cart/item/{productId}] with the quantity 0, for a product
    that exists and whose stock is not negative: when the cart holds the
    product the answer is 200 with the removal message and no data, and
    the cart no longer holds the product; when it does not, the answer is
    404 CART_ITEM_NOT_FOUND and nothing changes. *)
Theorem patch_item_zero_route_answers (prismaMessage : string → string)
    (env : Env) (userId productId : string) (db : Db) (product : Product) :
  cart_available env db userId →
  products db !! productId = Some product →
  0 ≤ available product →
  match cartItemOf db userId productId with
  | Some _ =>
      ∃ db',
        cartRoute_patch_item prismaMessage env userId productId 0 db
        = (mkResponse
             (Success ("Successfully removed product " +:+ product_name product
                         +:+ " from cart!")
                      None)
             (StatusCode 200),
           db')
        ∧ cartItemOf db' userId productId = None
  | None =>
      cartRoute_patch_item prismaMessage env userId productId 0 db
      = (mkResponse (Failure "CART_ITEM_NOT_FOUND" "Cart item not found!")
                    (StatusCode 404),
         db)
  end.
Proof.
  intros Hfresh Hp Hstock. unfold cartRoute_patch_item.
  destruct (cartItemOf db userId productId) as [ci|] eqn:Hci.
  - eexists. rewrite (set_to_zero_run _ _ _ _ product ci) by done.
    split; [reflexivity|].
    apply (cartItemOf_Some_cart env) in Hci as [Hcart _].
    unfold cartItemOf. simpl carts. rewrite Hcart. simpl.
    apply find_filter_negb.
  - by rewrite (set_to_zero_run_not_found _ _ _ _ product).
Qed.

Lemma patch_item_zero_route_answers_witness :
  match cartItemOf Example.db "u2" "p1" with
  | Some _ =>
      ∃ db',
        cartRoute_patch_item (λ _, "") Example.env "u2" "p1" 0 Example.db
        = (mkResponse
             (Success ("Successfully removed product "
                         +:+ product_name Example.arabica +:+ " from cart!")
                      None)
             (StatusCode 200),
           db')
        ∧ cartItemOf db' "u2" "p1" = None
  | None =>
      cartRoute_patch_item (λ _, "") Example.env "u2" "p1" 0 Example.db
      = (mkResponse (Failure "CART_ITEM_NOT_FOUND" "Cart item not found!")
                    (StatusCode 404),
         Example.db)
  end.
Proof.
  apply patch_item_zero_route_answers.
  - apply cart_available_check. by vm_compute.
  - by vm_compute.
  - by vm_compute.
Defined.

(** X21: [DELETE /cart/item/{productId}] answers 200 with the message
    "Success to delete cart item!" and no data when the cart holds the
    product, one row being gone; when it does not, the error of
    [deleteCartItem] is a plain [Error] and the answer is 500
    UNKNOWN_ERROR "Cart item not found.", with no change. *)
Theorem delete_item_route_answers (prismaMessage : string → string)
    (userId productId : string) (db : Db) :
  match cartItemOf db userId productId with
  | Some _ =>
      ∃ db',
        cartRoute_delete_item prismaMessage userId productId db
        = (mkResponse (Success "Success to delete cart item!" None)
                      (StatusCode 200),
           db')
        ∧ (length (cartItems db') + 1 = length (cartItems db))%nat
  | None =>
      cartRoute_delete_item prismaMessage userId productId db
      = (mkResponse (Failure "UNKNOWN_ERROR" "Cart item not found.")
                    (StatusCode 500),
         db)
  end.
Proof.
  unfold cartRoute_delete_item. rewrite deleteCartItem_run.
  rewrite findFirst_id_cartItemOf.
  destruct (list_find _ _) as [[i ci]|] eqn:Hfind; simpl; [|done].
  eexists. split; [reflexivity|]. simpl.
  apply list_find_Some in Hfind as (Hi & _ & _).
  rewrite length_delete by eauto. apply lookup_lt_Some in Hi. lia.
Qed.

(** X22: an error response of [POST /cart/item],
    [PATCH /cart/item/{productId}], [DELETE /cart/item/{productId}] or
    [POST /cart/checkout] means that the request has changed nothing. *)
Theorem error_responses_change_nothing (prismaMessage : string → string)
    (env : Env) (userId productId shippingAddressId : string) (quantity : Z)
    (db : Db) :
  (is_failure
     (cartRoute_post_item prismaMessage env userId productId quantity db).1
   = true →
   (cartRoute_post_item prismaMessage env userId productId quantity db).2 = db)
  ∧ (is_failure
       (cartRoute_patch_item prismaMessage env userId productId quantity db).1
     = true →
     (cartRoute_patch_item prismaMessage env userId productId quantity db).2
     = db)
  ∧ (is_failure (cartRoute_delete_item prismaMessage userId productId db).1
     = true →
     (cartRoute_delete_item prismaMessage userId productId db).2 = db)
  ∧ (is_failure
       (cartRoute_post_checkout prismaMessage env userId shippingAddressId db).1
     = true →
     (cartRoute_post_checkout prismaMessage env userId shippingAddressId db).2
     = db).
Proof.
  split; [|split; [|split]].
  - unfold cartRoute_post_item.
    destruct (addOrUpdateCartItem _ _ _ _ _ db) as [[r|e] db'] eqn:Hrun;
      [done|].
    intros _. by apply transaction_rollback in Hrun.
  - unfold cartRoute_patch_item.
    destruct (addOrUpdateCartItem _ _ _ _ _ db) as [[r|e] db'] eqn:Hrun;
      [done|].
    intros _. by apply transaction_rollback in Hrun.
  - unfold cartRoute_delete_item. rewrite deleteCartItem_run.
    by destruct (list_find _ _) as [[i ci]|].
  - unfold cartRoute_post_checkout.
    destruct (checkout _ _ _ db) as [[r|e] db'] eqn:Hrun; [done|].
    intros _. by apply transaction_rollback in Hrun.
Qed.

Lemma error_responses_change_nothing_witness :
  (cartRoute_post_item (λ _, "") Example.env "u1" "p1" 4 Example.db).2
  = Example.db
  ∧ (cartRoute_patch_item (λ _, "") Example.env "u2" "p1" 0 Example.db).2
    = Example.db
  ∧ (cartRoute_delete_item (λ _, "") "u2" "p1" Example.db).2 = Example.db
  ∧ (cartRoute_post_checkout (λ _, "") Example.env "u1" "a1" Example.greedy).2
    = Example.greedy.
Proof.
  split; [|split; [|split]].
  - apply (error_responses_change_nothing (λ _, "") Example.env "u1" "p1" "a1"
             4 Example.db). by vm_compute.
  - apply (error_responses_change_nothing (λ _, "") Example.env "u2" "p1" "a1"
             0 Example.db). by vm_compute.
  - apply (error_responses_change_nothing (λ _, "") Example.env "u2" "p1" "a1"
             0 Example.db). by vm_compute.
  - apply (error_responses_change_nothing (λ _, "") Example.env "u1" "p1" "a1"
             0 Example.greedy). by vm_compute.
Defined.

Section positive.

Lemma keeps_positive_cartItem_upsert (cartId productId : string)
    (update : QuantityUpdate) (create : Z) :
  0 < create →
  (∀ old, 0 < old → 0 < apply_update update old) →
  keeps quantities_positive (cartItem_upsert cartId productId update create).
Proof.
  intros Hcreate Hupdate db r db' HI. unfold cartItem_upsert. cbv zeta.
  assert (Hnew : quantities_positive
            (if existsb (has_key cartId productId) (cartItems db)
             then set_cartItems
                    (map (λ ci, if has_key cartId productId ci
                                then mkCartItem cartId productId
                                       (apply_update update (ci_quantity ci))
                                else ci)) db
             else set_cartItems
                    (λ l, (l ++ [mkCartItem cartId productId create])%list) db)).
  { unfold quantities_positive in *. destruct (existsb _ _); simpl.
    - apply Forall_forall. intros x Hx.
      apply list_elem_of_fmap in Hx as (ci & -> & Hci).
      pose proof (proj1 (Forall_forall _ _) HI ci Hci) as Hpos.
      destruct (has_key _ _ ci); [simpl; by apply Hupdate|done].
    - apply Forall_app. split; [done|]. by constructor. }
  by destruct (List.find _ _); intros [= _ <-].
Qed.

(** The quantities stay positive when the quantity added is positive, or
    the quantity set is not negative. *)
Lemma keeps_positive_addOrUpdateCartItem (env : Env)
    (userId productId : string) (quantity : Z) (isIncrement : bool) :
  (if isIncrement then 0 < quantity else 0 ≤ quantity) →
  keeps quantities_positive
        (addOrUpdateCartItem env userId productId quantity isIncrement).
Proof.
  intros Hq. apply keeps_transaction. unfold addOrUpdateCartItem_body.
  apply keeps_bind.
  { by apply (keeps_items_cart_upsert (Forall (λ ci, 0 < ci_quantity ci))). }
  intros cart. apply keeps_bind; [apply keeps_gets|]. intros [product|].
  2: { apply keeps_bind; [apply keeps_gets|]. intros _. apply keeps_throw. }
  apply keeps_bind; [apply keeps_gets|]. intros cartItem. cbv zeta.
  destruct (exceeds _ _); [apply keeps_throw|].
  destruct (negb isIncrement && _) eqn:Hbranch.
  - destruct cartItem; [|apply keeps_throw].
    apply keeps_bind; [|intros _; apply keeps_ret].
    apply (keeps_items_cartItem_delete (Forall (λ ci, 0 < ci_quantity ci))).
    intros f l Hl. apply Forall_forall. intros x Hx.
    apply list_elem_of_In, filter_In in Hx as [Hx _].
    apply list_elem_of_In in Hx. by apply (proj1 (Forall_forall _ _) Hl x).
  - apply keeps_bind; [|intros u; apply keeps_ret].
    destruct isIncrement.
    + apply keeps_positive_cartItem_upsert; [done|]. intros old Hold. simpl. lia.
    + simpl in Hbranch. apply Z.eqb_neq in Hbranch.
      apply keeps_positive_cartItem_upsert; [lia|]. intros old Hold. simpl. lia.
Qed.

Lemma quantities_positive_check (db : Db) :
  forallb (λ ci, 0 <? ci_quantity ci) (cartItems db) = true →
  quantities_positive db.
Proof.
  intros Hall. apply Forall_forall. intros ci Hci.
  rewrite forallb_forall in Hall.
  apply list_elem_of_In, Hall in Hci. by apply Z.ltb_lt.
Qed.

End positive.

(** X23: the handlers keep every quantity in the carts positive.  With the
    quantities that the schemas of the routes let through, more than 0 for
    [POST /cart/item] and at least 0 for [PATCH /cart/item/{productId}],
    no request leaves a cart item with a quantity of 0 or less: a positive
    quantity is added to a positive one, a positive quantity is set, and 0
    removes the row. *)
Theorem routes_keep_quantities_positive (prismaMessage : string → string)
    (db : Db) :
  quantities_positive db →
  (∀ env userId productId quantity,
     0 < quantity →
     quantities_positive
       (cartRoute_post_item prismaMessage env userId productId quantity db).2)
  ∧ (∀ env userId productId quantity,
       0 ≤ quantity →
       quantities_positive
         (cartRoute_patch_item prismaMessage env userId productId quantity db).2)
  ∧ (∀ userId productId,
       quantities_positive
         (cartRoute_delete_item prismaMessage userId productId db).2)
  ∧ (∀ env userId shippingAddressId,
       quantities_positive
         (cartRoute_post_checkout prismaMessage env userId shippingAddressId
            db).2)
  ∧ (∀ env userId,
       quantities_positive (cartRoute_get prismaMessage env userId db).2).
Proof.
  intros Hpos.
  assert (Hfilter : ∀ (f : CartItem → bool) l,
            Forall (λ ci, 0 < ci_quantity ci) l →
            Forall (λ ci, 0 < ci_quantity ci) (List.filter f l)).
  { intros f l Hl. apply Forall_forall. intros x Hx.
    apply list_elem_of_In, filter_In in Hx as [Hx _].
    apply list_elem_of_In in Hx. by apply (proj1 (Forall_forall _ _) Hl x). }
  assert (Hdelete : ∀ (i : nat) (l : list CartItem),
            Forall (λ ci, 0 < ci_quantity ci) l →
            Forall (λ ci, 0 < ci_quantity ci) (delete i l)).
  { intros i l Hl. apply Forall_forall. intros x Hx.
    apply (proj1 (Forall_forall _ _) Hl x).
    eapply elem_of_sublist; [exact Hx|apply sublist_delete]. }
  split; [|split; [|split; [|split]]].
  - intros env userId productId quantity Hq. unfold cartRoute_post_item.
    destruct (addOrUpdateCartItem _ _ _ _ _ db) as [r db'] eqn:Hrun.
    assert (quantities_positive db').
    { eapply (keeps_positive_addOrUpdateCartItem _ _ _ quantity true);
        [exact Hq|exact Hpos|exact Hrun]. }
    by destruct r.
  - intros env userId productId quantity Hq. unfold cartRoute_patch_item.
    destruct (addOrUpdateCartItem _ _ _ _ _ db) as [r db'] eqn:Hrun.
    assert (quantities_positive db').
    { eapply (keeps_positive_addOrUpdateCartItem _ _ _ quantity false);
        [exact Hq|exact Hpos|exact Hrun]. }
    by destruct r.
  - intros userId productId. unfold cartRoute_delete_item.
    destruct (deleteCartItem _ _ db) as [r db'] eqn:Hrun.
    assert (quantities_positive db').
    { eapply (keeps_items_deleteCartItem _ Hdelete);
        [exact Hpos|exact Hrun]. }
    by destruct r.
  - intros env userId shippingAddressId. unfold cartRoute_post_checkout.
    destruct (checkout _ _ _ db) as [r db'] eqn:Hrun.
    assert (quantities_positive db').
    { eapply (keeps_items_checkout _ Hfilter); [exact Hpos|exact Hrun]. }
    by destruct r.
  - intros env userId. unfold cartRoute_get.
    destruct (getCart _ _ db) as [r db'] eqn:Hrun.
    assert (quantities_positive db').
    { eapply (keeps_items_getCart (Forall (λ ci, 0 < ci_quantity ci)));
        [exact Hpos|exact Hrun]. }
    by destruct r.
Qed.

Lemma routes_keep_quantities_positive_witness :
  quantities_positive
    (cartRoute_post_item (λ _, "") Example.env "u2" "p1" 3 Example.db).2
  ∧ quantities_positive
      (cartRoute_patch_item (λ _, "") Example.env "u1" "p1" 0 Example.db).2.
Proof.
  destruct (routes_keep_quantities_positive (λ _, "") Example.db)
    as (Hpost & Hpatch & _).
  - apply quantities_positive_check. by vm_compute.
  - split; [by apply Hpost|by apply Hpatch].
Defined.

(** ** Carts within the stock *)

Section within.

Lemma unique_row (l : list CartItem) (x y : CartItem) :
  NoDup (map key l) → x ∈ l → y ∈ l → key x = key y → x = y.
Proof.
  induction l as [|z l IH]; intros Hnd Hx Hy Hkey.
  - by apply elem_of_nil in Hx.
  - simpl in Hnd. apply NoDup_cons in Hnd as [Hz Hnd].
    apply elem_of_cons in Hx as [->|Hx]; apply elem_of_cons in Hy as [->|Hy].
    + done.
    + exfalso. apply Hz. rewrite Hkey. apply list_elem_of_fmap. by exists y.
    + exfalso. apply Hz. rewrite <- Hkey. apply list_elem_of_fmap. by exists x.
    + by apply IH.
Qed.

Lemma within_stock_filter (f : CartItem → bool) (db : Db) :
  within_stock db → within_stock (set_cartItems (List.filter f) db).
Proof.
  intros Hin ci p Hci Hp. simpl in *.
  apply list_elem_of_In, filter_In in Hci as [Hci _].
  apply list_elem_of_In in Hci. by apply (Hin ci p).
Qed.

Lemma within_stock_upserted (env : Env) (userId productId : string)
    (quantity : Z) (isIncrement : bool) (db : Db) (product : Product) :
  cart_available env db userId →
  unique_keys db →
  products db !! productId = Some product →
  newQuantity_of db userId productId quantity isIncrement ≤ available product →
  within_stock db →
  within_stock
    (upserted env userId productId
       (if isIncrement then Increment quantity else SetTo quantity)
       quantity db).
Proof.
  intros Hfresh Huniq Hp Hle Hin ci p Hci Hprod.
  rewrite products_upserted in Hprod.
  unfold upserted in Hci. cbv zeta in Hci.
  unfold newQuantity_of, existingQuantity in Hle.
  destruct (cartItemOf db userId productId) as [old|] eqn:Hold.
  - simpl in Hci. apply list_elem_of_fmap in Hci as (x & -> & Hx).
    destruct (has_key _ _ x) eqn:Hkey; [|by apply (Hin x p)].
    simpl in Hprod. rewrite Hp in Hprod. injection Hprod as <-. simpl.
    apply (cartItemOf_Some_cart env) in Hold as [_ Hfind].
    apply find_some in Hfind as [Hold_in Hold_key].
    apply list_elem_of_In in Hold_in.
    assert (x = old) as ->.
    { apply (unique_row (cartItems db)); [done..|].
      rewrite has_key_key in Hkey, Hold_key.
      apply bool_decide_eq_true in Hkey, Hold_key. congruence. }
    simpl in Hle. by destruct isIncrement.
  - simpl in Hci. rewrite cartItems_with_cart in Hci.
    apply elem_of_app in Hci as [Hci|Hci]; [by apply (Hin ci p)|].
    apply list_elem_of_singleton in Hci as ->.
    simpl in Hprod. rewrite Hp in Hprod. injection Hprod as <-. simpl.
    simpl in Hle. destruct isIncrement; lia.
Qed.

Lemma within_stock_check (db : Db) :
  forallb (λ ci, negb (insufficient db ci)) (cartItems db) = true →
  within_stock db.
Proof. intros Hall ci p. by apply sufficient_check. Qed.

End within.

(** X24: with the unique index on (cart, product), the edits of a cart
    keep every cart within the stock: if no cart item asked for more than
    the stock of its product before [addOrUpdateCartItem] or
    [deleteCartItem], none does afterwards, however the call ends.  (The
    stock itself is not reserved: a checkout by someone else can still
    take it.) *)
Theorem cart_edits_keep_carts_within_stock (env : Env)
    (userId productId : string) (quantity : Z) (isIncrement : bool)
    (db : Db) :
  cart_available env db userId →
  unique_keys db →
  within_stock db →
  within_stock
    (addOrUpdateCartItem env userId productId quantity isIncrement db).2
  ∧ within_stock (deleteCartItem userId productId db).2.
Proof.
  intros Hfresh Huniq Hin. split.
  - destruct (products db !! productId) as [product|] eqn:Hp;
      [|by rewrite upsert_run_not_found].
    destruct (Z.lt_ge_cases (available product)
                (newQuantity_of db userId productId quantity isIncrement))
      as [Hlt|Hle]; [by rewrite (upsert_run_exceeds _ _ _ _ _ _ product)|].
    destruct (decide (isIncrement = false ∧ quantity = 0)) as [[-> ->]|Hset].
    + simpl in Hle.
      destruct (cartItemOf db userId productId) as [ci|] eqn:Hci.
      * rewrite (set_to_zero_run _ _ _ _ product ci) by done.
        by apply within_stock_filter.
      * by rewrite (set_to_zero_run_not_found _ _ _ _ product).
    + rewrite (upsert_run _ _ _ _ _ _ product); [|done..|].
      * by apply (within_stock_upserted _ _ _ _ _ _ product).
      * intros ->. intros ->. by apply Hset.
  - rewrite deleteCartItem_run.
    destruct (list_find _ _) as [[i ci]|]; [|done]. simpl.
    intros x p Hx Hp. simpl in *. apply (Hin x p); [|done].
    eapply elem_of_sublist; [exact Hx|apply sublist_delete].
Qed.

Lemma cart_edits_keep_carts_within_stock_witness :
  within_stock
    (addOrUpdateCartItem Example.env "u1" "p1" 3 true Example.db).2
  ∧ within_stock (deleteCartItem "u1" "p1" Example.db).2.
Proof.
  apply cart_edits_keep_carts_within_stock.
  - apply cart_available_check. by vm_compute.
  - apply unique_keys_check. by vm_compute.
  - apply within_stock_check. by vm_compute.
Defined.

(** ** The helpers on their own *)

(** X25: [validateProductStock] returns without throwing exactly when
    every cart item whose product id is a key of the stock map asks for no
    more than that stock, a null stock counting as 0; items whose product
    is not a key are not looked at.  When it throws, the message lists
    the product ids of the items that ask for too much, in the order of
    the cart. *)
Theorem validateProductStock_passes_iff (cartItems : list (string * Z))
    (productStock : gmap string (option Z)) :
  (validateProductStock cartItems productStock = Ok tt
   ↔ ∀ item stock, item ∈ cartItems → productStock !! item.1 = Some stock →
                   item.2 ≤ default 0 stock)
  ∧ (validateProductStock cartItems productStock ≠ Ok tt →
     validateProductStock cartItems productStock
     = Throw (ThrowError
                ("Insufficient stock for product(s): "
                   +:+ String.concat ", "
                         (map fst
                            (List.filter
                               (λ item, match productStock !! item.1 with
                                        | Some stock =>
                                            default 0 stock <? item.2
                                        | None => false
                                        end)
                               cartItems))))).
Proof.
  assert (Hsame : ∀ item : string * Z,
            stock_lt (productStock !! item.1) item.2
            = match productStock !! item.1 with
              | Some stock => default 0 stock <? item.2
              | None => false
              end).
  { intros item. unfold stock_lt.
    by destruct (productStock !! item.1) as [[s|]|]. }
  unfold validateProductStock. cbv zeta.
  rewrite (filter_ext _ _ Hsame).
  destruct (List.filter _ cartItems) as [|x l] eqn:Hfilter.
  - split; [|done]. split; [|done]. intros _ item stock Hitem Hstock.
    apply Z.ltb_ge.
    assert (Hnot : ¬ In item (List.filter
              (λ item, match productStock !! item.1 with
                       | Some stock => default 0 stock <? item.2
                       | None => false
                       end) cartItems)) by (rewrite Hfilter; by intros []).
    rewrite filter_In in Hnot. rewrite Hstock in Hnot.
    apply not_true_is_false. intros Hlt. apply Hnot.
    split; [by apply list_elem_of_In|done].
  - assert (Hlen : (0 <? Z.of_nat (length (x :: l))) = true).
    { apply Z.ltb_lt. simpl. lia. }
    rewrite Hlen. split; [|done]. split; [done|].
    intros Hall. exfalso.
    assert (Hx : In x (x :: l)) by by left.
    rewrite <- Hfilter in Hx. apply filter_In in Hx as [Hx Hlt].
    destruct (productStock !! x.1) as [stock|] eqn:Hstock; [|done].
    apply Z.ltb_lt in Hlt.
    pose proof (Hall x stock (proj2 (list_elem_of_In _ _) Hx) Hstock). lia.
Qed.

Section products_order.

Lemma find_key_None {V} (l : list (string * V)) (k : string) :
  k ∉ l.*1 → List.find (λ p, bool_decide (p.1 = k)) l = None.
Proof.
  intros Hk. apply find_none. intros [k' v] Hin. simpl.
  apply bool_decide_eq_false. intros ->. apply Hk.
  apply list_elem_of_fmap. exists (k, v). split; [done|].
  by apply list_elem_of_In.
Qed.

Lemma find_key_Permutation {V} (l l' : list (string * V)) (k : string) :
  NoDup l.*1 → l ≡ₚ l' →
  List.find (λ p, bool_decide (p.1 = k)) l
  = List.find (λ p, bool_decide (p.1 = k)) l'.
Proof.
  intros Hnd Hperm.
  assert (Hnd' : NoDup l'.*1) by by rewrite <- Hperm.
  destruct (decide (k ∈ l.*1)) as [Hk|Hk].
  - apply list_elem_of_fmap in Hk as ([k' v] & -> & Hin). simpl.
    rewrite (find_key l k' v) by done.
    rewrite (find_key l' k' v); [done|done|by rewrite <- Hperm].
  - rewrite (find_key_None l k) by done.
    rewrite (find_key_None l' k); [done|by rewrite <- Hperm].
Qed.

End products_order.

(** X26: the total of [calculateTotalPrice] does not depend on the order
    in which the products are handed to it (the order in which [findMany]
    happens to return them), as long as no product id occurs twice. *)
Theorem calculateTotalPrice_any_product_order
    (cartItems : list (string * Z)) (products products' : list (string * JsValue)) :
  NoDup products.*1 →
  products ≡ₚ products' →
  calculateTotalPrice cartItems products
  = calculateTotalPrice cartItems products'.
Proof.
  intros Hnd Hperm. unfold calculateTotalPrice. generalize (ofInt 0).
  induction cartItems as [|item cartItems IH]; intros acc; [done|].
  change (foldl ?f acc (?x :: ?l)) with (foldl f (f acc x) l).
  rewrite IH. f_equal. unfold calculateTotalPrice_step.
  by rewrite (find_key_Permutation products products').
Qed.

Lemma calculateTotalPrice_any_product_order_witness :
  calculateTotalPrice [("a", 2); ("b", 1)]
    [("a", JsDecimal (Dec 45000 0)); ("b", JsDecimal (Dec 30000 0))]
  = calculateTotalPrice [("a", 2); ("b", 1)]
      [("b", JsDecimal (Dec 30000 0)); ("a", JsDecimal (Dec 45000 0))].
Proof.
  apply calculateTotalPrice_any_product_order.
  - apply (bool_decide_unpack _). by vm_compute.
  - apply perm_swap.
Defined.

(** ** The total shown and the total charged *)

Section same_total.

Lemma exact_total_Permutation (l l' : list (Z * Z)) :
  l ≡ₚ l' → exact_total l = exact_total l'.
Proof.
  induction 1 as [|x l l' _ IH|x y l|l l' l'' _ IH1 _ IH2]; simpl; lia.
Qed.

Lemma magnitude_Permutation (l l' : list (Z * Z)) :
  l ≡ₚ l' → magnitude l = magnitude l'.
Proof.
  induction 1 as [|x l l' _ IH|x y l|l l' l'' _ IH1 _ IH2]; simpl; lia.
Qed.

Lemma safe_Permutation (l l' : list (Z * Z)) : l ≡ₚ l' → safe l → safe l'.
Proof.
  intros Hperm [Hprices Hmag]. split.
  - by rewrite <- Hperm.
  - by rewrite <- (magnitude_Permutation l l').
Qed.

Lemma order_total_from (db : Db) (items : list CartItem) :
  integer_priced db items →
  Forall (λ line, Z.abs line.1 ≤ MAX_SAFE_INTEGER) (map (line_of db) items) →
  ∀ acc, Z.abs acc + magnitude (map (line_of db) items) ≤ MAX_SAFE_INTEGER →
  foldl (λ acc ci, add acc (lineAmount db ci)) (ofInt acc) items
  = ofInt (acc + exact_total (map (line_of db) items)).
Proof.
  induction items as [|ci items IH]; intros Hint Hsafe acc Hacc.
  - simpl. by rewrite Z.add_0_r.
  - simpl map in *. apply Forall_cons in Hsafe as [Hprice Hsafe].
    simpl in Hacc. pose proof (magnitude_nonneg (map (line_of db) items)).
    destruct (Hint ci) as [c Hc]; [by left|].
    change (foldl ?f ?a (ci :: items)) with (foldl f (f a ci) items).
    unfold lineAmount at 2.
    assert (Hline : line_of db ci = (c, ci_quantity ci)).
    { unfold line_of. by rewrite Hc. }
    rewrite Hline in *. rewrite Hc in Hacc |- *. simpl in Hprice, Hacc.
    change (Decimal_toNumber (Dec c 0)) with (Number (JsDecimal (Dec c 0))).
    rewrite total_step by lia.
    rewrite IH; [| |done|lia].
    + f_equal. simpl. lia.
    + intros ci' Hci'. apply Hint. by right.
Qed.

(** The rows selected by [getCart] carry the lines of the cart items. *)
Lemma selected_lines (db : Db) (cartId : string) (rows : list (Z * Product)) :
  integer_priced db (itemsOf db cartId) →
  selected db cartId = Some rows →
  cart_priced_by rows (map (λ row, (integer_price (product_price row.2), row.1))
                           rows)
  ∧ map (λ row, (integer_price (product_price row.2), row.1)) rows
    = map (line_of db) (itemsOf db cartId).
Proof.
  unfold selected. generalize (itemsOf db cartId). intros items.
  revert rows. induction items as [|ci items IH]; intros rows Hint Hrows.
  - apply mapM_Some in Hrows. apply Forall2_nil_inv_l in Hrows as ->.
    split; [constructor|done].
  - apply mapM_Some in Hrows.
    apply Forall2_cons_inv_l in Hrows as ([q p] & rows' & Hrow & Hrows & ->).
    destruct (products db !! ci_productId ci) as [p'|] eqn:Hp; [|done].
    simpl in Hrow. injection Hrow as <- <-.
    destruct (IH rows') as [Hpriced Hlines].
    { intros ci' Hci'. apply Hint. by right. }
    { by apply mapM_Some. }
    destruct (Hint ci) as [c Hc]; [by left|].
    unfold price_of in Hc. rewrite Hp in Hc. simpl in Hc.
    split.
    + constructor; [|done]. simpl. by rewrite Hc.
    + simpl. rewrite Hlines. f_equal. unfold line_of, price_of.
      by rewrite Hp.
Qed.

Lemma cart_priced_by_rows (rows : list (Z * Product)) :
  cart_priced_by rows
    (map (λ row, (integer_price (product_price row.2), row.1)) rows)
  ↔ Forall (λ row, product_price row.2
                   = Some (Dec (integer_price (product_price row.2)) 0)) rows.
Proof.
  unfold cart_priced_by. induction rows as [|row rows IH]; simpl.
  - split; constructor.
  - split.
    + intros Hall. apply Forall2_cons in Hall as [[_ Hrow] Hall].
      constructor; [done|by apply IH].
    + intros Hall. apply Forall_cons in Hall as [Hrow Hall].
      constructor; [done|by apply IH].
Qed.

Lemma cart_priced_by_Permutation (rows rows' : list (Z * Product)) :
  cart_priced_by rows
    (map (λ row, (integer_price (product_price row.2), row.1)) rows) →
  rows ≡ₚ rows' →
  cart_priced_by rows'
    (map (λ row, (integer_price (product_price row.2), row.1)) rows').
Proof.
  intros Hpriced Hperm. apply cart_priced_by_rows.
  apply cart_priced_by_rows in Hpriced. by rewrite <- Hperm.
Qed.

End same_total.

(** X27: what the cart shows is what the checkout charges.  For a cart
    that can be checked out, whose products have integer prices, and
    whose amounts stay within [Number.MAX_SAFE_INTEGER], the total that
    [getCart] answers with is the [totalPrice] of the order that
    [checkout] creates and the [amount] of its transaction: the exact sum
    of price times quantity, although the two sums run over the items in
    different orders. *)
Theorem cart_total_is_checkout_total (env env2 : Env)
    (userId shippingAddressId cartId : string) (db : Db) :
  can_checkout env userId shippingAddressId cartId db →
  integer_priced db (itemsOf db cartId) →
  safe (map (line_of db) (itemsOf db cartId)) →
  ∃ rows total order orderItems transaction db',
    getCart env2 userId db = (Ok (rows, total), db)
    ∧ checkout env userId shippingAddressId db
      = (Ok (order, orderItems, transaction), db')
    ∧ order_totalPrice order = total
    ∧ tx_amount transaction = total
    ∧ total = ofInt (exact_total (map (line_of db) (itemsOf db cartId))).
Proof.
  intros Hcan Hint Hsafe.
  pose proof Hcan as (Hfresh & Hcart & Hne & Hfk & Haddr & Hstock & Hinv).
  destruct (checkout_body_places_order env userId shippingAddressId db cartId)
    as (m' & Hrun & _); try done.
  { by apply sufficient_not_insufficient. }
  destruct (selected_of_products_exist db cartId Hfk) as [rows Hrows].
  destruct (selected_lines db cartId rows Hint Hrows) as [Hpriced Hlines].
  assert (Hperm : merge_sort by_product_name rows ≡ₚ rows)
    by apply merge_sort_Permutation.
  assert (Hlperm :
    map (λ row : Z * Product, (integer_price (product_price row.2), row.1))
        (merge_sort by_product_name rows)
    ≡ₚ map (line_of db) (itemsOf db cartId)).
  { rewrite <- Hlines. by apply fmap_Permutation. }
  assert (Hsorted_safe := safe_Permutation _ _ (symmetry Hlperm) Hsafe).
  assert (Htotal :
    getCart_total (merge_sort by_product_name rows)
    = Ok (ofInt (exact_total (map (line_of db) (itemsOf db cartId))))).
  { unfold getCart_total.
    rewrite (getCart_total_from _
               (map (λ row : Z * Product,
                       (integer_price (product_price row.2), row.1))
                    (merge_sort by_product_name rows))).
    - by rewrite (exact_total_Permutation _ _ Hlperm).
    - apply (cart_priced_by_Permutation rows); [done|by symmetry].
    - apply Hsorted_safe.
    - simpl. apply Hsorted_safe. }
  assert (Horder : order_total db (itemsOf db cartId)
                   = ofInt (exact_total (map (line_of db) (itemsOf db cartId)))).
  { unfold order_total. rewrite order_total_from; [done|done|apply Hsafe|].
    simpl. apply Hsafe. }
  eexists _, _, _, _, _, _.
  split; [|split; [|split; [|split]]].
  - rewrite (getCart_run env2 userId db rows).
    + rewrite Htotal. unfold with_cart. by rewrite Hcart.
    + intros Hnone. by rewrite Hcart in Hnone.
    + unfold cartOf. by rewrite Hcart.
  - unfold checkout. apply transaction_Ok. exact Hrun.
  - simpl. exact Horder.
  - simpl. exact Horder.
  - done.
Qed.

Lemma integer_priced_check (db : Db) (items : list CartItem) :
  forallb (λ ci, match price_of db (ci_productId ci) with
                 | Some (Dec _ O) => true
                 | _ => false
                 end) items = true →
  integer_priced db items.
Proof.
  intros Hall ci Hci. rewrite forallb_forall in Hall.
  apply list_elem_of_In, Hall in Hci.
  destruct (price_of db (ci_productId ci)) as [[|c [|n]]|]; try done.
  by exists c.
Qed.

Lemma safe_check (lines : list (Z * Z)) :
  forallb (λ line, Z.abs line.1 <=? MAX_SAFE_INTEGER) lines
  && (magnitude lines <=? MAX_SAFE_INTEGER) = true →
  safe lines.
Proof.
  intros Hall. apply andb_true_iff in Hall as [Hprices Hmag]. split.
  - apply Forall_forall. intros line Hline. rewrite forallb_forall in Hprices.
    apply list_elem_of_In, Hprices in Hline. by apply Z.leb_le.
  - by apply Z.leb_le.
Qed.

Lemma cart_total_is_checkout_total_witness :
  ∃ rows total order orderItems transaction db',
    getCart Example.env "u1" Example.db = (Ok (rows, total), Example.db)
    ∧ checkout Example.env "u1" "a1" Example.db
      = (Ok (order, orderItems, transaction), db')
    ∧ order_totalPrice order = total
    ∧ tx_amount transaction = total
    ∧ total = ofInt (exact_total (map (line_of Example.db)
                                      (itemsOf Example.db "c1"))).
Proof.
  apply (cart_total_is_checkout_total Example.env Example.env "u1" "a1" "c1").
  - apply can_checkout_check. by vm_compute.
  - apply integer_priced_check. by vm_compute.
  - apply safe_check. by vm_compute.
Defined.

(** In the example shop the cart of [u1] shows 120000, and that is what
    the order and the transaction of the checkout carry. *)
Lemma cart_total_example :
  (getCart Example.env "u1" Example.db).1
  = Ok ([(2, Example.arabica); (1, Example.robusta)], ofInt 120000)
  ∧ ((λ r, match r with
           | Ok (order, _, transaction) =>
               Some (order_totalPrice order, tx_amount transaction)
           | Throw _ => None
           end)
       (checkout Example.env "u1" "a1" Example.db).1)
    = Some (ofInt 120000, ofInt 120000).
Proof. split; by vm_compute. Qed.

(** ** A checkout that goes through *)

(** C3, as the code has it: with a cart that is not empty, an address
    that exists, stock for every item, prices that are whole numbers and
    amounts within [Number.MAX_SAFE_INTEGER], and an invoice number and an
    order id that are not taken, checkout creates one order with status
    "pending" whose total is the sum of quantity times price, one order
    item per cart item with the price of its product, and one transaction
    with status "Pending" and the same amount; the stock of every product
    is lowered by the quantity ordered of it, and nothing else of a
    product changes; the cart keeps no item, the other carts keep theirs,
    and the carts themselves stay. *)
Theorem checkout_success (env : Env) (userId shippingAddressId : string)
    (db : Db) (cartId : string) :
  cuid_fresh env db →
  carts db !! userId = Some cartId →
  itemsOf db cartId ≠ [] →
  products_exist db →
  generated_ids (itemsOf db cartId) →
  is_Some (userAddresses db !! shippingAddressId) →
  (∀ ci p, ci ∈ itemsOf db cartId →
           products db !! ci_productId ci = Some p →
           ci_quantity ci ≤ available p) →
  invoice_unused env db →
  integer_priced db (itemsOf db cartId) →
  safe (map (line_of db) (itemsOf db cartId)) →
  let items := itemsOf db cartId in
  let total := ofInt (exact_total (map (line_of db) items)) in
  let order :=
    mkOrder (env_cuid env) userId total "pending" shippingAddressId in
  let purchased :=
    map (λ ci, mkOrderItem (env_cuid env) (ci_productId ci) (ci_quantity ci)
                 (price_of db (ci_productId ci)))
        items in
  let transaction :=
    mkTransaction (generateInvoiceNumber env) total "Pending" (env_cuid env) in
  ∃ db',
    checkout env userId shippingAddressId db
    = (Ok (order, purchased, transaction), db')
    ∧ orders db' = (orders db ++ [order])%list
    ∧ orderItems db' = (orderItems db ++ purchased)%list
    ∧ transactions db' = (transactions db ++ [transaction])%list
    ∧ (∀ productId,
         products db' !! productId
         = (λ p, mkProduct (product_name p) (product_price p)
                   ((λ stockQty, stockQty - quantity_in productId items)
                      <$> product_stockQty p))
             <$> products db !! productId)
    ∧ itemsOf db' cartId = []
    ∧ (∀ c, c ≠ cartId → itemsOf db' c = itemsOf db c)
    ∧ carts db' = carts db.
Proof.
  intros Hfresh Hcart Hne Hfk _ Haddr Hstock Hinv Hint Hsafe
         items total order purchased transaction.
  destruct (checkout_body_places_order env userId shippingAddressId db cartId)
    as (m' & Hrun & Hm'); try done.
  { by apply sufficient_not_insufficient. }
  assert (Htotal : order_total db (itemsOf db cartId) = total).
  { unfold order_total. rewrite order_total_from; [done|done|apply Hsafe|].
    simpl. apply Hsafe. }
  cbv zeta in Hrun. rewrite Htotal in Hrun.
  exists (checked_out env userId shippingAddressId cartId m' db).
  split; [unfold checkout; by apply transaction_Ok|].
  unfold checked_out. cbv zeta. rewrite Htotal. simpl.
  split; [done|]. split; [done|]. split; [done|].
  split; [exact Hm'|].
  split; [apply filter_in_cart_deleted|].
  split; [|done].
  intros c Hc. by apply filter_in_cart_other.
Qed.

(** The scenario "add then checkout" in the example shop: [u1] holds two
    Arabica at 45000 (stock 5) and one Robusta at 30000 (stock 1). *)
Lemma checkout_success_witness :
  ∃ db',
    checkout Example.env "u1" "a1" Example.db
    = (Ok (mkOrder "id1" "u1" (ofInt 120000) "pending" "a1",
           [mkOrderItem "id1" "p1" 2 (Some (Dec 45000 0));
            mkOrderItem "id1" "p2" 1 (Some (Dec 30000 0))],
           mkTransaction "INV-20241213-------" (ofInt 120000) "Pending"
             "id1"),
       db')
    ∧ products db' !! "p1"
      = Some (mkProduct "Arabica" (Some (Dec 45000 0)) (Some 3))
    ∧ products db' !! "p2"
      = Some (mkProduct "Robusta" (Some (Dec 30000 0)) (Some 0))
    ∧ products db' !! "p3" = Some Example.gayo
    ∧ itemsOf db' "c1" = []
    ∧ itemsOf db' "c2" = [mkCartItem "c2" "p3" 2]
    ∧ carts db' = carts Example.db.
Proof.
  destruct (checkout_success Example.env "u1" "a1" Example.db "c1")
    as (db' & Hrun & _ & _ & _ & Hstock & Hitems & Hothers & Hcarts).
  - apply cuid_fresh_check. by vm_compute.
  - by vm_compute.
  - by vm_compute.
  - apply products_exist_check. by vm_compute.
  - apply generated_ids_check. by vm_compute.
  - apply (bool_decide_unpack _). by vm_compute.
  - apply sufficient_check. by vm_compute.
  - apply invoice_unused_check. by vm_compute.
  - apply integer_priced_check. by vm_compute.
  - apply safe_check. by vm_compute.
  - exists db'. split; [rewrite Hrun; f_equal; by vm_compute|].
    split; [rewrite (Hstock "p1"); by vm_compute|].
    split; [rewrite (Hstock "p2"); by vm_compute|].
    split; [rewrite (Hstock "p3"); by vm_compute|].
    split; [exact Hitems|].
    split; [rewrite (Hothers "c2") by done; by vm_compute|exact Hcarts].
Defined.

(** The claim as the specification states it fails on three counts.

    In the shop [Example.taken] the cart of [u1] is not empty, nothing
    in it is short of stock and the address [a1] exists, but the invoice
    number generated is the one of an earlier transaction: the checkout
    fails with P2002 (unique constraint) and creates no order.

    In the shop [Example.wholesale] both checkouts go through, and
    neither total is the sum of quantity times price.  Three Luwak at
    30000000000000.31 make 90000000000000.93; the total computed is
    90000000000000.921875, which no rounding to cents turns into the
    sum.  Three Geisha at 3002399751580331 make 9007199254740993; the
    total computed is 9007199254740992. *)
Lemma checkout_postcondition_fails :
  (cuid_fresh Example.env Example.taken
   ∧ carts Example.taken !! "u1" = Some "c1"
   ∧ itemsOf Example.taken "c1" ≠ []
   ∧ offending Example.taken "c1" = []
   ∧ is_Some (userAddresses Example.taken !! "a1")
   ∧ checkout Example.env "u1" "a1" Example.taken
     = (Throw (PrismaError "P2002"), Example.taken)
   ∧ orders Example.taken = [mkOrder "id0" "u2" (ofInt 45000) "pending" "a2"])
  ∧ (can_checkout Example.env "u4" "a4" "c4" Example.wholesale
     ∧ itemsOf Example.wholesale "c4" = [mkCartItem "c4" "p4" 3]
     ∧ price_of Example.wholesale "p4" = Some (Dec 3000000000000031 2)
     ∧ (checkout Example.env "u4" "a4" Example.wholesale).1
       = Ok (mkOrder "id1" "u4" (Fin (5760000000000059 # 64)) "pending" "a4",
             [mkOrderItem "id1" "p4" 3 (Some (Dec 3000000000000031 2))],
             mkTransaction "INV-20241213-------"
               (Fin (5760000000000059 # 64)) "Pending" "id1")
     ∧ (1 # 200
        < (3 * (3000000000000031 # 100)) - (5760000000000059 # 64))%Q)
  ∧ (can_checkout Example.env "u5" "a5" "c5" Example.wholesale
     ∧ itemsOf Example.wholesale "c5" = [mkCartItem "c5" "p5" 3]
     ∧ price_of Example.wholesale "p5" = Some (Dec 3002399751580331 0)
     ∧ (checkout Example.env "u5" "a5" Example.wholesale).1
       = Ok (mkOrder "id1" "u5" (ofInt 9007199254740992) "pending" "a5",
             [mkOrderItem "id1" "p5" 3 (Some (Dec 3002399751580331 0))],
             mkTransaction "INV-20241213-------"
               (ofInt 9007199254740992) "Pending" "id1")
     ∧ 3 * 3002399751580331 = 9007199254740993).
Proof.
  split; [|split].
  - split; [apply cuid_fresh_check; by vm_compute|].
    split; [by vm_compute|]. split; [by vm_compute|].
    split; [by vm_compute|].
    split; [apply (bool_decide_unpack _); by vm_compute|].
    split; by vm_compute.
  - split; [apply can_checkout_check; by vm_compute|].
    split; [by vm_compute|]. split; [by vm_compute|].
    split; by vm_compute.
  - split; [apply can_checkout_check; by vm_compute|].
    split; [by vm_compute|]. split; [by vm_compute|].
    split; by vm_compute.
Qed.

(** ** Slugs *)

Section slug_shape.

Import Slug.
Local Open Scope N_scope.
Local Open Scope list_scope.

Lemma dropWhile_suffix (f : N → bool) (s : JsString) :
  dropWhile f s `suffix_of` s.
Proof.
  induction s as [|c s IH]; simpl; [done|].
  destruct (f c); [by apply suffix_cons_r|done].
Qed.

Lemma dropWhileEnd_prefix (f : N → bool) (s : JsString) :
  dropWhileEnd f s `prefix_of` s.
Proof.
  induction s as [|c s IH]; simpl; [done|].
  destruct (dropWhileEnd f s) as [|c' rest] eqn:Hrest.
  - destruct (f c); [apply prefix_nil|].
    by apply prefix_cons, prefix_nil.
  - by apply prefix_cons.
Qed.

Lemma forallb_app_inv {X} (f : X → bool) (l k : list X) :
  forallb f (l ++ k) = true → forallb f l = true ∧ forallb f k = true.
Proof. rewrite forallb_app, andb_true_iff. done. Qed.

Lemma forallb_dropWhile (P f : N → bool) (s : JsString) :
  forallb P s = true → forallb P (dropWhile f s) = true.
Proof.
  intros Hs. destruct (dropWhile_suffix f s) as [k Hk].
  rewrite Hk in Hs. by apply forallb_app_inv in Hs as [_ ?].
Qed.

Lemma forallb_dropWhileEnd (P f : N → bool) (s : JsString) :
  forallb P s = true → forallb P (dropWhileEnd f s) = true.
Proof.
  intros Hs. destruct (dropWhileEnd_prefix f s) as [k Hk].
  rewrite Hk in Hs. by apply forallb_app_inv in Hs as [? _].
Qed.

Lemma forallb_squeezeDashes (P : N → bool) (s : JsString) :
  forallb P s = true → forallb P (squeezeDashes s) = true.
Proof.
  induction s as [|c s IH]; simpl; [done|].
  intros [Hc Hs]%andb_true_iff.
  destruct (isDash c && _); simpl; [by apply IH|].
  rewrite Hc. by apply IH.
Qed.

Lemma forallb_filter {X} (f : X → bool) (l : list X) :
  forallb f (List.filter f l) = true.
Proof.
  apply forallb_forall. intros x Hx. by apply filter_In in Hx as [_ ?].
Qed.

Lemma head_squeezeDashes_dash (s : JsString) :
  match squeezeDashes s with x :: _ => isDash x | [] => false end = true →
  match s with c :: _ => isDash c | [] => false end = true.
Proof.
  destruct s as [|c s]; [done|]. simpl.
  destruct (isDash c) eqn:Hc; [done|]. simpl. by rewrite Hc.
Qed.

Lemma noDoubleDash_squeezeDashes (s : JsString) :
  noDoubleDash (squeezeDashes s) = true.
Proof.
  induction s as [|c s IH]; [done|]. simpl squeezeDashes.
  destruct (isDash c && _) eqn:Hcc; [exact IH|].
  simpl noDoubleDash. rewrite IH, andb_true_r. apply negb_true_iff.
  destruct (isDash c) eqn:Hc; [|done]. simpl in *.
  apply not_true_is_false. intros Hhead.
  apply head_squeezeDashes_dash in Hhead. congruence.
Qed.

Lemma noDoubleDash_app_l (l k : JsString) :
  noDoubleDash (l ++ k) = true → noDoubleDash l = true.
Proof.
  induction l as [|c l IH]; [done|]. simpl.
  intros [Hc Hl]%andb_true_iff. rewrite (IH Hl), andb_true_r.
  destruct l as [|c' l]; [by rewrite andb_false_r|done].
Qed.

Lemma noDoubleDash_app_r (l k : JsString) :
  noDoubleDash (l ++ k) = true → noDoubleDash k = true.
Proof.
  induction l as [|c l IH]; [done|]. simpl.
  intros [_ Hl]%andb_true_iff. by apply IH.
Qed.

Lemma head_dropWhile (f : N → bool) (s : JsString) (c : N) :
  head (dropWhile f s) = Some c → f c = false.
Proof.
  induction s as [|c' s IH]; simpl; [done|].
  destruct (f c') eqn:Hc'; [done|]. simpl. by intros [= <-].
Qed.

Lemma last_dropWhileEnd (f : N → bool) (s : JsString) (c : N) :
  last (dropWhileEnd f s) = Some c → f c = false.
Proof.
  induction s as [|c' s IH]; simpl; [done|].
  destruct (dropWhileEnd f s) as [|c'' rest] eqn:Hrest.
  - destruct (f c') eqn:Hc'; [done|]. simpl. by intros [= <-].
  - rewrite last_cons. destruct (last (c'' :: rest)) eqn:Hlast; [done|].
    by rewrite last_cons in Hlast; destruct (last rest).
Qed.

Lemma head_prefix (l s : JsString) (c : N) :
  l `prefix_of` s → head l = Some c → head s = Some c.
Proof. intros [k ->]. by destruct l. Qed.

(** The last three steps of [slugify] produce the shape of a slug. *)
Lemma isSlug_strip (s : JsString) :
  forallb isSlugChar s = true →
  isSlug (dropWhileEnd isDash (dropWhile isDash (squeezeDashes s))) = true.
Proof.
  intros Hs. unfold isSlug. rewrite !andb_true_iff. repeat split.
  - by apply forallb_dropWhileEnd, forallb_dropWhile, forallb_squeezeDashes.
  - apply negb_true_iff, bool_decide_eq_false. intros Hhead.
    apply (head_prefix _ _ _ (dropWhileEnd_prefix _ _)) in Hhead.
    by apply head_dropWhile in Hhead.
  - apply negb_true_iff, bool_decide_eq_false. intros Hlast.
    by apply last_dropWhileEnd in Hlast.
  - destruct (dropWhileEnd_prefix isDash
                (dropWhile isDash (squeezeDashes s))) as [k Hk].
    destruct (dropWhile_suffix isDash (squeezeDashes s)) as [k' Hk'].
    pose proof (noDoubleDash_squeezeDashes s) as Hnd.
    rewrite Hk' in Hnd. apply noDoubleDash_app_r in Hnd.
    rewrite Hk in Hnd. by apply noDoubleDash_app_l in Hnd.
Qed.

End slug_shape.

(** X28: whatever the name, and whatever Unicode's case mapping and
    normalisation make of it, [slugify] returns a string of the
    characters [a-z], [0-9] and [-] that neither starts nor ends with a
    dash and has no two dashes in a row; when it is not empty it matches
    the pattern [^[a-z0-9-]+$] that the product schema asks of a slug. *)
Theorem slugify_shape (toLowerCase normalizeNFD : JsString → JsString)
    (name : JsString) :
  Slug.isSlug (Slug.slugify toLowerCase normalizeNFD name) = true.
Proof. unfold Slug.slugify. cbv zeta. apply isSlug_strip, forallb_filter. Qed.

(** "  Kopi Arabika & Robusta #1 -- 250g+  " becomes
    "kopi-arabika-and-robusta-number1-250g"; names made of dashes or
    spaces only become the empty string. *)
Lemma slugify_example :
  Slug.slugify Slug.asciiLowerCase id
    (js "  Kopi Arabika & Robusta #1 -- 250g+  ")
  = js "kopi-arabika-and-robusta-number1-250g"
  ∧ Slug.slugify Slug.asciiLowerCase id (js "A&B#C%D+E")
    = js "aandbnumberc-d-e"
  ∧ Slug.slugify Slug.asciiLowerCase id (js "--a--&--") = js "a-and"
  ∧ Slug.slugify Slug.asciiLowerCase id (js "x - - y") = js "x-y"
  ∧ Slug.slugify Slug.asciiLowerCase id (js "---") = js ""
  ∧ Slug.slugify Slug.asciiLowerCase id (js "  ") = js "".
Proof. repeat split; by vm_compute. Qed.

Section slug_fixed.

Import Slug.
Local Open Scope N_scope.
Local Open Scope list_scope.

Lemma isSlugChar_plain (c : N) :
  isSlugChar c = true →
  isWhiteSpace c = false ∧ isCombiningMark c = false
  ∧ (c =? 38) = false ∧ (c =? 35) = false
  ∧ (c =? 37) = false ∧ (c =? 43) = false.
Proof.
  unfold isSlugChar, isWhiteSpace, isCombiningMark.
  rewrite !orb_true_iff, !andb_true_iff, !N.leb_le, N.eqb_eq.
  intros Hc.
  assert (Hnot : c ∉ [9; 10; 11; 12; 13; 32; 160; 5760; 8232; 8233; 8239;
                      8287; 12288; 65279]).
  { rewrite !not_elem_of_cons. repeat split; try lia. apply not_elem_of_nil. }
  rewrite (bool_decide_eq_false_2 _ Hnot). simpl.
  repeat split.
  - apply andb_false_iff. rewrite !N.leb_gt. lia.
  - apply andb_false_iff. rewrite !N.leb_gt. lia.
  - apply N.eqb_neq. lia.
  - apply N.eqb_neq. lia.
  - apply N.eqb_neq. lia.
  - apply N.eqb_neq. lia.
Qed.

Lemma dropWhile_id (f : N → bool) (s : JsString) :
  (∀ c, head s = Some c → f c = false) → dropWhile f s = s.
Proof. destruct s as [|c s]; [done|]. simpl. intros Hc. by rewrite Hc. Qed.

Lemma dropWhileEnd_id (f : N → bool) (s : JsString) :
  (∀ c, last s = Some c → f c = false) → dropWhileEnd f s = s.
Proof.
  induction s as [|c s IH]; [done|]. intros Hlast. simpl.
  destruct s as [|c' s].
  - simpl. by rewrite Hlast.
  - rewrite IH; [done|]. intros x Hx. apply Hlast. by rewrite last_cons, Hx.
Qed.

Lemma replaceChar_id (x : N) (text s : JsString) :
  forallb (λ c, negb (c =? x)) s = true → replaceChar x text s = s.
Proof.
  unfold replaceChar. induction s as [|c s IH]; [done|]. simpl.
  intros [Hc Hs]%andb_true_iff. apply negb_true_iff in Hc.
  by rewrite Hc, IH.
Qed.

Lemma squeezeDashes_id (s : JsString) :
  noDoubleDash s = true → squeezeDashes s = s.
Proof.
  induction s as [|c s IH]; [done|]. simpl.
  intros [Hc Hs]%andb_true_iff. apply negb_true_iff in Hc.
  by rewrite Hc, IH.
Qed.

Lemma forallb_impl {X} (f g : X → bool) (l : list X) :
  (∀ x, f x = true → g x = true) → forallb f l = true → forallb g l = true.
Proof.
  intros Hfg. rewrite !forallb_forall. intros Hf x Hx. by apply Hfg, Hf.
Qed.

Lemma forallb_head {X} (f : X → bool) (l : list X) (x : X) :
  forallb f l = true → head l = Some x → f x = true.
Proof. destruct l; [done|]. simpl. by intros [? _]%andb_true_iff [= <-]. Qed.

Lemma forallb_last {X} (f : X → bool) (l : list X) (x : X) :
  forallb f l = true → last l = Some x → f x = true.
Proof.
  intros Hall Hlast. rewrite forallb_forall in Hall. apply Hall.
  apply list_elem_of_In. apply last_Some in Hlast as [l' ->].
  apply elem_of_app. right. by left.
Qed.

(** On a slug every step of [slugify] after the case mapping and the
    normalisation is the identity, and so is [trim]. *)
Lemma slugify_steps_id (s : JsString) :
  isSlug s = true →
  trim s = s
  ∧ dropWhileEnd isDash
      (dropWhile isDash
         (squeezeDashes
            (List.filter isSlugChar
               (map (λ c, if isWhiteSpace c || (c =? 37) || (c =? 43)
                          then 45 else c)
                  (replaceChar 35 (js "number")
                     (replaceChar 38 (js "and")
                        (List.filter (λ c, negb (isCombiningMark c)) s)))))))
    = s.
Proof.
  unfold isSlug. rewrite !andb_true_iff.
  intros (((Hchars & Hhead) & Hlast) & Hnd).
  apply negb_true_iff, bool_decide_eq_false in Hhead, Hlast.
  split.
  - unfold trim. rewrite dropWhile_id.
    + apply dropWhileEnd_id. intros c Hc.
      by apply (forallb_last _ _ _ Hchars), isSlugChar_plain in Hc as [? _].
    + intros c Hc.
      by apply (forallb_head _ _ _ Hchars), isSlugChar_plain in Hc as [? _].
  - rewrite (filter_all (λ c, negb (isCombiningMark c))); last first.
    { intros c Hc. apply list_elem_of_In in Hc.
      pose proof (proj1 (forallb_forall _ _) Hchars c Hc) as Hs.
      by apply isSlugChar_plain in Hs as (_ & -> & _). }
    rewrite (replaceChar_id 38); last first.
    { apply (forallb_impl isSlugChar); [|exact Hchars]. intros c Hc.
      by apply isSlugChar_plain in Hc as (_ & _ & -> & _). }
    rewrite (replaceChar_id 35); last first.
    { apply (forallb_impl isSlugChar); [|exact Hchars]. intros c Hc.
      by apply isSlugChar_plain in Hc as (_ & _ & _ & -> & _). }
    rewrite (map_ext_in _ id), map_id; last first.
    { intros c Hc. pose proof (proj1 (forallb_forall _ _) Hchars c Hc) as Hs.
      by apply isSlugChar_plain in Hs as (-> & _ & _ & _ & -> & ->). }
    rewrite (filter_all isSlugChar); last first.
    { intros c Hc. apply list_elem_of_In in Hc.
      by apply (proj1 (forallb_forall _ _) Hchars c). }
    rewrite squeezeDashes_id by done.
    rewrite dropWhile_id.
    + apply dropWhileEnd_id. intros c Hc. apply N.eqb_neq. congruence.
    + intros c Hc. apply N.eqb_neq. congruence.
Qed.

Lemma isSlug_chars (s : JsString) :
  isSlug s = true → forallb isSlugChar s = true.
Proof. unfold isSlug. rewrite !andb_true_iff. by intros (((? & _) & _) & _). Qed.

Lemma asciiLowerCase_slug (s : JsString) :
  forallb isSlugChar s = true → asciiLowerCase s = s.
Proof.
  intros Hchars. unfold asciiLowerCase.
  rewrite (map_ext_in _ id), map_id; [done|].
  intros c Hc. rewrite forallb_forall in Hchars. apply Hchars in Hc.
  unfold isSlugChar in Hc.
  rewrite !orb_true_iff, !andb_true_iff, !N.leb_le, N.eqb_eq in Hc.
  assert (Hno : (65 <=? c) && (c <=? 90) = false).
  { apply andb_false_iff. rewrite !N.leb_gt. lia. }
  by rewrite Hno.
Qed.

End slug_fixed.

(** X29: a slug is a fixed point of [slugify], and [slugify] is
    idempotent: given that the case mapping and the normalisation leave
    strings of [a-z], [0-9] and [-] as they are (as those of Unicode do),
    [slugify] returns a string of the shape of a slug unchanged, and
    slugifying twice is slugifying once. *)
Theorem slugify_idempotent (toLowerCase normalizeNFD : JsString → JsString) :
  (∀ s, forallb Slug.isSlugChar s = true → toLowerCase s = s) →
  (∀ s, forallb Slug.isSlugChar s = true → normalizeNFD s = s) →
  (∀ s, Slug.isSlug s = true → Slug.slugify toLowerCase normalizeNFD s = s)
  ∧ (∀ name,
       Slug.slugify toLowerCase normalizeNFD
         (Slug.slugify toLowerCase normalizeNFD name)
       = Slug.slugify toLowerCase normalizeNFD name).
Proof.
  intros Hlower Hnfd.
  assert (Hfix : ∀ s, Slug.isSlug s = true →
                      Slug.slugify toLowerCase normalizeNFD s = s).
  { intros s Hs. destruct (slugify_steps_id s Hs) as [Htrim Hsteps].
    unfold Slug.slugify. cbv zeta.
    rewrite Htrim, Hlower, Hnfd by by apply isSlug_chars.
    exact Hsteps. }
  split; [exact Hfix|].
  intros name. apply Hfix, isSlug_strip, forallb_filter.
Qed.

Lemma slugify_idempotent_witness :
  (∀ s, Slug.isSlug s = true → Slug.slugify Slug.asciiLowerCase id s = s)
  ∧ (∀ name,
       Slug.slugify Slug.asciiLowerCase id
         (Slug.slugify Slug.asciiLowerCase id name)
       = Slug.slugify Slug.asciiLowerCase id name).
Proof.
  apply slugify_idempotent.
  - apply asciiLowerCase_slug.
  - done.
Defined.

Section slug_unique.

Import Slug.
Local Open Scope list_scope.

Lemma js_inj (s s' : string) : js s = js s' → s = s'.
Proof.
  unfold js. intros Heq.
  assert (Hascii : String.list_ascii_of_string s
                   = String.list_ascii_of_string s').
  { revert Heq. generalize (String.list_ascii_of_string s)
                           (String.list_ascii_of_string s').
    induction l as [|a l IH]; intros [|a' l']; simpl; try done.
    intros [= Ha Hl]. f_equal; [|by apply IH].
    rewrite <- (Ascii.ascii_N_embedding a), <- (Ascii.ascii_N_embedding a').
    by rewrite Ha. }
  rewrite <- (String.string_of_list_ascii_of_string s),
          <- (String.string_of_list_ascii_of_string s').
  by rewrite Hascii.
Qed.

Lemma numbered_inj (baseSlug : JsString) (k k' : nat) :
  numbered baseSlug k = numbered baseSlug k' → k = k'.
Proof.
  unfold numbered. intros Heq.
  apply app_inv_head, app_inv_head, js_inj in Heq.
  by apply (inj pretty) in Heq.
Qed.

Lemma prefix_numbered (baseSlug : JsString) (k : nat) :
  baseSlug `prefix_of` numbered baseSlug k.
Proof. by eexists. Qed.

(** [findMany] with [startsWith] leaves out no slug that the loop asks
    for. *)
Lemma elem_of_similar (baseSlug s : JsString) (slugs : list JsString) :
  baseSlug `prefix_of` s →
  s ∈ List.filter (λ s, bool_decide (baseSlug `prefix_of` s)) slugs ↔ s ∈ slugs.
Proof.
  intros Hprefix. rewrite !list_elem_of_In, filter_In, bool_decide_eq_true.
  split; [by intros [? _]|by intros ?].
Qed.

Lemma length_filter_le {X} (f : X → bool) (l : list X) :
  (length (List.filter f l) ≤ length l)%nat.
Proof.
  induction l as [|x l IH]; simpl; [done|]. destruct (f x); simpl; lia.
Qed.

(** The loop, started on a slug that is taken, stops at the first free
    number. *)
Lemma generateSlug_while_finds (existingSlugs : list JsString)
    (baseSlug : JsString) (d : nat) :
  ∀ (count fuel : nat) (uniqueSlug : JsString),
    uniqueSlug ∈ existingSlugs →
    (∀ k, (count ≤ k < count + d)%nat → numbered baseSlug k ∈ existingSlugs) →
    numbered baseSlug (count + d) ∉ existingSlugs →
    (d + 2 ≤ fuel)%nat →
    generateSlug_while fuel existingSlugs baseSlug uniqueSlug count
    = Some (numbered baseSlug (count + d)).
Proof.
  induction d as [|d IH]; intros count fuel uniqueSlug Hin Hbelow Hfree Hfuel.
  - destruct fuel as [|[|fuel]]; [lia..|]. simpl.
    rewrite bool_decide_eq_true_2 by done.
    rewrite Nat.add_0_r in Hfree.
    by rewrite bool_decide_eq_false_2, Nat.add_0_r.
  - destruct fuel as [|fuel]; [lia|]. simpl.
    rewrite bool_decide_eq_true_2 by done.
    rewrite (IH (count + 1)%nat).
    + f_equal. f_equal. lia.
    + apply Hbelow. lia.
    + intros k Hk. apply Hbelow. lia.
    + by replace (count + 1 + d)%nat with (count + S d)%nat by lia.
    + lia.
Qed.

(** Among the slugs numbered from [count] on, one of the first
    [length existingSlugs + 1] is free. *)
Lemma first_free_number (existingSlugs : list JsString)
    (baseSlug : JsString) (count : nat) :
  ∃ d, (d ≤ length existingSlugs)%nat
       ∧ (numbered baseSlug (count + d) ∉ existingSlugs)
       ∧ ∀ k, (count ≤ k < count + d)%nat →
              numbered baseSlug k ∈ existingSlugs.
Proof.
  destruct (list_find (λ d, numbered baseSlug (count + d) ∉ existingSlugs)
                      (seq 0 (S (length existingSlugs))))
    as [[i d]|] eqn:Hfind.
  - apply list_find_Some in Hfind as (Hi & Hfree & Hbelow).
    apply lookup_seq in Hi as [-> Hlt]. rewrite Nat.add_0_l in *.
    exists i. split; [lia|]. split; [done|].
    intros k Hk.
    destruct (decide (numbered baseSlug k ∈ existingSlugs)) as [|Hnot];
      [done|].
    exfalso. apply (Hbelow (k - count)%nat (k - count)%nat).
    + apply lookup_seq. split; [done|lia].
    + lia.
    + by replace (count + (k - count))%nat with k by lia.
  - exfalso. apply list_find_None in Hfind.
    assert (Hall : ∀ d, (d < S (length existingSlugs))%nat →
                        numbered baseSlug (count + d) ∈ existingSlugs).
    { intros d Hd.
      destruct (decide (numbered baseSlug (count + d) ∈ existingSlugs))
        as [|Hnot]; [done|].
      exfalso. rewrite Forall_forall in Hfind. apply (Hfind d); [|done].
      apply elem_of_seq. lia. }
    assert (Hnd : NoDup ((λ d, numbered baseSlug (count + d))
                           <$> seq 0 (S (length existingSlugs)))).
    { apply NoDup_fmap_2_strong; [|apply NoDup_seq].
      intros d d' _ _ Heq. apply numbered_inj in Heq. lia. }
    assert (Hsub : (λ d, numbered baseSlug (count + d))
                     <$> seq 0 (S (length existingSlugs))
                   ⊆+ existingSlugs).
    { apply NoDup_submseteq; [done|]. intros s Hs.
      apply list_elem_of_fmap in Hs as (d & -> & Hd).
      apply Hall. apply elem_of_seq in Hd. lia. }
    apply submseteq_length in Hsub.
    rewrite length_fmap, length_seq in Hsub. lia.
Qed.

End slug_unique.

(** X30: [generateSlug] ends and returns a slug that no product has.
    After at most as many tests as there are products plus two, it
    answers with the base slug when that is free, and otherwise with the
    base slug followed by [-n] for the first [n], counted from 1, that is
    free. *)
Theorem generateSlug_unused (toLowerCase normalizeNFD : JsString → JsString)
    (slugs : list JsString) (name : JsString) (slug : option JsString)
    (fuel : nat) :
  (length slugs + 2 ≤ fuel)%nat →
  let baseSlug :=
    match slug with
    | Some (c :: s) => Slug.slugify toLowerCase normalizeNFD (c :: s)
    | _ => Slug.slugify toLowerCase normalizeNFD name
    end in
  ∃ uniqueSlug,
    Slug.generateSlug toLowerCase normalizeNFD fuel slugs name slug
    = Some uniqueSlug
    ∧ (uniqueSlug ∉ slugs)
    ∧ (baseSlug ∉ slugs → uniqueSlug = baseSlug)
    ∧ (baseSlug ∈ slugs →
       ∃ n, (1 ≤ n)%nat
            ∧ uniqueSlug = Slug.numbered baseSlug n
            ∧ ∀ k, (1 ≤ k < n)%nat → Slug.numbered baseSlug k ∈ slugs).
Proof.
  intros Hfuel baseSlug. unfold Slug.generateSlug. cbv zeta.
  fold baseSlug.
  set (existingSlugs :=
         List.filter (λ s, bool_decide (baseSlug `prefix_of` s)) slugs).
  assert (Hbase : baseSlug ∈ existingSlugs ↔ baseSlug ∈ slugs)
    by by apply elem_of_similar.
  assert (Hnum : ∀ k, Slug.numbered baseSlug k ∈ existingSlugs
                      ↔ Slug.numbered baseSlug k ∈ slugs).
  { intros k. apply elem_of_similar, prefix_numbered. }
  assert (Hlen : (length existingSlugs ≤ length slugs)%nat)
    by apply length_filter_le.
  clearbody existingSlugs.
  destruct (decide (baseSlug ∈ existingSlugs)) as [Hin|Hnot].
  - rewrite bool_decide_eq_true_2 by done. simpl.
    destruct (first_free_number existingSlugs baseSlug 1)
      as (d & Hd & Hfree & Hbelow).
    exists (Slug.numbered baseSlug (1 + d)). split; [|split; [|split]].
    + apply generateSlug_while_finds; [done|done|done|].
      unfold JsString in *. lia.
    + by rewrite <- Hnum.
    + intros Hfreebase. by apply Hbase in Hin.
    + intros _. exists (1 + d)%nat. split; [lia|]. split; [done|].
      intros k Hk. apply Hnum, Hbelow. lia.
  - rewrite bool_decide_eq_false_2 by done. simpl.
    exists baseSlug. split; [done|]. split; [by rewrite <- Hbase|].
    split; [done|]. intros Hin. by apply Hbase in Hin.
Qed.

Lemma generateSlug_unused_witness :
  let baseSlug := Slug.slugify Slug.asciiLowerCase id (js "Kopi") in
  ∃ uniqueSlug,
    Slug.generateSlug Slug.asciiLowerCase id 5
      [js "kopi"; js "kopi-1"; js "teh"] (js "Kopi") None
    = Some uniqueSlug
    ∧ (uniqueSlug ∉ [js "kopi"; js "kopi-1"; js "teh"])
    ∧ (baseSlug ∉ [js "kopi"; js "kopi-1"; js "teh"] → uniqueSlug = baseSlug)
    ∧ (baseSlug ∈ [js "kopi"; js "kopi-1"; js "teh"] →
       ∃ n, (1 ≤ n)%nat
            ∧ uniqueSlug = Slug.numbered baseSlug n
            ∧ ∀ k, (1 ≤ k < n)%nat →
                   Slug.numbered baseSlug k
                   ∈ [js "kopi"; js "kopi-1"; js "teh"]).
Proof.
  apply (generateSlug_unused Slug.asciiLowerCase id
           [js "kopi"; js "kopi-1"; js "teh"] (js "Kopi") None 5).
  simpl. lia.
Defined.

(** With the slugs "kopi" and "kopi-1" taken, the product "Kopi" gets the
    slug "kopi-2"; the first number tried is 1. *)
Lemma generateSlug_example :
  Slug.generateSlug Slug.asciiLowerCase id 5
    [js "kopi"; js "kopi-1"; js "teh"] (js "Kopi") None
  = Some (js "kopi-2")
  ∧ Slug.generateSlug Slug.asciiLowerCase id 5 [js "kopi"; js "teh"]
      (js "Kopi") None
    = Some (js "kopi-1").
Proof. split; by vm_compute. Qed.

